(* ===== verification/_CoqProject ===== *)
-Q . S2P
Prelude.v
Progress.v
Host.v
Controller.v
Invariant.v
Safety.v
Render.v
Leak.v
Coalesce.v
Bootstrap.v
Page.v
