(* ===== verification/Prelude.v ===== *)
(** * Verification of ProductViewParallax (src/assets/product-view.js)

    ** The program

    One script of a Shopify theme.  The class [ProductViewParallax] (lines
    4-132) drives one section: it finds the section element and its layer
    [.product-view__image-1], and on desktop (viewport wider than 749px)
    listens to window [scroll] and [resize], coalesces scrolls into one
    [requestAnimationFrame] callback, and on each [update] writes
    [clip-path: inset((1 - progress) * 100% 0 0 0)] where [progress] in
    [[0,1]] measures how far the section has travelled through the
    viewport.  An [IntersectionObserver] sets an [isActive] flag and
    updates when the section comes into view.  [onResize] switches between
    mobile ([cleanup]) and desktop ([init]).  [initProductViewSections]
    (lines 135-148) builds one controller per marked section, each in its
    own try/catch; the script runs it when the document is ready, again
    after 500ms, and, in the theme editor, builds a controller 100ms after
    each [shopify:section:load] (lines 150-173).

    ** The development, file by file

    - [Prelude] (this file): boolean comparisons on [Q] with the tactics
      [qbool], [qcase], [qdecide]; the state-and-exception monad [js] of
      the method bodies ([Ok]/[Throw], [try_catch], [forEach]) as an
      instance of stdpp's [MBind]; hint databases [pv], [pv_rw]; generic
      list lemmas.
    - [Progress] (Module [Progress]): [scroll_progress], lines 81-104 of
      [update], and [clip_value], line 110; the specification's mapping
      [spec_progress]; a [Proper] instance for [Qeq].
    - [Host] (Module [Host]): the browser.  [Document] is the interface
      (a class with its law) of the DOM queries and the layout;
      [window] holds the viewport, the listener list, the pending
      animation-frame callbacks, the observers, the [clipPath] styles, the
      object allocator and the console; the operations follow the DOM and
      HTML standards ([addEventListener] ignores a duplicate (type,
      callback) pair, [removeEventListener] removes by function identity,
      [bind] makes a fresh function object).  [example_page] is a
      concrete document used by the witnesses.
    - [Controller] (Module [Controller]): the record [ProductViewParallax]
      and the heap of controllers ([world]); [construct], [init],
      [onScroll], [onResize], [update], [cleanup] and [on_intersection],
      statement by statement; the event loop ([dispatch], [run_frame],
      [deliver], [step]) that calls them as the browser does.
    - [Invariant] (Module [Invariant]): the window-wide frame invariant
      [frames_inv] and a small program logic ([stable], [keeps], with the
      tactics [stable_tac], [keeps_tac]) proving that every event keeps it.
    - [Safety] (Module [Safety]): the typing invariant [world_wf] (every
      listener is the bound handler of its event type, and every listener,
      frame callback and observer refers to a controller whose section and
      layer exist) and a total-correctness triple [safe] for method bodies,
      proved for every method and lifted to events ([calm]) and to the
      constructor.
    - [Render] (Module [Render]): what a rendered frame does; the
      reasoning on event traces the later files share ([returns], [exec]
      of a [forEach] item by item).
    - [Leak] (Module [Leak]): [n] round trips of the viewport through the
      breakpoint on a page with one controller, followed through every
      resize listener the dispatch runs.
    - [Coalesce] (Module [Coalesce]): the naive scroll handler
      [sync_onScroll] (update at once) dispatched by [sync_scroll], the
      clip writes of a sequence of controllers ([paints]) and their laws,
      and the equivalence of frame-deferred with synchronous rendering on
      any page.
    - [Bootstrap] (Module [Bootstrap]): [initProductViewSections], the page
      script [script] (its last statement publishes the class on the
      window, line 176), timers and [page_step] over a [page] record.
    - [Page] (Module [Page]): the whole page, [run_page], constructions
      and events interleaved, with both invariants; the script's
      scenarios.

    The files build on one another in this order.  [Safety], [Render],
    [Leak], [Coalesce] and [Page] define no part of the program beyond
    [run_page]; they add theorems about the definitions of the files
    before them and the references they are compared with.  [Render],
    [Leak] and [Coalesce] follow a dispatch listener by listener, with the
    triples of [Safety] and the frame invariant of [Invariant].  [Page]
    uses the results of [Invariant] and [Safety] for the events, and adds
    the constructions of [Bootstrap].

    ** What is proved (property ids C<n>)

    - Frame scheduling (C1-C3, C17, C18, C23): every event keeps
      [frames_inv]; each controller has at most one pending animation
      frame after any
      event sequence (C1), and at every point of a page's life,
      constructions included (C23); a non-empty burst of scrolls leaves
      exactly one frame pending for an active controller; [onScroll]
      leaves exactly the frame it requested; [cleanup] leaves no frame,
      observation or clip behind.
    - Progress (C4-C6, C30): equality with the specification's ramp on
      browser rectangles (the clamp is redundant); range [[0,1]] and
      inset [[0,100]] for every rectangle; monotonicity in the scroll
      position; the specification's law "bottom <= 0 gives 1" holds
      except for a zero-height viewport with a zero-height section at its
      top edge, where the code gives 0.
    - Typing and safety (C8, C9, C12, C20): from a well-typed world no
      sequence of events makes a callback throw, and the world stays well
      typed; the constructor throws only the selector's exception; a
      controller built in a mobile window never activates, even after
      resizes to desktop.
    - Rendering (C10, C11, C21): a rendered frame never throws and leaves
      no callback pending (liveness); on any page with no frame pending,
      any number of controllers and layers shared among them, a burst of
      scrolls and a frame leave every clip exactly as the naive handler
      updating on every scroll (equivalence); a round trip through mobile
      mode unclips the layer and restores its clip (round trip).
    - Page (C13, C14): any interleaving of discovery, the 500ms rescan,
      editor loads and browser events keeps both invariants and, an
      exception escaping a page task being reported as uncaught, logs
      only the two initialization messages.
    - The listener leak (C15, C16, C19): [cleanup] removes no listener
      (a bug), each switch back to desktop appends two, so [n] round
      trips through the breakpoint leave [2 * n] more listeners.
    - Controller (C7, C24, C25, C28, C29): what [update] writes;
      [cleanup] is idempotent; mobile controllers do nothing; constructor
      errors and inert construction.
    - Visibility gate (C22, C26): an observer notification sets
      [isActive] to the section's visibility and updates the layer when
      it is in view; [onScroll] ignores [isActive].
    - Bootstrap (C27): resilience of discovery: one controller per good
      section, one log per failing one, and no exception; so the 500ms
      rescan adds a second controller for every section.

    ** Modelling choices

    Numbers are exact rationals ([Q]); the browser's doubles and their
    rounding are not modelled, nor the formatting of the inset into a CSS
    string ([clip] keeps the number).  The viewport width is an integer
    ([Z]) as [innerWidth] is.  Layout is static for a given width; a
    scroll moves every rectangle by the scroll offset.  When the browser
    delivers an observer notification, fires a scroll or renders a frame
    is the environment's choice (an [event]); the entries delivered are
    computed from the geometry with the 50px root margin, but the
    threshold bookkeeping that decides when a notification is due is not
    modelled.  [fire_due] runs the due timers with one unit of fuel per
    pending timer, which is enough because a timer task adds no timer
    ([fire_due_timers]).  A task of the page (the script, a document
    listener, a timer callback) that throws has its exception reported on
    the console as uncaught, as the browser does ([on_world]);
    [DOMContentLoaded] may be delivered more than once, an
    over-approximation that only strengthens the page theorems.
    [window.ProductViewParallax] (line 176) is the page field
    [debug_exposed]; code outside the script that would use the global is
    not part of the page.

    ** Not modelled

    The browser's side of [IntersectionObserver] beyond what the code
    reads: the per-target threshold bookkeeping (previous threshold index
    and previous [isIntersecting]) that decides whether a notification is
    queued.  It is host behaviour the code neither configures beyond its
    options nor observes, so the model lets the environment deliver a
    notification at any time, which covers every schedule the browser
    may choose.  Also not modelled: CSS, the string form of the inset, and
    the removal of sections from the document, which the code never
    observes.  An [IntersectionObserver] disconnected by [cleanup] stays
    in [observers] with no target; in the browser it is unreachable once
    [this.observer] is reset, so its presence in the map is no leak. *)

From Stdlib Require Import String.
From stdpp Require Import base.
From Stdlib Require Import QArith Qminmax Lqa ZArith List Bool Lia Morphisms Setoid Permutation.
Import ListNotations.

(** ** Boolean comparisons on rationals, as the JavaScript [<], [<=] *)

Definition Qltb (x y : Q) : bool := negb (Qle_bool y x).
Definition Qleb (x y : Q) : bool := Qle_bool x y.

Lemma Qltb_iff x y : Qltb x y = true <-> x < y.
Proof.
  unfold Qltb. rewrite negb_true_iff. split; intros H.
  - destruct (Qlt_le_dec x y) as [|Hle]; [assumption|].
    apply Qle_bool_iff in Hle. congruence.
  - destruct (Qle_bool y x) eqn:E; [|reflexivity].
    apply Qle_bool_iff in E. exfalso. apply (Qlt_not_le x y); assumption.
Qed.

Lemma Qleb_iff x y : Qleb x y = true <-> x <= y.
Proof. apply Qle_bool_iff. Qed.

Lemma Qltb_false x y : Qltb x y = false <-> y <= x.
Proof.
  unfold Qltb. rewrite negb_false_iff. apply Qle_bool_iff.
Qed.

Lemma Qleb_false x y : Qleb x y = false <-> y < x.
Proof.
  split; intros H.
  - destruct (Qlt_le_dec y x) as [|Hle]; [assumption|].
    apply Qle_bool_iff in Hle. unfold Qleb in H. congruence.
  - destruct (Qleb x y) eqn:E; [|reflexivity].
    apply Qleb_iff in E. exfalso. apply (Qlt_not_le y x); assumption.
Qed.

(** [qbool] turns every boolean comparison of the context into the
    proposition it decides, so that [lra] can use it. *)
Ltac qbool :=
  repeat match goal with
  | H : Qltb _ _ = true |- _ => apply Qltb_iff in H
  | H : Qltb _ _ = false |- _ => apply Qltb_false in H
  | H : Qleb _ _ = true |- _ => apply Qleb_iff in H
  | H : Qleb _ _ = false |- _ => apply Qleb_false in H
  | H : (_ && _)%bool = true |- _ => apply andb_true_iff in H as [? ?]
  | H : (_ && _)%bool = false |- _ => apply andb_false_iff in H as [?|?]
  end.

(** [qcase e] splits on a boolean comparison and reflects both branches. *)
Ltac qcase e := let E := fresh "E" in destruct e eqn:E; qbool.

(** [qdecide] rewrites every comparison of the goal whose value [lra]
    can settle from the context. *)
Ltac qdecide :=
  repeat match goal with
  | |- context [Qltb ?x ?y] =>
      first [ rewrite (proj2 (Qltb_iff x y)) by lra
            | rewrite (proj2 (Qltb_false x y)) by lra ]
  | |- context [Qleb ?x ?y] =>
      first [ rewrite (proj2 (Qleb_iff x y)) by lra
            | rewrite (proj2 (Qleb_false x y)) by lra ]
  end; rewrite ?andb_false_r, ?andb_true_r; cbn [andb orb negb].

Lemma Qltb_compat : Proper (Qeq ==> Qeq ==> eq) Qltb.
Proof. intros a b E c d F. unfold Qltb. rewrite E, F. reflexivity. Qed.

Lemma Qleb_compat : Proper (Qeq ==> Qeq ==> eq) Qleb.
Proof. intros a b E c d F. unfold Qleb. rewrite E, F. reflexivity. Qed.

#[export] Existing Instance Qltb_compat.
#[export] Existing Instance Qleb_compat.

Create HintDb pv.
Create Rewrite HintDb pv_rw.

(** ** A state monad with JavaScript exceptions

    A method of the program reads and writes the shared heap (the window,
    the DOM and the objects) and may throw; the state reached before a
    [throw] is kept, as in JavaScript.  [try_catch] is [try { } catch]. *)

Inductive exn : Type :=
  | SyntaxError   (** [querySelector] with an invalid selector *)
  | TypeError.    (** a member access or call on [null] *)

Inductive outcome (A : Type) : Type :=
  | Ok (a : A)
  | Throw (e : exn).
Arguments Ok {A} a.
Arguments Throw {A} e.

Definition js (S A : Type) : Type := S -> outcome A * S.

Definition ret {S A} (a : A) : js S A := fun s => (Ok a, s).
Definition throw {S A} (e : exn) : js S A := fun s => (Throw e, s).
Definition bind {S A B} (m : js S A) (k : A -> js S B) : js S B :=
  fun s => match m s with
           | (Ok a, s') => k a s'
           | (Throw e, s') => (Throw e, s')
           end.
Definition try_catch {S A} (m : js S A) (h : exn -> js S A) : js S A :=
  fun s => match m s with
           | (Throw e, s') => h e s'
           | r => r
           end.
Definition gets {S A} (f : S -> A) : js S A := fun s => (Ok (f s), s).
Definition modify {S} (f : S -> S) : js S unit := fun s => (Ok tt, f s).

(** The monad is an instance of stdpp's [MRet]/[MBind], so the code reads
    with stdpp's [x ← m; k] and [m ;; k]. *)
#[export] Instance js_ret {S} : MRet (js S) := @ret S.
#[export] Instance js_bind {S} : MBind (js S) := fun A B k m => bind m k.

(** [forEach f l] is [l.forEach(f)]: [f] runs on every element in order;
    an exception stops the loop. *)
Fixpoint forEach {S A} (f : A -> js S unit) (l : list A) : js S unit :=
  match l with
  | [] => ret tt
  | x :: xs => f x ;; forEach f xs
  end.

(** Final state of a computation. *)
Definition exec {S A} (m : js S A) (s : S) : S := snd (m s).

Lemma bind_ret_l {S A B} (a : A) (k : A -> js S B) s :
  bind (ret a) k s = k a s.
Proof. reflexivity. Qed.

Lemma bind_assoc {S A B C} (m : js S A) (k : A -> js S B) (k' : B -> js S C) s :
  bind (bind m k) k' s = bind m (fun a => bind (k a) k') s.
Proof. unfold bind. destruct (m s) as [[a|e] s']; reflexivity. Qed.

Lemma bind_ok {S A B} (m : js S A) (k : A -> js S B) s a s' :
  m s = (Ok a, s') -> bind m k s = k a s'.
Proof. intros H. unfold bind. rewrite H. reflexivity. Qed.

#[export] Hint Rewrite @bind_ret_l @bind_assoc : pv_rw.

(** ** Generic list lemmas shared by the components *)

Lemma filter_length_le {A} (f : A -> bool) (l : list A) :
  (length (filter f l) <= length l)%nat.
Proof. induction l as [|x l IH]; simpl; [lia|destruct (f x); simpl; lia]. Qed.

Lemma filter_idem {A} (f : A -> bool) (l : list A) :
  filter f (filter f l) = filter f l.
Proof.
  induction l as [|x l IH]; simpl; [reflexivity|].
  destruct (f x) eqn:E; simpl; [rewrite E|]; rewrite IH; reflexivity.
Qed.

Lemma filter_all_true {A} (f : A -> bool) (l : list A) :
  (forall x, In x l -> f x = true) -> filter f l = l.
Proof.
  induction l as [|x l IH]; intros Hl; simpl; [reflexivity|].
  rewrite (Hl x (or_introl eq_refl)), IH; [reflexivity|]. intros y Hy. apply Hl. right. exact Hy.
Qed.

Lemma NoDup_map_filter {A B} (g : A -> B) (f : A -> bool) (l : list A) :
  NoDup (map g l) -> NoDup (map g (filter f l)).
Proof.
  induction l as [|x l IH]; simpl; [auto|]. intros Hnd. inversion Hnd as [|? ? Hn Hd]; subst.
  destruct (f x); simpl; [|auto]. constructor; [|auto]. intros Hin. apply Hn.
  apply in_map_iff in Hin as (y & E & Hy). apply filter_In in Hy as [Hy _].
  apply in_map_iff. exists y. auto.
Qed.

(** A duplicate-free list whose elements are all equal has at most one. *)
Lemma NoDup_const_length {A} (l : list A) (h : A) :
  NoDup l -> (forall x, In x l -> x = h) -> (length l <= 1)%nat.
Proof.
  destruct l as [|x [|y l]]; simpl; [lia|lia|]. intros Hnd Hall. exfalso.
  inversion Hnd as [|? ? Hn _]; subst. apply Hn. left.
  rewrite (Hall y (or_intror (or_introl eq_refl))). symmetry. apply Hall. left. reflexivity.
Qed.

Lemma filter_Permutation_compat {A} (f : A -> bool) (l l' : list A) :
  Permutation l l' -> Permutation (filter f l) (filter f l').
Proof.
  induction 1 as [|x l l' _ IH|x y l|l l' l'' _ IH1 _ IH2]; simpl.
  - constructor.
  - destruct (f x); [constructor|]; exact IH.
  - destruct (f x), (f y); try constructor; reflexivity.
  - etransitivity; eassumption.
Qed.

(** Filtering pairs by a test that reads their second component only. *)
Lemma map_snd_filter {A B} (f : A * B -> bool) (g : B -> bool) (l : list (A * B)) :
  (forall p, In p l -> f p = g (snd p)) -> map snd (filter f l) = filter g (map snd l).
Proof.
  induction l as [|p l IH]; intros Hfg; simpl; [reflexivity|].
  rewrite (Hfg p (or_introl eq_refl)). destruct (g (snd p)); simpl;
    rewrite IH by (intros q Hq; apply Hfg; right; exact Hq); reflexivity.
Qed.

#[export] Hint Resolve filter_length_le filter_Permutation_compat : pv.
