(* ===== verification/Progress.v ===== *)
(** * The progress function of [ProductViewParallax.update]

    [update] (src/assets/product-view.js, lines 74-112) reads the bounding
    rectangle of the section and the viewport height, maps them to a
    progress in [[0,1]] (lines 85-104) and writes the clip inset
    [(1 - progress) * 100] (line 110).  This file holds that pure part:
    [scroll_progress], [clip_value], the abstract ramp of the
    specification, and their theorems (range, exactness of the ramp,
    monotonicity in the scroll position, the boundary above the
    viewport).  Numbers are exact rationals: the IEEE rounding of the
    browser's doubles is not modelled. *)
From S2P Require Import Prelude.
From Stdlib Require Import String QArith Qminmax Lqa Morphisms Setoid.

Module Progress.

(** [Element.getBoundingClientRect()]: only the three fields read by the
    code. *)
Record DOMRect := mkRect { top : Q; bottom : Q; height : Q }.

(** Lines 85-104: the progress, 0 when the section has not entered the
    viewport, 1 once it has left it at the top, and the clamped ratio
    [scrolled / scrollRange] while it intersects the viewport. *)
Definition scroll_progress (rect : DOMRect) (windowHeight : Q) : Q :=
  let sectionHeight := height rect in
  if Qltb 0 (bottom rect) && Qltb (top rect) windowHeight then
    let scrollStart := windowHeight in
    let scrollEnd := - sectionHeight in
    let scrollRange := scrollStart - scrollEnd in
    let scrolled := scrollStart - top rect in
    let progress := scrolled / scrollRange in
    Qmax 0 (Qmin 1 progress)
  else if Qleb windowHeight (top rect) then 0
  else if Qleb (bottom rect) 0 then 1
  else 0.

(** Line 110: the top inset, in percent, written into [clip-path]. *)
Definition clip_value (progress : Q) : Q := (1 - progress) * 100.

(** A rectangle as the browser returns it for an element: its bottom is
    its top plus its height, and its height is not negative. *)
Definition rect_wf (r : DOMRect) : Prop :=
  bottom r == top r + height r /\ 0 <= height r.

(** The rectangle of a section whose top edge is at [t] (relative to the
    viewport) and whose height is [h]. *)
Definition rect_at (t h : Q) : DOMRect := mkRect t (t + h) h.

(** The mapping of the specification (section 4.2), with the ramp left
    unclamped: 0 below the viewport, 1 above it, and otherwise the
    fraction of the distance [H + height] travelled since first contact. *)
Definition spec_progress (t h H : Q) : Q :=
  if Qleb H t then 0
  else if Qleb (t + h) 0 then 1
  else (H - t) / (H + h).

(** Rectangles compared field by field with [Qeq]. *)
Definition rect_eq (r1 r2 : DOMRect) : Prop :=
  top r1 == top r2 /\ bottom r1 == bottom r2 /\ height r1 == height r2.

(** ** Lemmas on the ramp *)

Lemma ramp_pos (t h H : Q) : t < H -> 0 < t + h -> 0 < H + h.
Proof. intros. lra. Qed.

Lemma ramp_ge0 (t h H : Q) : t < H -> 0 < t + h -> 0 <= (H - t) / (H + h).
Proof.
  intros Ht Hb. apply Qle_shift_div_l; [lra|]. lra.
Qed.

Lemma ramp_le1 (t h H : Q) : t < H -> 0 <= t + h -> 0 < H + h ->
  (H - t) / (H + h) <= 1.
Proof.
  intros Ht Hb Hr. apply Qle_shift_div_r; [assumption|]. lra.
Qed.

Lemma ramp_antitone (t1 t2 h H : Q) : 0 < H + h -> t1 <= t2 ->
  (H - t2) / (H + h) <= (H - t1) / (H + h).
Proof.
  intros Hr Ht. unfold Qdiv. apply Qmult_le_compat_r; [lra|].
  apply Qinv_le_0_compat. lra.
Qed.

Lemma clamp_id (x : Q) : 0 <= x -> x <= 1 -> Qmax 0 (Qmin 1 x) == x.
Proof.
  intros H0 H1. rewrite (Q.min_r 1 x H1). apply Q.max_r. assumption.
Qed.

Lemma clamp_range (x : Q) : 0 <= Qmax 0 (Qmin 1 x) /\ Qmax 0 (Qmin 1 x) <= 1.
Proof.
  split; [apply Q.le_max_l|]. apply Q.max_lub; [lra|apply Q.le_min_l].
Qed.

#[export] Hint Resolve ramp_pos ramp_ge0 ramp_le1 clamp_range : pv.

(** The ramp of a visible, well-formed rectangle is in [[0,1]]. *)
Lemma visible_ramp_unit (r : DOMRect) (H : Q) :
  rect_wf r -> 0 < bottom r -> top r < H ->
  0 <= (H - top r) / (H + height r) <= 1.
Proof.
  intros [Hb Hh] H0 H1. split.
  - apply ramp_ge0; lra.
  - apply ramp_le1; lra.
Qed.

(** ** The three regions of a rectangle *)

Lemma sp_below (r : DOMRect) (H : Q) : H <= top r -> scroll_progress r H = 0.
Proof. intros Hle. unfold scroll_progress. qdecide. reflexivity. Qed.

Lemma sp_above (r : DOMRect) (H : Q) :
  top r < H -> bottom r <= 0 -> scroll_progress r H = 1.
Proof. intros Ht Hb. unfold scroll_progress. qdecide. reflexivity. Qed.

Lemma sp_visible (r : DOMRect) (H : Q) :
  rect_wf r -> 0 < bottom r -> top r < H ->
  scroll_progress r H == (H - top r) / (H + height r).
Proof.
  intros Hwf Hb Ht. pose proof (visible_ramp_unit r H Hwf Hb Ht) as [H0 H1].
  destruct Hwf as [Hbt Hh].
  unfold scroll_progress. qdecide.
  setoid_replace (H - - height r) with (H + height r) using relation Qeq by ring.
  apply clamp_id; assumption.
Qed.

Lemma rect_at_wf (t h : Q) : 0 <= h -> rect_wf (rect_at t h).
Proof. intros Hh. split; [reflexivity|exact Hh]. Qed.

#[export] Hint Resolve rect_at_wf : pv.

(** [scroll_progress] reads its arguments up to [Qeq]. *)
#[export] Instance scroll_progress_proper :
  Proper (rect_eq ==> Qeq ==> Qeq) scroll_progress.
Proof.
  intros r1 r2 [Ht [Hb Hh]] H1 H2 EH. unfold scroll_progress.
  rewrite (Qltb_compat 0 0 (Qeq_refl 0) _ _ Hb), (Qltb_compat _ _ Ht _ _ EH),
    (Qleb_compat _ _ EH _ _ Ht), (Qleb_compat _ _ Hb 0 0 (Qeq_refl 0)).
  destruct (Qltb 0 (bottom r2) && Qltb (top r2) H2); [|reflexivity].
  rewrite Hh, Ht, EH. reflexivity.
Qed.

(** A well-formed rectangle is the rectangle [rect_at] of its top and height. *)
Lemma rect_wf_rect_at (r : DOMRect) :
  rect_wf r -> rect_eq r (rect_at (top r) (height r)).
Proof. intros [Hb _]. split; [reflexivity|split; [exact Hb|reflexivity]]. Qed.

(** ** Properties *)

(** C5: whatever the geometry, extreme or degenerate (a zero height, a
    top far above or below the viewport, a rectangle the browser would
    never return), the progress of [update] is in [[0,1]] and the clip
    inset it writes is in [[0,100]]. *)
Theorem scroll_progress_range (r : DOMRect) (H : Q) :
  0 <= scroll_progress r H <= 1 /\
  0 <= clip_value (scroll_progress r H) <= 100.
Proof.
  assert (0 <= scroll_progress r H <= 1) as [H0 H1].
  { unfold scroll_progress.
    destruct (Qltb 0 (bottom r) && Qltb (top r) H); [apply clamp_range|].
    destruct (Qleb H (top r)); [lra|]. destruct (Qleb (bottom r) 0); lra. }
  unfold clip_value. split; [split|split]; lra.
Qed.

(** C4: on a rectangle as the browser returns it, the clamped computation
    of lines 85-104 equals the mapping of the specification: 0 when the
    section is below the viewport, 1 when it is above, and otherwise the
    exact unclamped ratio [(H - top) / (H + height)]; the clamp of line 97
    never changes the value. *)
Theorem scroll_progress_refines (r : DOMRect) (H : Q) :
  rect_wf r -> scroll_progress r H == spec_progress (top r) (height r) H.
Proof.
  intros Hwf. pose proof Hwf as [Hb Hh]. unfold spec_progress.
  destruct (Qlt_le_dec (top r) H) as [Ht|Ht].
  - destruct (Qlt_le_dec 0 (bottom r)) as [H0|H0].
    + qdecide. apply sp_visible; assumption.
    + qdecide. rewrite sp_above by assumption. reflexivity.
  - qdecide. rewrite sp_below by assumption. reflexivity.
Qed.

(** C6: for a fixed section height and viewport height, the progress
    never decreases while the section moves up through the viewport
    (while its top [t] decreases), across all three regions. *)
Theorem scroll_progress_antitone (t1 t2 h H : Q) :
  0 <= h -> t1 <= t2 ->
  scroll_progress (rect_at t2 h) H <= scroll_progress (rect_at t1 h) H.
Proof.
  intros Hh Ht.
  destruct (Qlt_le_dec t2 H) as [H2|H2];
    [|rewrite (sp_below (rect_at t2 h)) by exact H2;
      apply (scroll_progress_range (rect_at t1 h) H)].
  destruct (Qlt_le_dec 0 (t1 + h)) as [B1|B1].
  - rewrite (sp_visible (rect_at t1 h)) by (auto with pv; simpl; lra).
    destruct (Qlt_le_dec 0 (t2 + h)) as [B2|B2].
    + rewrite (sp_visible (rect_at t2 h)) by (auto with pv; simpl; lra).
      apply ramp_antitone; simpl; lra.
    + lra.
  - rewrite (sp_above (rect_at t1 h)) by (simpl; lra).
    apply (scroll_progress_range (rect_at t2 h) H).
Qed.


(** ** Witnesses *)

Lemma scroll_progress_refines_witness :
  rect_wf (rect_at 200 400) /\
  scroll_progress (rect_at 200 400) 800 == spec_progress 200 400 800.
Proof.
  split.
  - split; [reflexivity|apply Qleb_iff; reflexivity].
  - apply (scroll_progress_refines (rect_at 200 400) 800).
    split; [reflexivity|apply Qleb_iff; reflexivity].
Defined.

Lemma scroll_progress_antitone_witness :
  0 <= 400 /\ -100 <= 300 /\
  scroll_progress (rect_at 300 400) 800 <= scroll_progress (rect_at (-100) 400) 800.
Proof.
  split; [apply Qleb_iff; reflexivity|split; [apply Qleb_iff; reflexivity|]].
  apply (scroll_progress_antitone (-100) 300 400 800);
    apply Qleb_iff; reflexivity.
Defined.


End Progress.
