(* ===== verification/Host.v ===== *)
(** * The browser around [ProductViewParallax]

    The external collaborators of src/assets/product-view.js, modelled
    after the DOM and HTML standards for the operations the code calls:
    - [Document]: an interface (a class with its law) for the document
      queries and the layout the code reads ([querySelector],
      [querySelectorAll], [getAttribute], [getBoundingClientRect]);
    - [window]: the window's state, i.e. its size and scroll position, its
      event-listener list, the map of animation-frame callbacks, the
      intersection observers, the [style.clipPath] of the elements, the
      object allocator and the console;
    - the window operations the code calls: [addEventListener] (which
      ignores a listener already registered with the same type and
      callback), [removeEventListener] (which removes by callback
      identity), [requestAnimationFrame] / [cancelAnimationFrame],
      [new IntersectionObserver], [observe] and [disconnect].
    Function objects are values with an identity: [fn.bind(this)] returns
    a fresh object ([bound_fn]), and the method read from the prototype
    ([this.onScroll]) is one shared object ([proto_fn]). *)
From S2P Require Import Prelude Progress.
From stdpp Require Import base list gmap strings.
From Stdlib Require Import QArith Lqa ZArith String List.
Import ListNotations.

Module Host.
Import Progress.

(** Identity of a DOM element, and of a JavaScript object. *)
Definition elem := positive.
Definition obj := nat.

(** The event types the code listens to: ['scroll'] and ['resize']. *)
Inductive event_type := ev_scroll_type | ev_resize_type.

(** The methods of [ProductViewParallax] used as listeners. *)
Inductive method := m_onScroll | m_onResize.

(** A function object: [this.m.bind(this)], a new object with identity
    [id], or the prototype method [this.m] itself. *)
Inductive js_fn :=
  | bound_fn (id : obj) (this : obj) (m : method)
  | proto_fn (m : method).

(** An entry of the window's event-listener list. *)
Record listener := mk_listener { l_type : event_type; l_callback : js_fn }.

#[export] Instance event_type_eq_dec : EqDecision event_type.
Proof. solve_decision. Defined.
#[export] Instance method_eq_dec : EqDecision method.
Proof. solve_decision. Defined.
#[export] Instance js_fn_eq_dec : EqDecision js_fn.
Proof. solve_decision. Defined.
#[export] Instance listener_eq_dec : EqDecision listener.
Proof. solve_decision. Defined.

(** An [IntersectionObserver]: the object whose arrow function is its
    callback, its options, and its observation targets. *)
Record observer := mk_observer {
  ob_callback : obj;
  ob_rootMargin : Q;
  ob_threshold : list Q;
  ob_targets : list elem }.

(** The value of [style.clipPath]: [''] or [inset(v% 0 0 0)]. *)
Inductive clip := clip_none | clip_inset (v : Q).

(** The document the code queries, as an interface.  [layout w e] is the
    page-relative top and the height of [e] at viewport width [w]. *)
Class Document := {
  querySelector_section : string -> outcome (option elem);
  querySelector_image1 : elem -> option elem;
  querySelectorAll_sections : list elem;
  getAttribute_section_id : elem -> option string;
  layout : Z -> elem -> Q * Q;
  layout_height_nonneg : forall w e, 0 <= snd (layout w e)
}.

Record window := mk_window {
  innerWidth : Z;
  innerHeight : Q;
  scrollY : Q;
  has_IntersectionObserver : bool;
  listeners : list listener;
  raf_callbacks : list (positive * obj);
  raf_next : positive;
  observers : gmap obj observer;
  clipPath : gmap elem clip;
  next_obj : obj;
  console_errors : list string
}.

(** ** Window operations *)

Definition set_listeners (ls : list listener) (w : window) : window :=
  mk_window (innerWidth w) (innerHeight w) (scrollY w) (has_IntersectionObserver w)
    ls (raf_callbacks w) (raf_next w) (observers w) (clipPath w) (next_obj w)
    (console_errors w).

Definition set_raf (cbs : list (positive * obj)) (nxt : positive) (w : window) : window :=
  mk_window (innerWidth w) (innerHeight w) (scrollY w) (has_IntersectionObserver w)
    (listeners w) cbs nxt (observers w) (clipPath w) (next_obj w) (console_errors w).

Definition set_observers (os : gmap obj observer) (w : window) : window :=
  mk_window (innerWidth w) (innerHeight w) (scrollY w) (has_IntersectionObserver w)
    (listeners w) (raf_callbacks w) (raf_next w) os (clipPath w) (next_obj w)
    (console_errors w).

Definition set_clipPath (e : elem) (v : clip) (w : window) : window :=
  mk_window (innerWidth w) (innerHeight w) (scrollY w) (has_IntersectionObserver w)
    (listeners w) (raf_callbacks w) (raf_next w) (observers w) (<[e:=v]> (clipPath w))
    (next_obj w) (console_errors w).

Definition bump_obj (w : window) : window :=
  mk_window (innerWidth w) (innerHeight w) (scrollY w) (has_IntersectionObserver w)
    (listeners w) (raf_callbacks w) (raf_next w) (observers w) (clipPath w)
    (S (next_obj w)) (console_errors w).

Definition console_error (msg : string) (w : window) : window :=
  mk_window (innerWidth w) (innerHeight w) (scrollY w) (has_IntersectionObserver w)
    (listeners w) (raf_callbacks w) (raf_next w) (observers w) (clipPath w)
    (next_obj w) (console_errors w ++ [msg]).

Definition set_scroll (y : Q) (w : window) : window :=
  mk_window (innerWidth w) (innerHeight w) y (has_IntersectionObserver w)
    (listeners w) (raf_callbacks w) (raf_next w) (observers w) (clipPath w)
    (next_obj w) (console_errors w).

Definition set_size (wd : Z) (ht : Q) (w : window) : window :=
  mk_window wd ht (scrollY w) (has_IntersectionObserver w)
    (listeners w) (raf_callbacks w) (raf_next w) (observers w) (clipPath w)
    (next_obj w) (console_errors w).

(** [addEventListener(type, callback)]: nothing happens when the list
    already holds a listener with the same type and callback. *)
Definition addEventListener (t : event_type) (f : js_fn) (w : window) : window :=
  let l := mk_listener t f in
  if decide (l ∈ listeners w) then w else set_listeners (listeners w ++ [l]) w.

(** [removeEventListener(type, callback)]: removes the listener with this
    type and this callback object, if any. *)
Definition removeEventListener (t : event_type) (f : js_fn) (w : window) : window :=
  set_listeners (List.filter (fun l => negb (bool_decide (l = mk_listener t f))) (listeners w)) w.

(** [requestAnimationFrame(cb)]: the next handle; [cb] calls [update] of
    the object recorded with it. *)
Definition requestAnimationFrame (this : obj) (w : window) : positive * window :=
  (raf_next w, set_raf (raf_callbacks w ++ [(raf_next w, this)]) (Pos.succ (raf_next w)) w).

(** [cancelAnimationFrame(h)]: removes the callback of handle [h], if any. *)
Definition cancelAnimationFrame (h : positive) (w : window) : window :=
  set_raf (List.filter (fun p => negb (Pos.eqb (fst p) h)) (raf_callbacks w)) (raf_next w) w.

(** [new IntersectionObserver(cb, {rootMargin: '50px',
    threshold: [0, 0.25, 0.5, 0.75, 1]})], lines 28-38. *)
Definition new_IntersectionObserver (this : obj) (w : window) : obj * window :=
  let o := next_obj w in
  (o, bump_obj (set_observers (<[o := mk_observer this 50 [0; 1#4; 1#2; 3#4; 1] []]>
                                 (observers w)) w)).

(** [observer.observe(target)]: a target already observed is not added
    twice. *)
Definition observe (o : obj) (e : elem) (w : window) : window :=
  match observers w !! o with
  | Some ob =>
      if decide (e ∈ ob_targets ob) then w
      else set_observers (<[o := mk_observer (ob_callback ob) (ob_rootMargin ob)
                                   (ob_threshold ob) (ob_targets ob ++ [e])]> (observers w)) w
  | None => w
  end.

(** [observer.disconnect()]: the observer keeps no target. *)
Definition disconnect (o : obj) (w : window) : window :=
  match observers w !! o with
  | Some ob =>
      set_observers (<[o := mk_observer (ob_callback ob) (ob_rootMargin ob)
                              (ob_threshold ob) []]> (observers w)) w
  | None => w
  end.

Section Geometry.
Context `{Document}.

(** [e.getBoundingClientRect()]: the layout at the current width, moved by
    the scroll position. *)
Definition getBoundingClientRect (w : window) (e : elem) : DOMRect :=
  let '(page_top, h) := layout (innerWidth w) e in
  mkRect (page_top - scrollY w) (page_top - scrollY w + h) h.

(** [entry.isIntersecting] for a target of an observer with root margin
    [m]: the target's rectangle meets, or touches, the viewport grown by
    [m] on each side. *)
Definition isIntersecting (w : window) (m : Q) (e : elem) : bool :=
  let r := getBoundingClientRect w e in
  Qleb (top r) (innerHeight w + m) && Qleb (- m) (bottom r).

Lemma getBoundingClientRect_wf (w : window) (e : elem) :
  rect_wf (getBoundingClientRect w e).
Proof.
  unfold getBoundingClientRect. pose proof (layout_height_nonneg (innerWidth w) e) as Hh.
  destruct (layout (innerWidth w) e) as [pt h]. split; simpl; [reflexivity|exact Hh].
Qed.

End Geometry.

#[export] Hint Resolve getBoundingClientRect_wf : pv.

(** ** Which field each operation changes *)

Create Rewrite HintDb host_rw.

Lemma listeners_cancel h v : listeners (cancelAnimationFrame h v) = listeners v.
Proof. reflexivity. Qed.
Lemma listeners_set_clipPath e x v : listeners (set_clipPath e x v) = listeners v.
Proof. reflexivity. Qed.
Lemma listeners_disconnect o v : listeners (disconnect o v) = listeners v.
Proof. unfold disconnect. destruct (observers v !! o); reflexivity. Qed.
Lemma listeners_observe o e v : listeners (observe o e v) = listeners v.
Proof. unfold observe. destruct (observers v !! o); [case_decide|]; reflexivity. Qed.
Lemma listeners_bump v : listeners (bump_obj v) = listeners v.
Proof. reflexivity. Qed.
Lemma listeners_console m v : listeners (console_error m v) = listeners v.
Proof. reflexivity. Qed.
Lemma raf_set_clipPath e x v : raf_callbacks (set_clipPath e x v) = raf_callbacks v.
Proof. reflexivity. Qed.
Lemma raf_disconnect o v : raf_callbacks (disconnect o v) = raf_callbacks v.
Proof. unfold disconnect. destruct (observers v !! o); reflexivity. Qed.
Lemma raf_observe o e v : raf_callbacks (observe o e v) = raf_callbacks v.
Proof. unfold observe. destruct (observers v !! o); [case_decide|]; reflexivity. Qed.
Lemma raf_removeEventListener t f v :
  raf_callbacks (removeEventListener t f v) = raf_callbacks v.
Proof. reflexivity. Qed.

#[export] Hint Rewrite listeners_cancel listeners_set_clipPath listeners_disconnect
  listeners_observe listeners_bump listeners_console raf_set_clipPath raf_disconnect
  raf_observe raf_removeEventListener : host_rw.

Lemma removeEventListener_set_clipPath t f e x v :
  removeEventListener t f (set_clipPath e x v) = set_clipPath e x (removeEventListener t f v).
Proof. reflexivity. Qed.

Lemma set_clipPath_twice e x v :
  set_clipPath e x (set_clipPath e x v) = set_clipPath e x v.
Proof. unfold set_clipPath. simpl. rewrite insert_insert_eq. reflexivity. Qed.

(** Each operation keeps the allocator, the capability and the viewport. *)
Lemma next_obj_addEventListener t f v : next_obj (addEventListener t f v) = next_obj v.
Proof. unfold addEventListener; case_decide; reflexivity. Qed.
Lemma has_IntersectionObserver_addEventListener t f v : has_IntersectionObserver (addEventListener t f v) = has_IntersectionObserver v.
Proof. unfold addEventListener; case_decide; reflexivity. Qed.
Lemma innerWidth_addEventListener t f v : innerWidth (addEventListener t f v) = innerWidth v.
Proof. unfold addEventListener; case_decide; reflexivity. Qed.
Lemma innerHeight_addEventListener t f v : innerHeight (addEventListener t f v) = innerHeight v.
Proof. unfold addEventListener; case_decide; reflexivity. Qed.
Lemma scrollY_addEventListener t f v : scrollY (addEventListener t f v) = scrollY v.
Proof. unfold addEventListener; case_decide; reflexivity. Qed.
Lemma next_obj_removeEventListener t f v : next_obj (removeEventListener t f v) = next_obj v.
Proof. reflexivity. Qed.
Lemma has_IntersectionObserver_removeEventListener t f v : has_IntersectionObserver (removeEventListener t f v) = has_IntersectionObserver v.
Proof. reflexivity. Qed.
Lemma innerWidth_removeEventListener t f v : innerWidth (removeEventListener t f v) = innerWidth v.
Proof. reflexivity. Qed.
Lemma innerHeight_removeEventListener t f v : innerHeight (removeEventListener t f v) = innerHeight v.
Proof. reflexivity. Qed.
Lemma scrollY_removeEventListener t f v : scrollY (removeEventListener t f v) = scrollY v.
Proof. reflexivity. Qed.
Lemma next_obj_cancelAnimationFrame h v : next_obj (cancelAnimationFrame h v) = next_obj v.
Proof. reflexivity. Qed.
Lemma has_IntersectionObserver_cancelAnimationFrame h v : has_IntersectionObserver (cancelAnimationFrame h v) = has_IntersectionObserver v.
Proof. reflexivity. Qed.
Lemma innerWidth_cancelAnimationFrame h v : innerWidth (cancelAnimationFrame h v) = innerWidth v.
Proof. reflexivity. Qed.
Lemma innerHeight_cancelAnimationFrame h v : innerHeight (cancelAnimationFrame h v) = innerHeight v.
Proof. reflexivity. Qed.
Lemma scrollY_cancelAnimationFrame h v : scrollY (cancelAnimationFrame h v) = scrollY v.
Proof. reflexivity. Qed.
Lemma next_obj_set_clipPath e x v : next_obj (set_clipPath e x v) = next_obj v.
Proof. reflexivity. Qed.
Lemma has_IntersectionObserver_set_clipPath e x v : has_IntersectionObserver (set_clipPath e x v) = has_IntersectionObserver v.
Proof. reflexivity. Qed.
Lemma innerWidth_set_clipPath e x v : innerWidth (set_clipPath e x v) = innerWidth v.
Proof. reflexivity. Qed.
Lemma innerHeight_set_clipPath e x v : innerHeight (set_clipPath e x v) = innerHeight v.
Proof. reflexivity. Qed.
Lemma scrollY_set_clipPath e x v : scrollY (set_clipPath e x v) = scrollY v.
Proof. reflexivity. Qed.
Lemma next_obj_observe o e v : next_obj (observe o e v) = next_obj v.
Proof. unfold observe; destruct (observers v !! o); [case_decide|]; reflexivity. Qed.
Lemma has_IntersectionObserver_observe o e v : has_IntersectionObserver (observe o e v) = has_IntersectionObserver v.
Proof. unfold observe; destruct (observers v !! o); [case_decide|]; reflexivity. Qed.
Lemma innerWidth_observe o e v : innerWidth (observe o e v) = innerWidth v.
Proof. unfold observe; destruct (observers v !! o); [case_decide|]; reflexivity. Qed.
Lemma innerHeight_observe o e v : innerHeight (observe o e v) = innerHeight v.
Proof. unfold observe; destruct (observers v !! o); [case_decide|]; reflexivity. Qed.
Lemma scrollY_observe o e v : scrollY (observe o e v) = scrollY v.
Proof. unfold observe; destruct (observers v !! o); [case_decide|]; reflexivity. Qed.
Lemma next_obj_disconnect o v : next_obj (disconnect o v) = next_obj v.
Proof. unfold disconnect; destruct (observers v !! o); reflexivity. Qed.
Lemma has_IntersectionObserver_disconnect o v : has_IntersectionObserver (disconnect o v) = has_IntersectionObserver v.
Proof. unfold disconnect; destruct (observers v !! o); reflexivity. Qed.
Lemma innerWidth_disconnect o v : innerWidth (disconnect o v) = innerWidth v.
Proof. unfold disconnect; destruct (observers v !! o); reflexivity. Qed.
Lemma innerHeight_disconnect o v : innerHeight (disconnect o v) = innerHeight v.
Proof. unfold disconnect; destruct (observers v !! o); reflexivity. Qed.
Lemma scrollY_disconnect o v : scrollY (disconnect o v) = scrollY v.
Proof. unfold disconnect; destruct (observers v !! o); reflexivity. Qed.
Lemma next_obj_console_error m v : next_obj (console_error m v) = next_obj v.
Proof. reflexivity. Qed.
Lemma has_IntersectionObserver_console_error m v : has_IntersectionObserver (console_error m v) = has_IntersectionObserver v.
Proof. reflexivity. Qed.
Lemma innerWidth_console_error m v : innerWidth (console_error m v) = innerWidth v.
Proof. reflexivity. Qed.
Lemma innerHeight_console_error m v : innerHeight (console_error m v) = innerHeight v.
Proof. reflexivity. Qed.
Lemma scrollY_console_error m v : scrollY (console_error m v) = scrollY v.
Proof. reflexivity. Qed.

#[export] Hint Rewrite next_obj_addEventListener has_IntersectionObserver_addEventListener innerWidth_addEventListener innerHeight_addEventListener scrollY_addEventListener next_obj_removeEventListener has_IntersectionObserver_removeEventListener innerWidth_removeEventListener innerHeight_removeEventListener scrollY_removeEventListener next_obj_cancelAnimationFrame has_IntersectionObserver_cancelAnimationFrame innerWidth_cancelAnimationFrame innerHeight_cancelAnimationFrame scrollY_cancelAnimationFrame next_obj_set_clipPath has_IntersectionObserver_set_clipPath innerWidth_set_clipPath innerHeight_set_clipPath scrollY_set_clipPath next_obj_observe has_IntersectionObserver_observe innerWidth_observe innerHeight_observe scrollY_observe next_obj_disconnect has_IntersectionObserver_disconnect innerWidth_disconnect innerHeight_disconnect scrollY_disconnect next_obj_console_error has_IntersectionObserver_console_error innerWidth_console_error innerHeight_console_error scrollY_console_error : host_rw.

Lemma has_IntersectionObserver_bump_obj  v : has_IntersectionObserver (bump_obj  v) = has_IntersectionObserver v.
Proof. reflexivity. Qed.
Lemma innerWidth_bump_obj  v : innerWidth (bump_obj  v) = innerWidth v.
Proof. reflexivity. Qed.
Lemma innerHeight_bump_obj  v : innerHeight (bump_obj  v) = innerHeight v.
Proof. reflexivity. Qed.
Lemma scrollY_bump_obj  v : scrollY (bump_obj  v) = scrollY v.
Proof. reflexivity. Qed.
Lemma has_IntersectionObserver_set_observers os v : has_IntersectionObserver (set_observers os v) = has_IntersectionObserver v.
Proof. reflexivity. Qed.
Lemma innerWidth_set_observers os v : innerWidth (set_observers os v) = innerWidth v.
Proof. reflexivity. Qed.
Lemma innerHeight_set_observers os v : innerHeight (set_observers os v) = innerHeight v.
Proof. reflexivity. Qed.
Lemma scrollY_set_observers os v : scrollY (set_observers os v) = scrollY v.
Proof. reflexivity. Qed.
Lemma next_obj_set_observers os v : next_obj (set_observers os v) = next_obj v.
Proof. reflexivity. Qed.
Lemma next_obj_bump_obj v : next_obj (bump_obj v) = S (next_obj v).
Proof. reflexivity. Qed.

#[export] Hint Rewrite has_IntersectionObserver_bump_obj innerWidth_bump_obj innerHeight_bump_obj scrollY_bump_obj has_IntersectionObserver_set_observers innerWidth_set_observers innerHeight_set_observers scrollY_set_observers next_obj_set_observers next_obj_bump_obj : host_rw.

Lemma console_errors_addEventListener t f v : console_errors (addEventListener t f v) = console_errors v.
Proof. unfold addEventListener; case_decide; reflexivity. Qed.
Lemma console_errors_removeEventListener t f v : console_errors (removeEventListener t f v) = console_errors v.
Proof. reflexivity. Qed.
Lemma console_errors_cancelAnimationFrame h v : console_errors (cancelAnimationFrame h v) = console_errors v.
Proof. reflexivity. Qed.
Lemma console_errors_set_clipPath e x v : console_errors (set_clipPath e x v) = console_errors v.
Proof. reflexivity. Qed.
Lemma console_errors_observe o e v : console_errors (observe o e v) = console_errors v.
Proof. unfold observe; destruct (observers v !! o); [case_decide|]; reflexivity. Qed.
Lemma console_errors_disconnect o v : console_errors (disconnect o v) = console_errors v.
Proof. unfold disconnect; destruct (observers v !! o); reflexivity. Qed.
Lemma console_errors_bump_obj  v : console_errors (bump_obj  v) = console_errors v.
Proof. reflexivity. Qed.
Lemma console_errors_set_observers os v : console_errors (set_observers os v) = console_errors v.
Proof. reflexivity. Qed.

#[export] Hint Rewrite console_errors_addEventListener console_errors_removeEventListener console_errors_cancelAnimationFrame console_errors_set_clipPath console_errors_observe console_errors_disconnect console_errors_bump_obj console_errors_set_observers : host_rw.

(** The frame fields: only the animation-frame operations change them. *)
Lemma rafcb_addEventListener t f v : raf_callbacks (addEventListener t f v) = raf_callbacks v.
Proof. unfold addEventListener; case_decide; reflexivity. Qed.
Lemma rafnext_addEventListener t f v : raf_next (addEventListener t f v) = raf_next v.
Proof. unfold addEventListener; case_decide; reflexivity. Qed.
Lemma rafcb_removeEventListener t f v : raf_callbacks (removeEventListener t f v) = raf_callbacks v.
Proof. reflexivity. Qed.
Lemma rafnext_removeEventListener t f v : raf_next (removeEventListener t f v) = raf_next v.
Proof. reflexivity. Qed.
Lemma rafcb_set_clipPath e x v : raf_callbacks (set_clipPath e x v) = raf_callbacks v.
Proof. reflexivity. Qed.
Lemma rafnext_set_clipPath e x v : raf_next (set_clipPath e x v) = raf_next v.
Proof. reflexivity. Qed.
Lemma rafcb_observe o e v : raf_callbacks (observe o e v) = raf_callbacks v.
Proof. unfold observe; destruct (observers v !! o); [case_decide|]; reflexivity. Qed.
Lemma rafnext_observe o e v : raf_next (observe o e v) = raf_next v.
Proof. unfold observe; destruct (observers v !! o); [case_decide|]; reflexivity. Qed.
Lemma rafcb_disconnect o v : raf_callbacks (disconnect o v) = raf_callbacks v.
Proof. unfold disconnect; destruct (observers v !! o); reflexivity. Qed.
Lemma rafnext_disconnect o v : raf_next (disconnect o v) = raf_next v.
Proof. unfold disconnect; destruct (observers v !! o); reflexivity. Qed.
Lemma rafcb_bump_obj  v : raf_callbacks (bump_obj  v) = raf_callbacks v.
Proof. reflexivity. Qed.
Lemma rafnext_bump_obj  v : raf_next (bump_obj  v) = raf_next v.
Proof. reflexivity. Qed.
Lemma rafcb_set_observers os v : raf_callbacks (set_observers os v) = raf_callbacks v.
Proof. reflexivity. Qed.
Lemma rafnext_set_observers os v : raf_next (set_observers os v) = raf_next v.
Proof. reflexivity. Qed.
Lemma rafcb_console_error m v : raf_callbacks (console_error m v) = raf_callbacks v.
Proof. reflexivity. Qed.
Lemma rafnext_console_error m v : raf_next (console_error m v) = raf_next v.
Proof. reflexivity. Qed.
Lemma rafcb_set_scroll y v : raf_callbacks (set_scroll y v) = raf_callbacks v.
Proof. reflexivity. Qed.
Lemma rafnext_set_scroll y v : raf_next (set_scroll y v) = raf_next v.
Proof. reflexivity. Qed.
Lemma rafcb_set_size a b v : raf_callbacks (set_size a b v) = raf_callbacks v.
Proof. reflexivity. Qed.
Lemma rafnext_set_size a b v : raf_next (set_size a b v) = raf_next v.
Proof. reflexivity. Qed.
Lemma rafnext_cancelAnimationFrame h v : raf_next (cancelAnimationFrame h v) = raf_next v.
Proof. reflexivity. Qed.

#[export] Hint Rewrite rafcb_addEventListener rafnext_addEventListener rafcb_removeEventListener rafnext_removeEventListener rafcb_set_clipPath rafnext_set_clipPath rafcb_observe rafnext_observe rafcb_disconnect rafnext_disconnect rafcb_bump_obj rafnext_bump_obj rafcb_set_observers rafnext_set_observers rafcb_console_error rafnext_console_error rafcb_set_scroll rafnext_set_scroll rafcb_set_size rafnext_set_size rafnext_cancelAnimationFrame : host_rw.

(** The clip fields: only [set_clipPath] changes them. *)
Lemma clipPath_addEventListener t f v : clipPath (addEventListener t f v) = clipPath v.
Proof. unfold addEventListener; case_decide; reflexivity. Qed.
Lemma clipPath_removeEventListener t f v : clipPath (removeEventListener t f v) = clipPath v.
Proof. reflexivity. Qed.
Lemma clipPath_cancelAnimationFrame h v : clipPath (cancelAnimationFrame h v) = clipPath v.
Proof. reflexivity. Qed.
Lemma clipPath_observe o e v : clipPath (observe o e v) = clipPath v.
Proof. unfold observe; destruct (observers v !! o); [case_decide|]; reflexivity. Qed.
Lemma clipPath_disconnect o v : clipPath (disconnect o v) = clipPath v.
Proof. unfold disconnect; destruct (observers v !! o); reflexivity. Qed.
Lemma clipPath_bump_obj v : clipPath (bump_obj v) = clipPath v.
Proof. reflexivity. Qed.
Lemma clipPath_set_observers os v : clipPath (set_observers os v) = clipPath v.
Proof. reflexivity. Qed.
Lemma clipPath_set_clipPath e x v : clipPath (set_clipPath e x v) = <[e := x]> (clipPath v).
Proof. reflexivity. Qed.

#[export] Hint Rewrite clipPath_addEventListener clipPath_removeEventListener clipPath_cancelAnimationFrame
  clipPath_observe clipPath_disconnect clipPath_bump_obj clipPath_set_observers clipPath_set_clipPath : host_rw.

(** Writing the clip an element already has changes nothing. *)
Lemma set_clipPath_current e x v : clipPath v !! e = Some x -> set_clipPath e x v = v.
Proof. intros He. destruct v. unfold set_clipPath. cbn in *. rewrite insert_id by exact He. reflexivity. Qed.

Lemma listeners_addEventListener t f v :
  mk_listener t f ∉ listeners v ->
  listeners (addEventListener t f v) = listeners v ++ [mk_listener t f].
Proof. intros Hn. unfold addEventListener. rewrite decide_False by exact Hn. reflexivity. Qed.

(** ** An example page

    One section, element 1 with class [product-view-main] and
    [data-section-id="main"], whose layer [.product-view__image-1] is
    element 2; it sits 1000px below the top of the page and is 400px high
    at every width.  A second marked element, 3, has an empty
    [data-section-id].  The identifier ["bad id"] makes the selector of
    line 7 invalid, as an identifier with a space does. *)
Definition example_query (id : string) : outcome (option elem) :=
  if String.eqb id "main" then Ok (Some 1%positive)
  else if String.eqb id "bad id" then Throw SyntaxError
  else Ok None.

Definition example_page : Document := {|
  querySelector_section := example_query;
  querySelector_image1 := fun e => if Pos.eqb e 1 then Some 2%positive else None;
  querySelectorAll_sections := [1%positive; 3%positive];
  getAttribute_section_id := fun e =>
    if Pos.eqb e 1 then Some "main" else if Pos.eqb e 3 then Some "" else None;
  layout := fun _ _ => (1000, 400);
  layout_height_nonneg := fun _ _ => proj1 (Qle_bool_iff 0 400) eq_refl
|}.

(** A window of the given size, at the top of the page, with
    [IntersectionObserver], and nothing registered. *)
Definition fresh_window (width : Z) (height : Q) : window :=
  mk_window width height 0 true [] [] 1%positive ∅ ∅ 0%nat [].

End Host.
