(* ===== verification/Controller.v ===== *)
(** * [ProductViewParallax]: the controller and the event loop

    The class of src/assets/product-view.js (lines 4-132): its fields as
    the record [ProductViewParallax], the heap of controllers beside the
    window as [world], and each method ([constructor], [init], [onScroll],
    [onResize], [update], [cleanup], the observer callback) as a
    computation of the state-and-exception monad of the prelude, with the
    statements in the order of the source.  The browser delivers
    [event]s: a scroll or a resize dispatches to the window's listeners in
    order, a rendered frame runs the pending animation-frame callbacks, an
    observer delivers its entries.  An exception escaping a listener or a
    callback is reported on the console and the loop goes on. *)
From S2P Require Import Prelude Progress Host.
From stdpp Require Import base list gmap strings.
From Stdlib Require Import QArith Lqa ZArith String List Bool.
Import ListNotations.

Module Controller.
Import Progress Host.

(** The fields of a [ProductViewParallax] object (lines 5-11, 28). *)
Record ProductViewParallax := mkPVP {
  sectionId : string;
  section : option elem;
  image1 : option elem;
  isMobile : bool;
  rafId : option positive;
  isActive : bool;
  observer : option obj }.

Definition set_isMobile (b : bool) (c : ProductViewParallax) : ProductViewParallax :=
  mkPVP (sectionId c) (section c) (image1 c) b (rafId c) (isActive c) (observer c).
Definition set_rafId (r : option positive) (c : ProductViewParallax) : ProductViewParallax :=
  mkPVP (sectionId c) (section c) (image1 c) (isMobile c) r (isActive c) (observer c).
Definition set_isActive (b : bool) (c : ProductViewParallax) : ProductViewParallax :=
  mkPVP (sectionId c) (section c) (image1 c) (isMobile c) (rafId c) b (observer c).
Definition set_observer (o : option obj) (c : ProductViewParallax) : ProductViewParallax :=
  mkPVP (sectionId c) (section c) (image1 c) (isMobile c) (rafId c) (isActive c) o.

(** The window and the controllers reachable from it. *)
Record world := mkWorld { win : window; heap : gmap obj ProductViewParallax }.

Abbreviation M := (js world).

(** ** Access to [this] and to the window *)

(** Reading [this]: a missing object is a [TypeError]. *)
Definition this_get (this : obj) : M ProductViewParallax :=
  fun w => match heap w !! this with
           | Some c => (Ok c, w)
           | None => (Throw TypeError, w)
           end.

Definition this_set (this : obj) (f : ProductViewParallax -> ProductViewParallax) : M unit :=
  fun w => match heap w !! this with
           | Some c => (Ok tt, mkWorld (win w) (<[this := f c]> (heap w)))
           | None => (Throw TypeError, w)
           end.

Definition win_modify (f : window -> window) : M unit :=
  modify (fun w => mkWorld (f (win w)) (heap w)).

Definition win_gets {A} (f : window -> A) : M A := gets (fun w => f (win w)).

(** [fn.bind(this)] for the method [m]: a fresh function object. *)
Definition bind_method (this : obj) (m : method) : M js_fn :=
  fun w => (Ok (bound_fn (next_obj (win w)) this m), mkWorld (bump_obj (win w)) (heap w)).

Definition request_frame (this : obj) : M positive :=
  fun w => let '(h, v) := requestAnimationFrame this (win w) in (Ok h, mkWorld v (heap w)).

Definition new_observer (this : obj) : M obj :=
  fun w => let '(o, v) := new_IntersectionObserver this (win w) in (Ok o, mkWorld v (heap w)).

(** [new]: a fresh object identity. *)
Definition alloc_object : M obj :=
  fun w => (Ok (next_obj (win w)), mkWorld (bump_obj (win w)) (heap w)).

Definition lift_outcome {A} (r : outcome A) : M A :=
  fun w => (r, w).

(** The breakpoint of lines 9 and 61. *)
Definition is_mobile_width (width : Z) : bool := Z.leb width 749.

Section Methods.
Context `{Document}.

(** [update()], lines 74-112. *)
Definition update (this : obj) : M unit :=
  c ← this_get this;
  match image1 c with
  | None => mret ()
  | Some img =>
      if isMobile c then mret () else
      match section c with
      | None => throw TypeError
      | Some s =>
          rect ← win_gets (fun v => getBoundingClientRect v s);
          windowHeight ← win_gets innerHeight;
          let progress := scroll_progress rect windowHeight in
          let clipValue := clip_value progress in
          win_modify (set_clipPath img (clip_inset clipValue))
      end
  end.

(** [cleanup()], lines 114-131.  The listeners are removed by the
    prototype methods [this.onScroll] and [this.onResize]. *)
Definition cleanup (this : obj) : M unit :=
  c ← this_get this;
  (match rafId c with
   | Some h => win_modify (cancelAnimationFrame h) ;; this_set this (set_rafId None)
   | None => mret ()
   end) ;;
  c ← this_get this;
  (match observer c with
   | Some o => win_modify (disconnect o) ;; this_set this (set_observer None)
   | None => mret ()
   end) ;;
  win_modify (removeEventListener ev_scroll_type (proto_fn m_onScroll)) ;;
  win_modify (removeEventListener ev_resize_type (proto_fn m_onResize)) ;;
  c ← this_get this;
  match image1 c with
  | Some img => win_modify (set_clipPath img clip_none)
  | None => mret ()
  end.

(** [init()], lines 18-42: listeners added with fresh bound functions, one
    [update], then the observer when the window has the capability. *)
Definition init (this : obj) : M unit :=
  f ← bind_method this m_onScroll;
  win_modify (addEventListener ev_scroll_type f) ;;
  g ← bind_method this m_onResize;
  win_modify (addEventListener ev_resize_type g) ;;
  update this ;;
  io ← win_gets has_IntersectionObserver;
  if (io : bool) then
    o ← new_observer this;
    this_set this (set_observer (Some o)) ;;
    c ← this_get this;
    match section c with
    | Some s => win_modify (observe o s)
    | None => throw TypeError
    end
  else mret ().

(** [onScroll()], lines 44-57. *)
Definition onScroll (this : obj) : M unit :=
  c ← this_get this;
  if isMobile c || negb (bool_decide (is_Some (image1 c))) then mret () else
  (match rafId c with
   | Some h => win_modify (cancelAnimationFrame h)
   | None => mret ()
   end) ;;
  h ← request_frame this;
  this_set this (set_rafId (Some h)).

(** [onResize()], lines 59-72. *)
Definition onResize (this : obj) : M unit :=
  c ← this_get this;
  let wasMobile := isMobile c in
  width ← win_gets innerWidth;
  this_set this (set_isMobile (is_mobile_width width)) ;;
  if negb (Bool.eqb wasMobile (is_mobile_width width)) then
    (if is_mobile_width width then cleanup this else init this)
  else update this.

(** The observer's callback, lines 28-34: one entry per target. *)
Definition on_intersection (this : obj) (entries : list bool) : M unit :=
  forEach (fun isIntersecting : bool =>
             this_set this (set_isActive isIntersecting) ;;
             if isIntersecting then update this else mret ()) entries.

(** [new ProductViewParallax(sectionId)], lines 5-16.  The query of line 7
    may throw; the object allocated for [this] is then unreachable. *)
Definition construct (sid : string) : M obj :=
  this ← alloc_object;
  sec ← lift_outcome (querySelector_section sid);
  let img := match sec with Some s => querySelector_image1 s | None => None end in
  width ← win_gets innerWidth;
  let c := mkPVP sid sec img (is_mobile_width width) None false None in
  modify (fun w => mkWorld (win w) (<[this := c]> (heap w))) ;;
  (if bool_decide (is_Some sec) && bool_decide (is_Some img)
      && negb (is_mobile_width width) then init this else mret ()) ;;
  mret this.

(** ** The event loop *)

(** The function a listener holds, called with its [this].  A prototype
    method is never registered by the code. *)
Definition call_listener (f : js_fn) : M unit :=
  match f with
  | bound_fn _ this m_onScroll => onScroll this
  | bound_fn _ this m_onResize => onResize this
  | proto_fn _ => mret ()
  end.

(** An exception escaping a callback is reported on the console and the
    event loop goes on. *)
Definition report (m : M unit) : M unit :=
  try_catch m (fun _ => win_modify (console_error "Uncaught exception")).

(** Dispatch of an event of type [t] at the window: the listeners of that
    type when the dispatch starts, in order, each one skipped if it has
    been removed meanwhile. *)
Definition dispatch (t : event_type) : M unit :=
  ls ← win_gets (fun v => List.filter (fun l => bool_decide (l_type l = t)) (listeners v));
  forEach (fun l : listener =>
    present ← win_gets (fun v => bool_decide (l ∈ listeners v));
    if (present : bool) then report (call_listener (l_callback l)) else mret ()) ls.

(** A rendered frame: the callbacks pending when the frame starts, each
    removed and run unless cancelled meanwhile; a callback runs the
    arrow function of line 54, [() => this.update()]. *)
Definition run_frame : M unit :=
  cbs ← win_gets raf_callbacks;
  forEach (fun p : positive * obj =>
    present ← win_gets (fun v => existsb (fun q => Pos.eqb (fst q) (fst p)) (raf_callbacks v));
    if (present : bool)
    then win_modify (cancelAnimationFrame (fst p)) ;; report (update (snd p))
    else mret ()) cbs.

(** An observer with targets delivers one entry per target. *)
Definition deliver (o : obj) : M unit :=
  obs ← win_gets (fun v => observers v !! o);
  match obs with
  | Some ob =>
      if bool_decide (ob_targets ob = []) then mret () else
      entries ← win_gets (fun v => map (isIntersecting v (ob_rootMargin ob)) (ob_targets ob));
      report (on_intersection (ob_callback ob) entries)
  | None => mret ()
  end.

(** What the browser does to the page: scroll to [y], resize the
    viewport, render a frame, or run an observer's notification. *)
Inductive event :=
  | Scroll (y : Q)
  | Resize (width : Z) (height : Q)
  | Frame
  | Intersect (o : obj).

Definition step (e : event) : M unit :=
  match e with
  | Scroll y => win_modify (set_scroll y) ;; dispatch ev_scroll_type
  | Resize wd ht => win_modify (set_size wd ht) ;; dispatch ev_resize_type
  | Frame => run_frame
  | Intersect o => deliver o
  end.

Definition run_events (es : list event) : M unit := forEach step es.

End Methods.

(** ** Example worlds *)

(** The example page after [new ProductViewParallax("main")] in a
    desktop window 800px wide and 800px high. *)
Definition example_world : world :=
  exec (@construct example_page "main") (mkWorld (fresh_window 800 800) ∅).

(** The controller the example world holds under identity 0, and the
    same construction in a mobile window 700px wide. *)
Definition example_ctl : ProductViewParallax :=
  mkPVP "main" (Some 1%positive) (Some 2%positive) false None false (Some 3%nat).

Definition example_world_mobile : world :=
  exec (@construct example_page "main") (mkWorld (fresh_window 700 800) ∅).

Definition example_ctl_mobile : ProductViewParallax :=
  mkPVP "main" (Some 1%positive) (Some 2%positive) true None false None.

(** The example world once the viewport went down to 700px and is now
    900px wide, before the resize listeners run. *)
Definition example_world_remount : world :=
  let w := exec (@run_events example_page [Resize 700 800]) example_world in
  mkWorld (set_size 900 800 (win w)) (heap w).

(** ** Unfolding the monad *)

(** [js_unfold] exposes the state passing of a method body. *)
Ltac js_unfold :=
  unfold mbind, mret, js_bind, js_ret, bind, ret, this_get, this_set,
    win_modify, win_gets, modify, gets, throw, bind_method, request_frame,
    new_observer, alloc_object, lift_outcome in *; cbn beta iota in *.

(** [js_red] reduces the state passing without unfolding map lookups. *)
Ltac js_red :=
  cbn [win heap sectionId section image1 isMobile rafId isActive observer
       set_isMobile set_rafId set_isActive set_observer fst snd negb andb orb Bool.eqb].

(** [js_run Hc] runs a method body forward, rewriting the lookups of the
    heap with [Hc] and with the inserts the body made. *)
Ltac js_run Hc :=
  js_unfold;
  repeat (first [rewrite Hc | rewrite lookup_insert_eq | progress js_red]).

Lemma removeEventListener_idem (t : event_type) (f : js_fn) (v : window) :
  removeEventListener t f (removeEventListener t f v) = removeEventListener t f v.
Proof.
  destruct v. unfold removeEventListener, set_listeners. simpl. rewrite filter_idem. reflexivity.
Qed.

Lemma filter_filter_comm {A} (f g : A -> bool) (l : list A) :
  List.filter f (List.filter g l) = List.filter g (List.filter f l).
Proof.
  induction l as [|x l IH]; simpl; [reflexivity|].
  destruct (g x) eqn:G, (f x) eqn:F; simpl; rewrite ?G, ?F, IH; reflexivity.
Qed.

Lemma removeEventListener_comm (t t' : event_type) (f f' : js_fn) (v : window) :
  removeEventListener t f (removeEventListener t' f' v) =
  removeEventListener t' f' (removeEventListener t f v).
Proof.
  destruct v. unfold removeEventListener, set_listeners. simpl.
  rewrite filter_filter_comm. reflexivity.
Qed.

(** The listener list after [removeEventListener] of a callback that is
    not registered is the list before. *)
Lemma removeEventListener_absent (t : event_type) (f : js_fn) (v : window) :
  mk_listener t f ∉ listeners v -> removeEventListener t f v = v.
Proof.
  destruct v as [? ? ? ? ls ? ? ? ? ? ?]. unfold removeEventListener, set_listeners. simpl.
  intros Hn. f_equal. induction ls as [|l ls IH]; simpl; [reflexivity|].
  rewrite bool_decide_false by (intros ->; apply Hn; left).
  simpl. rewrite IH; [reflexivity|]. intros Hin. apply Hn. right. exact Hin.
Qed.

(** ** What [cleanup] does *)

(** The window after [cleanup] of a controller [c]. *)
Definition cleanup_win (c : ProductViewParallax) (v : window) : window :=
  let v1 := match rafId c with Some h => cancelAnimationFrame h v | None => v end in
  let v2 := match observer c with Some o => disconnect o v1 | None => v1 end in
  let v3 := removeEventListener ev_resize_type (proto_fn m_onResize)
              (removeEventListener ev_scroll_type (proto_fn m_onScroll) v2) in
  match image1 c with Some img => set_clipPath img clip_none v3 | None => v3 end.

Lemma set_rafId_observer_id (c : ProductViewParallax) :
  rafId c = None -> observer c = None -> set_observer None (set_rafId None c) = c.
Proof. destruct c; simpl; intros -> ->; reflexivity. Qed.

Lemma cleanup_run (this : obj) (c : ProductViewParallax) (w : world) :
  heap w !! this = Some c ->
  cleanup this w =
  (Ok (), mkWorld (cleanup_win c (win w))
                  (<[this := set_observer None (set_rafId None c)]> (heap w))).
Proof.
  intros Hc. unfold cleanup, cleanup_win.
  destruct c as [sid sec [img|] mob [h|] act [o|]]; js_run Hc;
    rewrite ?insert_insert_eq; try reflexivity;
    rewrite insert_id by exact Hc; reflexivity.
Qed.

Lemma cleanup_win_idem (c : ProductViewParallax) (v : window) :
  cleanup_win (set_observer None (set_rafId None c)) (cleanup_win c v) = cleanup_win c v.
Proof.
  unfold cleanup_win. destruct c as [sid sec [img|] mob raf act ob]; simpl;
    rewrite ?removeEventListener_set_clipPath, ?set_clipPath_twice;
    rewrite (removeEventListener_comm ev_scroll_type ev_resize_type),
      !removeEventListener_idem; reflexivity.
Qed.

(** ** Properties of [cleanup] *)

(** C24: [cleanup] is idempotent: two calls in a row (as a second switch
    to mobile would make) leave the same window and the same controllers
    as one call, with no exception, whatever the state. *)
Theorem cleanup_idempotent (this : obj) (w : world) :
  (cleanup this ;; cleanup this) w = cleanup this w.
Proof.
  destruct (heap w !! this) as [c|] eqn:Hc.
  - js_unfold. rewrite (cleanup_run this c w Hc).
    rewrite (cleanup_run this _ _ (lookup_insert_eq _ _ _)). simpl.
    rewrite cleanup_win_idem, insert_insert_eq. destruct c; reflexivity.
  - unfold cleanup. js_unfold. rewrite Hc. reflexivity.
Qed.

(** No prototype method is registered, so [cleanup_win] keeps the
    listener list. *)
Lemma cleanup_win_listeners (c : ProductViewParallax) (v : window) :
  (forall l m, l ∈ listeners v -> l_callback l <> proto_fn m) ->
  listeners (cleanup_win c v) = listeners v.
Proof.
  intros Hnp. unfold cleanup_win. rewrite !removeEventListener_absent.
  - destruct (image1 c), (observer c), (rafId c); autorewrite with host_rw; reflexivity.
  - intros Hin. destruct (observer c), (rafId c); autorewrite with host_rw in Hin;
      exact (Hnp _ _ Hin eq_refl).
  - intros Hin. unfold removeEventListener in Hin. simpl in Hin.
    apply list_elem_of_In, filter_In in Hin as [Hin _]. apply list_elem_of_In in Hin.
    destruct (observer c), (rafId c); autorewrite with host_rw in Hin;
      exact (Hnp _ _ Hin eq_refl).
Qed.

(** C15: [cleanup] never removes a listener.  It removes the prototype
    methods [this.onScroll] and [this.onResize] (lines 125-126), while
    [init] registered the fresh functions [this.onScroll.bind(this)] and
    [this.onResize.bind(this)] (lines 20-21); as no prototype method is
    ever registered, the listener list after [cleanup] is the list
    before. *)
Theorem cleanup_keeps_listeners (this : obj) (w : world) :
  (forall l m, l ∈ listeners (win w) -> l_callback l <> proto_fn m) ->
  listeners (win (exec (cleanup this) w)) = listeners (win w).
Proof.
  intros Hnp. unfold exec. destruct (heap w !! this) as [c|] eqn:Hc.
  - rewrite (cleanup_run this c w Hc). exact (cleanup_win_listeners c (win w) Hnp).
  - unfold cleanup. js_unfold. rewrite Hc. reflexivity.
Qed.

(** ** What [update] and [onScroll] do *)

(** The animation-frame callbacks pending for [this]. *)
Definition pending_of (this : obj) (v : window) : list (positive * obj) :=
  List.filter (fun p => Nat.eqb (snd p) this) (raf_callbacks v).

(** The clip inset [update] computes for section [s] in window [v]. *)
Definition progress_clip (v : window) (s : elem) `{Document} : clip :=
  clip_inset (clip_value (scroll_progress (getBoundingClientRect v s) (innerHeight v))).

(** The clip [update] computes depends on the viewport and the scroll
    position only. *)
Lemma progress_clip_ext `{Document} (v v' : window) (s : elem) :
  innerWidth v' = innerWidth v -> innerHeight v' = innerHeight v -> scrollY v' = scrollY v ->
  progress_clip v' s = progress_clip v s.
Proof. intros Ew Eh Ey. unfold progress_clip, getBoundingClientRect. rewrite Ew, Eh, Ey. reflexivity. Qed.

Section Runs.
Context `{Document}.

Lemma update_run (this : obj) (c : ProductViewParallax) (img s : elem) (w : world) :
  heap w !! this = Some c -> image1 c = Some img -> section c = Some s ->
  isMobile c = false ->
  update this w = (Ok (), mkWorld (set_clipPath img (progress_clip (win w) s) (win w)) (heap w)).
Proof.
  intros Hc Hi Hs Hm. unfold update. js_run Hc. rewrite Hi, Hm, Hs. reflexivity.
Qed.

Lemma update_noop (this : obj) (c : ProductViewParallax) (w : world) :
  heap w !! this = Some c -> (image1 c = None \/ isMobile c = true) ->
  update this w = (Ok (), w).
Proof.
  intros Hc [Hi|Hm]; unfold update; js_run Hc; [rewrite Hi|destruct (image1 c); [rewrite Hm|]];
    reflexivity.
Qed.

(** The window after [onScroll] schedules a frame for [this]. *)
Definition onScroll_win (this : obj) (c : ProductViewParallax) (v : window) : window :=
  snd (requestAnimationFrame this
         (match rafId c with Some h => cancelAnimationFrame h v | None => v end)).

Lemma onScroll_run (this : obj) (c : ProductViewParallax) (w : world) :
  heap w !! this = Some c -> isMobile c = false -> is_Some (image1 c) ->
  onScroll this w =
  (Ok (), mkWorld (onScroll_win this c (win w))
                  (<[this := set_rafId (Some (raf_next (win w))) c]> (heap w))).
Proof.
  intros Hc Hm Hi. unfold onScroll, onScroll_win, request_frame.
  js_run Hc. rewrite Hm, bool_decide_true by exact Hi. js_red.
  destruct (rafId c); unfold requestAnimationFrame; js_red; rewrite Hc; reflexivity.
Qed.

Lemma onScroll_noop (this : obj) (c : ProductViewParallax) (w : world) :
  heap w !! this = Some c -> (isMobile c = true \/ image1 c = None) ->
  onScroll this w = (Ok (), w).
Proof.
  intros Hc Hmi. unfold onScroll. js_run Hc.
  destruct Hmi as [->| ->]; [reflexivity|]. rewrite orb_true_r. reflexivity.
Qed.

(** The window after [init] of [this], whose section is [s] and layer
    [img]: two fresh bound listeners, the clip of [update], then a fresh
    observer of [s] when the window has the capability. *)
Definition init_win (this : obj) (s img : elem) (v : window) : window :=
  let n := next_obj v in
  let v1 := addEventListener ev_scroll_type (bound_fn n this m_onScroll) (bump_obj v) in
  let v2 := addEventListener ev_resize_type (bound_fn (S n) this m_onResize) (bump_obj v1) in
  let v3 := set_clipPath img (progress_clip v2 s) v2 in
  if has_IntersectionObserver v
  then observe (S (S n)) s (snd (new_IntersectionObserver this v3))
  else v3.

Lemma init_run (this : obj) (c : ProductViewParallax) (s img : elem) (w : world) :
  heap w !! this = Some c -> section c = Some s -> image1 c = Some img ->
  isMobile c = false ->
  init this w = (Ok (), mkWorld (init_win this s img (win w))
                   (if has_IntersectionObserver (win w)
                    then <[this := set_observer (Some (S (S (next_obj (win w))))) c]> (heap w)
                    else heap w)).
Proof.
  intros Hc Hs Hi Hm. unfold init, init_win. js_run Hc.
  rewrite (update_run this c img s) by (simpl; assumption). js_red.
  autorewrite with host_rw. simpl. autorewrite with host_rw.
  destruct (has_IntersectionObserver (win w)); js_red; [|reflexivity].
  unfold new_IntersectionObserver. js_red. autorewrite with host_rw. simpl.
  js_run Hc. rewrite Hs. reflexivity.
Qed.
(** [onResize] when the viewport grows past the breakpoint: [init]. *)
Lemma onResize_to_desktop (this : obj) (c : ProductViewParallax) (s img : elem) (w : world) :
  heap w !! this = Some c -> isMobile c = true -> section c = Some s ->
  image1 c = Some img -> is_mobile_width (innerWidth (win w)) = false ->
  onResize this w =
  init this (mkWorld (win w) (<[this := set_isMobile false c]> (heap w))).
Proof.
  intros Hc Hm Hs Hi Hw. unfold onResize. js_run Hc. rewrite Hm, Hw. reflexivity.
Qed.

(** [onResize] when the viewport shrinks to the breakpoint: [cleanup]. *)
Lemma onResize_to_mobile (this : obj) (c : ProductViewParallax) (w : world) :
  heap w !! this = Some c -> isMobile c = false ->
  is_mobile_width (innerWidth (win w)) = true ->
  onResize this w =
  cleanup this (mkWorld (win w) (<[this := set_isMobile true c]> (heap w))).
Proof.
  intros Hc Hm Hw. unfold onResize. js_run Hc. rewrite Hm, Hw. reflexivity.
Qed.

(** [onResize] when the mode does not change: [update]. *)
Lemma onResize_same (this : obj) (c : ProductViewParallax) (w : world) :
  heap w !! this = Some c -> isMobile c = is_mobile_width (innerWidth (win w)) ->
  onResize this w =
  update this (mkWorld (win w) (<[this := set_isMobile (isMobile c) c]> (heap w))).
Proof.
  intros Hc Hm. unfold onResize. js_run Hc. rewrite <- Hm.
  destruct (isMobile c); reflexivity.
Qed.
(** The record the constructor builds (lines 6-11). *)
Definition fresh_ctl (sid : string) (sec : option elem) (width : Z) : ProductViewParallax :=
  mkPVP sid sec (match sec with Some s => querySelector_image1 s | None => None end)
    (is_mobile_width width) None false None.

(** The test of line 13. *)
Definition ctl_activates (c : ProductViewParallax) : bool :=
  bool_decide (is_Some (section c)) && bool_decide (is_Some (image1 c)) && negb (isMobile c).

Lemma construct_throw (sid : string) (e : exn) (w : world) :
  querySelector_section sid = Throw e ->
  construct sid w = (Throw e, mkWorld (bump_obj (win w)) (heap w)).
Proof. intros Hq. unfold construct. js_unfold. rewrite Hq. reflexivity. Qed.

Lemma construct_ok (sid : string) (sec : option elem) (w : world) :
  querySelector_section sid = Ok sec ->
  construct sid w =
  (let n := next_obj (win w) in
   let c := fresh_ctl sid sec (innerWidth (win w)) in
   let w1 := mkWorld (bump_obj (win w)) (<[n := c]> (heap w)) in
   match (if ctl_activates c then init n w1 else (Ok (), w1)) with
   | (Ok _, w2) => (Ok n, w2)
   | (Throw e, w2) => (Throw e, w2)
   end).
Proof.
  intros Hq. unfold construct, ctl_activates, fresh_ctl. js_unfold. rewrite Hq. js_red.
  destruct sec as [s|]; simpl; [destruct (querySelector_image1 s)|]; simpl;
    [destruct (is_mobile_width (innerWidth (win w)))|..]; simpl;
    try reflexivity; destruct (init _ _) as [[]]; reflexivity.
Qed.
Lemma init_win_next_obj (this : obj) (s img : elem) (v : window) :
  (next_obj v <= next_obj (init_win this s img v))%nat.
Proof.
  unfold init_win. destruct (has_IntersectionObserver v);
    unfold new_IntersectionObserver; simpl; autorewrite with host_rw; simpl;
    autorewrite with host_rw; lia.
Qed.

Lemma init_win_console (this : obj) (s img : elem) (v : window) :
  console_errors (init_win this s img v) = console_errors v.
Proof.
  unfold init_win. destruct (has_IntersectionObserver v);
    unfold new_IntersectionObserver; simpl; autorewrite with host_rw; reflexivity.
Qed.

Lemma ctl_activates_true (c : ProductViewParallax) :
  ctl_activates c = true ->
  exists s img, section c = Some s /\ image1 c = Some img /\ isMobile c = false.
Proof.
  unfold ctl_activates. intros Ha. apply andb_true_iff in Ha as [Ha Hm].
  apply andb_true_iff in Ha as [Hs Hi]. apply bool_decide_eq_true in Hs as [s Hs].
  apply bool_decide_eq_true in Hi as [img Hi]. exists s, img.
  split; [exact Hs|split; [exact Hi|]]. destruct (isMobile c); [discriminate|reflexivity].
Qed.

(** Every controller of the heap has an identity below the allocator. *)
Definition keys_below (w : world) : Prop :=
  forall k, is_Some (heap w !! k) -> (k < next_obj (win w))%nat.

Lemma construct_ok_effect (sid : string) (sec : option elem) (w : world) :
  querySelector_section sid = Ok sec -> keys_below w ->
  exists w', construct sid w = (Ok (next_obj (win w)), w') /\ keys_below w' /\
    size (heap w') = S (size (heap w)) /\
    console_errors (win w') = console_errors (win w) /\
    option_map section (heap w' !! next_obj (win w)) = Some sec.
Proof.
  intros Hq Hk. rewrite (construct_ok sid sec w Hq). cbv zeta.
  set (n := next_obj (win w)). set (c := fresh_ctl sid sec (innerWidth (win w))).
  assert (Hn : heap w !! n = None).
  { apply eq_None_not_Some. intros Hs. specialize (Hk n Hs). lia. }
  assert (Hsz : size (<[n:=c]> (heap w)) = S (size (heap w)))
    by (apply map_size_insert_None; exact Hn).
  destruct (ctl_activates c) eqn:Ha.
  - destruct (ctl_activates_true c Ha) as (s & img & Hs & Hi & Hm).
    rewrite (init_run n c s img) by first [apply lookup_insert_eq | assumption].
    eexists. split; [reflexivity|]. simpl.
    pose proof (init_win_next_obj n s img (bump_obj (win w))) as Hno. simpl in Hno.
    destruct (has_IntersectionObserver (win w)); rewrite ?insert_insert_eq;
      (split; [intros k Hk'; cbn [heap win] in Hk' |- *; rewrite ?next_obj_bump_obj; rewrite lookup_insert_is_Some in Hk';
               destruct Hk' as [<-|[_ Hk']]; [lia|specialize (Hk k Hk'); lia]|]);
      (split; [rewrite map_size_insert_None by exact Hn; reflexivity|]);
      rewrite init_win_console; autorewrite with host_rw;
      (split; [reflexivity|rewrite lookup_insert_eq; reflexivity]).
  - eexists. split; [reflexivity|]. simpl.
    split; [intros k Hk'; cbn [heap win] in Hk' |- *; rewrite ?next_obj_bump_obj; rewrite lookup_insert_is_Some in Hk';
            destruct Hk' as [<-|[_ Hk']]; [lia|specialize (Hk k Hk'); lia]|].
    split; [exact Hsz|]. split; [reflexivity|rewrite lookup_insert_eq; reflexivity].
Qed.
End Runs.

Lemma pending_filter_cancel (this : obj) (h : positive) (l : list (positive * obj)) :
  (forall p, p ∈ l -> snd p = this -> fst p = h) ->
  List.filter (fun p => Nat.eqb (snd p) this)
    (List.filter (fun p => negb (Pos.eqb (fst p) h)) l) = [].
Proof.
  induction l as [|[h' c'] l IH]; intros Hl; simpl; [reflexivity|].
  assert (IH' : List.filter (fun p => Nat.eqb (snd p) this)
                  (List.filter (fun p => negb (Pos.eqb (fst p) h)) l) = [])
    by (apply IH; intros p Hp; apply Hl; by apply list_elem_of_further).
  destruct (Nat.eqb_spec c' this) as [->|Hne].
  - assert (h' = h) as -> by (apply (Hl (h', this)); [apply list_elem_of_here|reflexivity]).
    rewrite Pos.eqb_refl. simpl. exact IH'.
  - destruct (Pos.eqb h' h); simpl; [exact IH'|].
    rewrite (proj2 (Nat.eqb_neq c' this) Hne). exact IH'.
Qed.

Lemma pending_filter_none (this : obj) (l : list (positive * obj)) :
  (forall p, p ∈ l -> snd p <> this) ->
  List.filter (fun p => Nat.eqb (snd p) this) l = [].
Proof.
  induction l as [|[h' c'] l IH]; intros Hl; simpl; [reflexivity|].
  rewrite (proj2 (Nat.eqb_neq c' this)) by (apply (Hl (h', c')), list_elem_of_here).
  apply IH. intros p Hp. apply Hl. by apply list_elem_of_further.
Qed.

Lemma onResize_same_mobile `{Document} (this : obj) (c : ProductViewParallax) (w : world) :
  heap w !! this = Some c -> isMobile c = true -> is_mobile_width (innerWidth (win w)) = true ->
  onResize this w = (Ok (), w).
Proof.
  intros Hc Hm Hw. unfold onResize. js_run Hc. rewrite Hm, Hw. js_red.
  rewrite (update_noop this (set_isMobile true c))
    by first [apply lookup_insert_eq | right; reflexivity].
  destruct w as [v hp]. simpl in *. f_equal. f_equal. apply insert_id.
  rewrite Hc. destruct c; simpl in *; subst; reflexivity.
Qed.

(** ** Properties of the methods *)

(** C7: [update] of a desktop controller with a layer writes to the layer
    the inset [(1 - progress) * 100] of the progress of the section's
    current rectangle in the current viewport, and changes nothing else:
    no other element's clip, no listener, no pending frame, no
    controller. *)
Theorem update_writes_progress `{Document} (this : obj) (c : ProductViewParallax)
    (img s : elem) (w : world) :
  heap w !! this = Some c -> image1 c = Some img -> section c = Some s ->
  isMobile c = false ->
  let w' := exec (update this) w in
  clipPath (win w') !! img =
    Some (clip_inset ((1 - scroll_progress (getBoundingClientRect (win w) s)
                                         (innerHeight (win w))) * 100)) /\
  (forall e, e <> img -> clipPath (win w') !! e = clipPath (win w) !! e) /\
  listeners (win w') = listeners (win w) /\
  raf_callbacks (win w') = raf_callbacks (win w) /\ heap w' = heap w.
Proof.
  intros Hc Hi Hs Hm w'. subst w'. unfold exec. rewrite (update_run this c img s w Hc Hi Hs Hm).
  simpl. split; [apply lookup_insert_eq|]. split; [|auto].
  intros e Hne. apply lookup_insert_ne. congruence.
Qed.

(** C25: a controller in mobile mode does nothing: its [update] and its
    [onScroll] leave the whole state unchanged, and so does its
    [onResize] while the viewport stays at most 749px wide. *)
Theorem mobile_controller_inert `{Document} (this : obj) (c : ProductViewParallax) (w : world) :
  heap w !! this = Some c -> isMobile c = true ->
  update this w = (Ok (), w) /\ onScroll this w = (Ok (), w) /\
  (innerWidth (win w) <= 749 -> onResize this w = (Ok (), w))%Z.
Proof.
  intros Hc Hm. split; [|split].
  - apply (update_noop this c); auto.
  - apply (onScroll_noop this c); auto.
  - intros Hw. apply (onResize_same_mobile this c); [exact Hc|exact Hm|].
    apply Z.leb_le. exact Hw.
Qed.

(** C18: [onScroll] coalesces: when every frame pending for [this] is the
    one recorded in [this.rafId] (as [onScroll] itself maintains), then
    after [onScroll] exactly one frame is pending for [this], the one it
    just requested; the previous one is cancelled. *)
Theorem onScroll_coalesces (this : obj) (c : ProductViewParallax) (w : world) :
  heap w !! this = Some c -> isMobile c = false -> is_Some (image1 c) ->
  (forall h, (h, this) ∈ raf_callbacks (win w) -> rafId c = Some h) ->
  pending_of this (win (exec (onScroll this) w)) = [(raf_next (win w), this)].
Proof.
  intros Hc Hm Hi Hp. unfold exec. rewrite (onScroll_run this c w Hc Hm Hi).
  unfold pending_of, onScroll_win, requestAnimationFrame. simpl.
  rewrite List.filter_app. simpl. rewrite Nat.eqb_refl.
  destruct (rafId c) as [h|] eqn:Hr; simpl.
  - rewrite pending_filter_cancel; [reflexivity|].
    intros [h' c'] Hin Hs. simpl in *. subst c'. specialize (Hp h' Hin). congruence.
  - rewrite pending_filter_none; [reflexivity|].
    intros [h' c'] Hin Hs. simpl in *. subst c'. specialize (Hp h' Hin). congruence.
Qed.

(** C26: [onScroll] never reads [this.isActive]: the window after
    [onScroll] is the same whatever the visibility flag the observer set,
    so a section far outside the viewport still schedules a frame and an
    [update] on every scroll (the visibility gate of the specification
    does not gate scrolling). *)
Theorem onScroll_ignores_isActive (this : obj) (c : ProductViewParallax)
    (b : bool) (w : world) :
  heap w !! this = Some c ->
  win (exec (onScroll this) (mkWorld (win w) (<[this := set_isActive b c]> (heap w)))) =
  win (exec (onScroll this) w).
Proof.
  intros Hc. unfold exec.
  assert (Hc' : heap (mkWorld (win w) (<[this := set_isActive b c]> (heap w))) !! this =
                Some (set_isActive b c)) by apply lookup_insert_eq.
  destruct (isMobile c) eqn:Hm; [|destruct (image1 c) as [img|] eqn:Hi].
  - rewrite (onScroll_noop _ _ _ Hc'), (onScroll_noop _ _ _ Hc) by (simpl; auto). reflexivity.
  - rewrite (onScroll_run _ _ _ Hc'), (onScroll_run _ _ _ Hc) by (simpl; rewrite ?Hi; eauto).
    destruct c; reflexivity.
  - rewrite (onScroll_noop _ _ _ Hc'), (onScroll_noop _ _ _ Hc) by (simpl; auto). reflexivity.
Qed.

(** The identities of the bound functions registered on a window are
    below its allocator. *)
Definition listener_ids_fresh (v : window) : Prop :=
  forall l id this m, l ∈ listeners v -> l_callback l = bound_fn id this m -> (id < next_obj v)%nat.

(** [init] appends its two fresh bound listeners. *)
Lemma init_win_listeners `{Document} (this : obj) (s img : elem) (v : window) :
  listener_ids_fresh v ->
  listeners (init_win this s img v) =
  listeners v ++
    [mk_listener ev_scroll_type (bound_fn (next_obj v) this m_onScroll);
     mk_listener ev_resize_type (bound_fn (S (next_obj v)) this m_onResize)].
Proof.
  intros Hf. unfold init_win. set (n := next_obj v).
  assert (H1 : mk_listener ev_scroll_type (bound_fn n this m_onScroll) ∉ listeners v).
  { intros Hin. specialize (Hf _ _ _ _ Hin eq_refl). simpl in Hf. lia. }
  assert (Hl : listeners
    (addEventListener ev_resize_type (bound_fn (S n) this m_onResize)
       (bump_obj (addEventListener ev_scroll_type (bound_fn n this m_onScroll) (bump_obj v)))) =
    listeners v ++ [mk_listener ev_scroll_type (bound_fn n this m_onScroll);
                    mk_listener ev_resize_type (bound_fn (S n) this m_onResize)]).
  { rewrite listeners_addEventListener, listeners_bump,
      (listeners_addEventListener _ _ (bump_obj v) H1), listeners_bump, <- app_assoc; [reflexivity|].
    rewrite listeners_bump, (listeners_addEventListener _ _ (bump_obj v) H1), listeners_bump.
    intros Hin. apply elem_of_app in Hin as [Hin|Hin].
    - specialize (Hf _ _ _ _ Hin eq_refl). simpl in Hf. lia.
    - apply list_elem_of_singleton in Hin. discriminate. }
  destruct (has_IntersectionObserver v); autorewrite with host_rw; exact Hl.
Qed.

(** C19: every switch of a controller from mobile back to desktop
    registers two more listeners, a fresh [this.onScroll.bind(this)] and
    a fresh [this.onResize.bind(this)], after those already registered;
    with [cleanup] removing none (C15), the window accumulates one more
    scroll and one more resize listener per round trip through the
    breakpoint. *)
Theorem remount_adds_listeners `{Document} (this : obj) (c : ProductViewParallax)
    (s img : elem) (w : world) :
  heap w !! this = Some c -> isMobile c = true -> section c = Some s ->
  image1 c = Some img -> (749 < innerWidth (win w))%Z -> listener_ids_fresh (win w) ->
  listeners (win (exec (onResize this) w)) =
  listeners (win w) ++
    [mk_listener ev_scroll_type (bound_fn (next_obj (win w)) this m_onScroll);
     mk_listener ev_resize_type (bound_fn (S (next_obj (win w))) this m_onResize)].
Proof.
  intros Hc Hm Hs Hi Hw Hf. unfold exec.
  rewrite (onResize_to_desktop this c s img) by (auto; apply Z.leb_gt; lia).
  rewrite (init_run this (set_isMobile false c) s img)
    by first [apply lookup_insert_eq | exact Hs | exact Hi | reflexivity].
  exact (init_win_listeners this s img (win w) Hf).
Qed.

(** C28: a construction whose selector throws (an identifier that is not
    a valid CSS class name) throws the same exception and leaves no trace
    but the allocated, unreachable object: no controller, no listener, no
    frame, no observer and no clip. *)
Theorem construct_error_no_effect `{Document} (sid : string) (e : exn) (w : world) :
  querySelector_section sid = Throw e ->
  fst (construct sid w) = Throw e /\
  heap (exec (construct sid) w) = heap w /\
  listeners (win (exec (construct sid) w)) = listeners (win w) /\
  raf_callbacks (win (exec (construct sid) w)) = raf_callbacks (win w) /\
  observers (win (exec (construct sid) w)) = observers (win w) /\
  clipPath (win (exec (construct sid) w)) = clipPath (win w).
Proof.
  intros Hq. unfold exec. rewrite (construct_throw sid e w Hq). repeat split.
Qed.

(** C29: a construction whose section or layer is missing, or that runs
    in a window at most 749px wide, returns a controller that holds no
    subscription: the listeners, the pending frames, the observers and
    the clips are those before; the only change is the new record, inert
    or in mobile mode. *)
Theorem construct_inert_no_subscription `{Document} (sid : string) (sec : option elem)
    (w : world) :
  querySelector_section sid = Ok sec ->
  ctl_activates (fresh_ctl sid sec (innerWidth (win w))) = false ->
  construct sid w =
    (Ok (next_obj (win w)),
     mkWorld (bump_obj (win w))
       (<[next_obj (win w) := fresh_ctl sid sec (innerWidth (win w))]> (heap w))) /\
  listeners (win (exec (construct sid) w)) = listeners (win w) /\
  raf_callbacks (win (exec (construct sid) w)) = raf_callbacks (win w) /\
  observers (win (exec (construct sid) w)) = observers (win w) /\
  clipPath (win (exec (construct sid) w)) = clipPath (win w).
Proof.
  intros Hq Ha. unfold exec. rewrite (construct_ok sid sec w Hq). simpl. rewrite Ha.
  repeat split.
Qed.

(** ** Witnesses *)

(** C22: the visibility gate.  A notification of the observer a desktop
    controller created in [init] (one target, its section) runs the
    callback of lines 28-34 once: [isActive] becomes the section's
    [isIntersecting] for the 50px root margin, and when the section is in
    view the layer gets the clip [update] computes; out of view nothing
    else changes. *)
Theorem intersect_sets_isActive `{Document} (this : obj) (c : ProductViewParallax)
    (s img : elem) (o : obj) (ob : Host.observer) (w : world) :
  heap w !! this = Some c -> section c = Some s -> image1 c = Some img -> isMobile c = false ->
  observers (win w) !! o = Some ob -> ob_callback ob = this -> ob_targets ob = [s] ->
  let b := isIntersecting (win w) (ob_rootMargin ob) s in
  exec (step (Intersect o)) w =
  mkWorld (if b then set_clipPath img (progress_clip (win w) s) (win w) else win w)
          (<[this := set_isActive b c]> (heap w)).
Proof.
  intros Hc Hs Hi Hm Ho Hcb Ht b. simpl step. unfold deliver, exec. js_unfold. rewrite Ho, Ht.
  rewrite bool_decide_false by discriminate. cbn [map]. fold b. rewrite Hcb.
  unfold report, try_catch, on_intersection. cbn [forEach]. js_unfold. rewrite Hc. cbn [win heap].
  destruct b.
  - rewrite (update_run this (set_isActive true c) img s) by (first [apply lookup_insert_eq|destruct c; cbn in *; assumption]).
    reflexivity.
  - reflexivity.
Qed.

Lemma example_world_ctl : heap example_world !! 0%nat = Some example_ctl.
Proof. vm_compute. reflexivity. Qed.

Lemma example_world_mobile_ctl : heap example_world_mobile !! 0%nat = Some example_ctl_mobile.
Proof. vm_compute. reflexivity. Qed.

Lemma update_writes_progress_witness :
  heap example_world !! 0%nat = Some example_ctl /\
  (let w' := exec (@update example_page 0%nat) example_world in
   clipPath (win w') !! 2%positive =
     Some (clip_inset ((1 - scroll_progress (@getBoundingClientRect example_page
                                               (win example_world) 1%positive)
                                          (innerHeight (win example_world))) * 100)) /\
   (forall e, e <> 2%positive -> clipPath (win w') !! e = clipPath (win example_world) !! e) /\
   listeners (win w') = listeners (win example_world) /\
   raf_callbacks (win w') = raf_callbacks (win example_world) /\ heap w' = heap example_world).
Proof.
  split; [exact example_world_ctl|].
  apply (@update_writes_progress example_page 0%nat example_ctl 2%positive 1%positive
           example_world example_world_ctl); reflexivity.
Defined.

Lemma mobile_controller_inert_witness :
  heap example_world_mobile !! 0%nat = Some example_ctl_mobile /\
  isMobile example_ctl_mobile = true /\
  @update example_page 0%nat example_world_mobile = (Ok (), example_world_mobile) /\
  onScroll 0%nat example_world_mobile = (Ok (), example_world_mobile) /\
  ((innerWidth (win example_world_mobile) <= 749)%Z ->
   @onResize example_page 0%nat example_world_mobile = (Ok (), example_world_mobile)).
Proof.
  split; [exact example_world_mobile_ctl|split; [reflexivity|]].
  apply (@mobile_controller_inert example_page 0%nat example_ctl_mobile example_world_mobile
           example_world_mobile_ctl). reflexivity.
Defined.

Lemma onScroll_coalesces_witness :
  heap example_world !! 0%nat = Some example_ctl /\
  pending_of 0%nat (win (exec (onScroll 0%nat) example_world)) =
    [(raf_next (win example_world), 0%nat)].
Proof.
  split; [exact example_world_ctl|].
  apply (onScroll_coalesces 0%nat example_ctl example_world example_world_ctl).
  - reflexivity.
  - exists 2%positive. reflexivity.
  - intros h Hin. apply list_elem_of_In in Hin. vm_compute in Hin. contradiction.
Defined.

Lemma onScroll_ignores_isActive_witness :
  heap example_world !! 0%nat = Some example_ctl /\
  win (exec (onScroll 0%nat)
         (mkWorld (win example_world)
                  (<[0%nat := set_isActive true example_ctl]> (heap example_world)))) =
  win (exec (onScroll 0%nat) example_world).
Proof.
  split; [exact example_world_ctl|].
  apply (onScroll_ignores_isActive 0%nat example_ctl true example_world
           example_world_ctl).
Defined.

Lemma remount_adds_listeners_witness :
  heap example_world_remount !! 0%nat = Some example_ctl_mobile /\
  listener_ids_fresh (win example_world_remount) /\
  listeners (win (exec (@onResize example_page 0%nat) example_world_remount)) =
  listeners (win example_world_remount) ++
    [mk_listener ev_scroll_type (bound_fn (next_obj (win example_world_remount)) 0%nat m_onScroll);
     mk_listener ev_resize_type
       (bound_fn (S (next_obj (win example_world_remount))) 0%nat m_onResize)].
Proof.
  assert (Hc : heap example_world_remount !! 0%nat = Some example_ctl_mobile)
    by (vm_compute; reflexivity).
  assert (Hf : listener_ids_fresh (win example_world_remount)).
  { intros l id this m Hin Hl. apply list_elem_of_In in Hin. vm_compute in Hin.
    destruct Hin as [<-|[<-|[]]]; injection Hl as <- <- <-; vm_compute; lia. }
  split; [exact Hc|split; [exact Hf|]].
  apply (@remount_adds_listeners example_page 0%nat example_ctl_mobile 1%positive 2%positive
           example_world_remount Hc); first [exact Hf | reflexivity | vm_compute; reflexivity].
Defined.

Lemma construct_error_no_effect_witness :
  @querySelector_section example_page "bad id" = Throw SyntaxError /\
  fst (@construct example_page "bad id" example_world) = Throw SyntaxError.
Proof.
  split; [reflexivity|].
  apply (@construct_error_no_effect example_page "bad id" SyntaxError example_world).
  reflexivity.
Defined.

Lemma construct_inert_no_subscription_witness :
  let w0 := mkWorld (fresh_window 700 800) ∅ in
  @querySelector_section example_page "main" = Ok (Some 1%positive) /\
  @ctl_activates (@fresh_ctl example_page "main" (Some 1%positive) 700) = false /\
  listeners (win (exec (@construct example_page "main") w0)) = listeners (win w0).
Proof.
  simpl. split; [reflexivity|split; [reflexivity|]].
  apply (@construct_inert_no_subscription example_page "main" (Some 1%positive)
           (mkWorld (fresh_window 700 800) ∅)); reflexivity.
Defined.

Lemma cleanup_keeps_listeners_witness :
  (forall l m, l ∈ listeners (win example_world) -> l_callback l <> proto_fn m) /\
  listeners (win (exec (cleanup 0%nat) example_world)) =
  listeners (win example_world).
Proof.
  assert (Hnp : forall l m, l ∈ listeners (win example_world) -> l_callback l <> proto_fn m).
  { intros l m Hin. apply list_elem_of_In in Hin. vm_compute in Hin.
    destruct Hin as [<-|[<-|[]]]; discriminate. }
  split; [exact Hnp|]. apply (cleanup_keeps_listeners 0%nat example_world Hnp).
Defined.

(** The example world scrolled by 300px: the section's top is at 700,
    in view. *)
Definition example_world_scrolled : world :=
  mkWorld (set_scroll 300 (win example_world)) (heap example_world).

Lemma intersect_sets_isActive_witness :
  observers (win example_world_scrolled) !! 3%nat =
    Some (mk_observer 0%nat 50 [0; 1#4; 1#2; 3#4; 1] [1%positive]) /\
  exec (@step example_page (Intersect 3%nat)) example_world_scrolled =
  mkWorld (set_clipPath 2%positive (@progress_clip (win example_world_scrolled) 1%positive example_page)
             (win example_world_scrolled))
          (<[0%nat := set_isActive true example_ctl]> (heap example_world_scrolled)).
Proof.
  split; [vm_compute; reflexivity|].
  refine (eq_trans (@intersect_sets_isActive example_page 0%nat example_ctl 1%positive 2%positive 3%nat
           (mk_observer 0%nat 50 [0; 1#4; 1#2; 3#4; 1] [1%positive]) example_world_scrolled
           example_world_ctl eq_refl eq_refl eq_refl _ eq_refl eq_refl) _);
    vm_compute; reflexivity.
Defined.

End Controller.
