(* ===== verification/Invariant.v ===== *)
(** * The frame-scheduling invariant

    The specification's main invariant of a controller: at most one
    animation-frame request is pending for it at any time (section 3),
    which [onScroll] maintains by cancelling before requesting.  This file
    states the invariant of the whole window, [frames_inv], and proves
    that every event of the browser preserves it, whatever the number of
    controllers sharing the window.  The proof uses a small program logic
    on the monad of [Controller]: a computation is [stable] when it leaves
    the frame view of the world (the pending callbacks, the next handle
    and every controller's [rafId]) unchanged on every outcome, and
    stability composes through [bind], [try_catch] and [forEach]. *)
From S2P Require Import Prelude Progress Host Controller.
From stdpp Require Import base list gmap strings.
From Stdlib Require Import QArith ZArith String List Bool.
Import ListNotations.

Module Invariant.
Import Progress Host Controller.

(** The invariant: each pending callback belongs to a controller whose
    [rafId] is its handle, no other controller holds that handle, the
    handles are distinct, and every handle is below the next one. *)
Record frames_inv (w : world) : Prop := {
  fi_owner : forall h c, (h, c) ∈ raf_callbacks (win w) ->
    exists cc, heap w !! c = Some cc /\ rafId cc = Some h;
  fi_unique : forall h c d dd, (h, c) ∈ raf_callbacks (win w) ->
    heap w !! d = Some dd -> rafId dd = Some h -> d = c;
  fi_nodup : NoDup (map fst (raf_callbacks (win w)));
  fi_pending_below : forall h c, (h, c) ∈ raf_callbacks (win w) -> (h < raf_next (win w))%positive;
  fi_rafId_below : forall d dd h, heap w !! d = Some dd -> rafId dd = Some h ->
    (h < raf_next (win w))%positive
}.

(** The frame view of two worlds agrees. *)
Definition frames_same (w w' : world) : Prop :=
  raf_callbacks (win w') = raf_callbacks (win w) /\ raf_next (win w') = raf_next (win w) /\
  rafId <$> heap w' = rafId <$> heap w.

(** A computation that keeps the frame view on every outcome. *)
Definition stable {A} (m : M A) : Prop := forall w, frames_same w (exec m w).

(** A computation that keeps a property of the world on every outcome. *)
Definition preserves (P : world -> Prop) {A} (m : M A) : Prop := forall w, P w -> P (exec m w).

(** A computation that keeps the frame invariant. *)
Definition keeps {A} (m : M A) : Prop := preserves frames_inv m.

(** ** The logic *)

Lemma frames_same_refl (w : world) : frames_same w w.
Proof. split; [reflexivity|split; reflexivity]. Qed.

Lemma frames_same_trans (w1 w2 w3 : world) :
  frames_same w1 w2 -> frames_same w2 w3 -> frames_same w1 w3.
Proof.
  intros (H1 & H2 & H3) (H4 & H5 & H6). split; [congruence|split; congruence].
Qed.

#[export] Hint Resolve frames_same_refl : pv.

Section Logic.
Context {A B : Type}.

Lemma stable_ret (a : A) : stable (mret a : M A).
Proof. intros w. apply frames_same_refl. Qed.

Lemma stable_throw (e : exn) : stable (throw e : M A).
Proof. intros w. apply frames_same_refl. Qed.

Lemma stable_gets (f : world -> A) : stable (gets f).
Proof. intros w. apply frames_same_refl. Qed.

Lemma stable_bind (m : M A) (k : A -> M B) :
  stable m -> (forall a, stable (k a)) -> stable (x ← m; k x).
Proof.
  intros Hm Hk w. unfold exec, mbind, js_bind, bind. specialize (Hm w). unfold exec in Hm.
  destruct (m w) as [[a|e] w1]; simpl in *; [|exact Hm].
  eapply frames_same_trans; [exact Hm|apply (Hk a w1)].
Qed.

Lemma stable_try_catch (m : M A) (h : exn -> M A) :
  stable m -> (forall e, stable (h e)) -> stable (try_catch m h).
Proof.
  intros Hm Hh w. unfold exec, try_catch. specialize (Hm w). unfold exec in Hm.
  destruct (m w) as [[a|e] w1]; simpl in *; [exact Hm|].
  eapply frames_same_trans; [exact Hm|apply (Hh e w1)].
Qed.


Lemma preserves_bind (P : world -> Prop) (m : M A) (k : A -> M B) :
  preserves P m -> (forall a, preserves P (k a)) -> preserves P (x ← m; k x).
Proof.
  intros Hm Hk w Hw. unfold exec, mbind, js_bind, bind. specialize (Hm w Hw). unfold exec in Hm.
  destruct (m w) as [[a|e] w1]; simpl in *; [apply (Hk a w1 Hm)|exact Hm].
Qed.

Lemma preserves_try_catch (P : world -> Prop) (m : M A) (h : exn -> M A) :
  preserves P m -> (forall e, preserves P (h e)) -> preserves P (try_catch m h).
Proof.
  intros Hm Hh w Hw. unfold exec, try_catch. specialize (Hm w Hw). unfold exec in Hm.
  destruct (m w) as [[a|e] w1]; simpl in *; [exact Hm|apply (Hh e w1 Hm)].
Qed.

Lemma keeps_bind (m : M A) (k : A -> M B) :
  keeps m -> (forall a, keeps (k a)) -> keeps (x ← m; k x).
Proof. apply preserves_bind. Qed.

Lemma keeps_try_catch (m : M A) (h : exn -> M A) :
  keeps m -> (forall e, keeps (h e)) -> keeps (try_catch m h).
Proof. apply preserves_try_catch. Qed.

End Logic.

Lemma stable_forEach {A} (f : A -> M unit) (l : list A) :
  (forall x, stable (f x)) -> stable (forEach f l).
Proof.
  intros Hf. induction l as [|x l IH]; simpl; [intros w; apply frames_same_refl|].
  apply stable_bind; [apply Hf|intros _; exact IH].
Qed.

Lemma preserves_forEach (P : world -> Prop) {A} (f : A -> M unit) (l : list A) :
  (forall x, preserves P (f x)) -> preserves P (forEach f l).
Proof.
  intros Hf. induction l as [|x l IH]; simpl; [intros w Hw; exact Hw|].
  apply preserves_bind; [apply Hf|intros _; exact IH].
Qed.

Lemma keeps_forEach {A} (f : A -> M unit) (l : list A) :
  (forall x, keeps (f x)) -> keeps (forEach f l).
Proof. apply preserves_forEach. Qed.

(** The controllers of two worlds with the same frame view have the same
    [rafId]s. *)
Lemma rafId_transfer (w w' : world) (d : obj) (dd' : ProductViewParallax) :
  rafId <$> heap w' = rafId <$> heap w -> heap w' !! d = Some dd' ->
  exists dd, heap w !! d = Some dd /\ rafId dd = rafId dd'.
Proof.
  intros E Hd. assert (Hl : (rafId <$> heap w') !! d = (rafId <$> heap w) !! d) by (rewrite E; reflexivity).
  rewrite !lookup_fmap, Hd in Hl. destruct (heap w !! d) as [dd|]; [|discriminate].
  exists dd. split; [reflexivity|]. simpl in Hl. congruence.
Qed.

Lemma frames_inv_same (w w' : world) : frames_inv w -> frames_same w w' -> frames_inv w'.
Proof.
  intros Hw (Hr & Hn & Hh). destruct Hw as [Ho Hu Hd Hp Hb].
  split; rewrite ?Hr, ?Hn.
  - intros h c Hin. destruct (Ho h c Hin) as (cc & Hc & Hcr).
    assert (Hl : (rafId <$> heap w') !! c = Some (Some h)) by (rewrite Hh, lookup_fmap, Hc; simpl; congruence).
    rewrite lookup_fmap in Hl. destruct (heap w' !! c) as [cc'|]; [|discriminate].
    exists cc'. simpl in Hl. split; [reflexivity|congruence].
  - intros h c d dd Hin Hd' Hr'. destruct (rafId_transfer w w' d dd Hh Hd') as (dd0 & H0 & E).
    apply (Hu h c d dd0 Hin H0). congruence.
  - exact Hd.
  - exact Hp.
  - intros d dd h Hd' Hr'. destruct (rafId_transfer w w' d dd Hh Hd') as (dd0 & H0 & E).
    apply (Hb d dd0 h H0). congruence.
Qed.

Lemma keeps_of_stable {A} (m : M A) : stable m -> keeps m.
Proof. intros Hm w Hw. exact (frames_inv_same w _ Hw (Hm w)). Qed.

(** ** Stable primitives *)

Lemma stable_this_get (this : obj) : stable (this_get this).
Proof. intros w. unfold exec, this_get. destruct (heap w !! this); apply frames_same_refl. Qed.

Lemma stable_this_set (this : obj) (f : ProductViewParallax -> ProductViewParallax) :
  (forall c, rafId (f c) = rafId c) -> stable (this_set this f).
Proof.
  intros Hf w. unfold exec, this_set. destruct (heap w !! this) as [c|] eqn:Hc;
    [|apply frames_same_refl].
  split; [reflexivity|split; [reflexivity|]]. simpl.
  rewrite fmap_insert, Hf. apply insert_id. rewrite lookup_fmap, Hc. reflexivity.
Qed.

Lemma stable_win_modify (f : window -> window) :
  (forall v, raf_callbacks (f v) = raf_callbacks v /\ raf_next (f v) = raf_next v) ->
  stable (win_modify f).
Proof.
  intros Hf w. unfold exec, win_modify, modify. simpl. destruct (Hf (win w)).
  split; [assumption|split; [assumption|reflexivity]].
Qed.

Lemma stable_win_gets {A} (f : window -> A) : stable (win_gets f).
Proof. intros w. apply frames_same_refl. Qed.

Lemma stable_bind_method (this : obj) (m : method) : stable (bind_method this m).
Proof. intros w. split; [reflexivity|split; reflexivity]. Qed.

Lemma stable_new_observer (this : obj) : stable (new_observer this).
Proof. intros w. split; [reflexivity|split; reflexivity]. Qed.

Create HintDb stable.
#[export] Hint Resolve stable_this_get stable_win_gets stable_bind_method stable_new_observer
  stable_ret stable_throw stable_gets : stable.

(** [stable_tac] follows the body of a method: binds, [try_catch], the
    branches, and the primitives. *)
Ltac stable_tac :=
  cbv zeta;
  repeat first
    [ apply stable_bind; intros
    | apply stable_try_catch; intros
    | apply stable_this_set; intros; reflexivity
    | apply stable_win_modify; intros; autorewrite with host_rw; split; reflexivity
    | solve [eauto with stable]
    | match goal with |- stable (match ?x with _ => _ end) => destruct x end ].

Section Stable.
Context `{Document}.

Lemma stable_update (this : obj) : stable (update this).
Proof. unfold update. stable_tac. Qed.
#[local] Hint Resolve stable_update : stable.

Lemma stable_init (this : obj) : stable (init this).
Proof. unfold init. stable_tac. Qed.

Lemma stable_on_intersection (this : obj) (entries : list bool) :
  stable (on_intersection this entries).
Proof. unfold on_intersection. apply stable_forEach. intros b. stable_tac. Qed.

End Stable.

(** ** The frame operations *)

(** The callbacks left after cancelling the handle of [this], if any. *)
Definition cancel_own (r : option positive) (l : list (positive * obj)) : list (positive * obj) :=
  match r with Some h => List.filter (fun p => negb (Pos.eqb (fst p) h)) l | None => l end.

Lemma cancel_own_sub (r : option positive) (l : list (positive * obj)) (p : positive * obj) :
  p ∈ cancel_own r l -> p ∈ l.
Proof.
  destruct r as [h|]; simpl; [|auto]. intros Hin. apply list_elem_of_In in Hin.
  apply list_elem_of_In. apply filter_In in Hin. tauto.
Qed.

Lemma cancel_own_nodup (r : option positive) (l : list (positive * obj)) :
  NoDup (map fst l) -> NoDup (map fst (cancel_own r l)).
Proof.
  destruct r as [h|]; simpl; [apply NoDup_map_filter|auto].
Qed.

(** No callback of [this] survives the cancellation of its [rafId]. *)
Lemma cancel_own_not_this (w : world) (this : obj) (c : ProductViewParallax) (h : positive) (d : obj) :
  frames_inv w -> heap w !! this = Some c ->
  (h, d) ∈ cancel_own (rafId c) (raf_callbacks (win w)) -> d <> this.
Proof.
  intros Hw Hc Hin ->. pose proof (cancel_own_sub _ _ _ Hin) as Hin0.
  destruct (fi_owner _ Hw h this Hin0) as (cc & Hcc & Hr). rewrite Hc in Hcc. injection Hcc as <-.
  rewrite Hr in Hin. simpl in Hin. apply list_elem_of_In, filter_In in Hin as [_ Hb].
  simpl in Hb. rewrite Pos.eqb_refl in Hb. discriminate.
Qed.

Lemma keeps_cancel (h : positive) : keeps (win_modify (cancelAnimationFrame h)).
Proof.
  intros w Hw. destruct Hw as [Ho Hu Hd Hp Hb].
  pose proof (cancel_own_sub (Some h) (raf_callbacks (win w))) as Hs.
  split; simpl.
  - intros h' c Hin. exact (Ho h' c (Hs _ Hin)).
  - intros h' c d dd Hin. exact (Hu h' c d dd (Hs _ Hin)).
  - exact (cancel_own_nodup (Some h) _ Hd).
  - intros h' c Hin. exact (Hp h' c (Hs _ Hin)).
  - exact Hb.
Qed.

(** [cleanup] cancels the frame of [rafId] and no other. *)
Lemma cleanup_win_raf (c : ProductViewParallax) (v : window) :
  raf_callbacks (cleanup_win c v) = cancel_own (rafId c) (raf_callbacks v) /\
  raf_next (cleanup_win c v) = raf_next v.
Proof.
  unfold cleanup_win. destruct (rafId c), (observer c), (image1 c);
    autorewrite with host_rw; split; reflexivity.
Qed.

Lemma frames_inv_cleanup (this : obj) (c : ProductViewParallax) (w : world) :
  frames_inv w -> heap w !! this = Some c ->
  frames_inv (mkWorld (cleanup_win c (win w))
                      (<[this := set_observer None (set_rafId None c)]> (heap w))).
Proof.
  intros Hw Hc. destruct (cleanup_win_raf c (win w)) as [Er En]. pose proof Hw as [Ho Hu Hd Hp Hb]. split; simpl; rewrite ?Er, ?En.
  - intros h d Hin. pose proof (cancel_own_not_this w this c h d Hw Hc Hin) as Hne.
    rewrite lookup_insert_ne by congruence. exact (Ho h d (cancel_own_sub _ _ _ Hin)).
  - intros h d e ee Hin He Hr. destruct (decide (e = this)) as [->|Hne].
    + rewrite lookup_insert_eq in He. injection He as <-. discriminate.
    + rewrite lookup_insert_ne in He by congruence. exact (Hu h d e ee (cancel_own_sub _ _ _ Hin) He Hr).
  - exact (cancel_own_nodup _ _ Hd).
  - intros h d Hin. exact (Hp h d (cancel_own_sub _ _ _ Hin)).
  - intros e ee h He Hr. destruct (decide (e = this)) as [->|Hne].
    + rewrite lookup_insert_eq in He. injection He as <-. discriminate.
    + rewrite lookup_insert_ne in He by congruence. exact (Hb e ee h He Hr).
Qed.

Lemma keeps_cleanup (this : obj) : keeps (cleanup this).
Proof.
  intros w Hw. unfold exec. destruct (heap w !! this) as [c|] eqn:Hc.
  - rewrite (cleanup_run this c w Hc). exact (frames_inv_cleanup this c w Hw Hc).
  - unfold cleanup. js_unfold. rewrite Hc. exact Hw.
Qed.

Lemma frames_inv_onScroll (this : obj) (c : ProductViewParallax) (w : world) :
  frames_inv w -> heap w !! this = Some c ->
  frames_inv (mkWorld (onScroll_win this c (win w))
                      (<[this := set_rafId (Some (raf_next (win w))) c]> (heap w))).
Proof.
  intros Hw Hc. set (n := raf_next (win w)).
  assert (Er : raf_callbacks (onScroll_win this c (win w)) =
               cancel_own (rafId c) (raf_callbacks (win w)) ++ [(n, this)] /\
               raf_next (onScroll_win this c (win w)) = Pos.succ n).
  { unfold onScroll_win, requestAnimationFrame. destruct (rafId c); split; reflexivity. }
  destruct Er as [Er En]. pose proof Hw as [Ho Hu Hd Hp Hb].
  assert (Hold : forall h d, (h, d) ∈ cancel_own (rafId c) (raf_callbacks (win w)) ->
                 d <> this /\ (h, d) ∈ raf_callbacks (win w) /\ (h < n)%positive).
  { intros h d Hin. pose proof (cancel_own_sub _ _ _ Hin) as Hin0.
    split; [exact (cancel_own_not_this w this c h d Hw Hc Hin)|split; [exact Hin0|exact (Hp _ _ Hin0)]]. }
  split; cbn [win heap]; rewrite ?Er, ?En.
  - intros h d Hin. apply elem_of_app in Hin as [Hin|Hin].
    + destruct (Hold h d Hin) as (Hne & Hin0 & _).
      rewrite lookup_insert_ne by congruence. exact (Ho h d Hin0).
    + apply list_elem_of_singleton in Hin. injection Hin as -> ->.
      rewrite lookup_insert_eq. eexists. split; reflexivity.
  - intros h d e ee Hin He Hr. apply elem_of_app in Hin as [Hin|Hin].
    + destruct (Hold h d Hin) as (Hne & Hin0 & Hlt). destruct (decide (e = this)) as [->|Hne'].
      * rewrite lookup_insert_eq in He. injection He as <-. simpl in Hr. injection Hr as ->. lia.
      * rewrite lookup_insert_ne in He by congruence. exact (Hu h d e ee Hin0 He Hr).
    + apply list_elem_of_singleton in Hin. injection Hin as -> ->.
      destruct (decide (e = this)) as [->|Hne']; [reflexivity|].
      rewrite lookup_insert_ne in He by congruence. specialize (Hb e ee n He Hr). lia.
  - rewrite map_app. simpl. apply NoDup_app;
      [exact (cancel_own_nodup _ _ Hd)|constructor; [intros []|constructor]|].
    intros x Hx [<-|[]]. apply in_map_iff in Hx as ([h d] & E & Hx). simpl in E. subst h.
    apply list_elem_of_In in Hx. destruct (Hold n d Hx) as (_ & _ & Hlt). lia.
  - intros h d Hin. apply elem_of_app in Hin as [Hin|Hin].
    + destruct (Hold h d Hin) as (_ & _ & Hlt). lia.
    + apply list_elem_of_singleton in Hin. injection Hin as -> ->. lia.
  - intros e ee h He Hr. destruct (decide (e = this)) as [->|Hne'].
    + rewrite lookup_insert_eq in He. injection He as <-. simpl in Hr. injection Hr as <-. lia.
    + rewrite lookup_insert_ne in He by congruence. specialize (Hb e ee h He Hr). lia.
Qed.

Lemma keeps_onScroll (this : obj) : keeps (onScroll this).
Proof.
  intros w Hw. unfold exec. destruct (heap w !! this) as [c|] eqn:Hc.
  - destruct (isMobile c) eqn:Hm; [rewrite (onScroll_noop this c w Hc) by auto; exact Hw|].
    destruct (image1 c) as [img|] eqn:Hi; [|rewrite (onScroll_noop this c w Hc) by auto; exact Hw].
    rewrite (onScroll_run this c w Hc Hm) by (rewrite Hi; eauto).
    exact (frames_inv_onScroll this c w Hw Hc).
  - unfold onScroll. js_unfold. rewrite Hc. exact Hw.
Qed.

Create HintDb keeps.
#[export] Hint Resolve keeps_cleanup keeps_onScroll keeps_cancel : keeps.
#[export] Hint Resolve stable_update stable_init stable_on_intersection : stable.

(** [keeps_tac] follows a body whose frame operations are [onScroll],
    [cleanup] and [cancelAnimationFrame]; the rest is stable. *)
Ltac keeps_tac :=
  cbv zeta;
  repeat first
    [ solve [eauto with keeps]
    | apply keeps_bind; intros
    | apply keeps_try_catch; intros
    | apply keeps_forEach; intros
    | apply keeps_of_stable; solve [stable_tac]
    | match goal with |- keeps (match ?x with _ => _ end) => destruct x end ].

Section Events.
Context `{Document}.

Lemma keeps_onResize (this : obj) : keeps (onResize this).
Proof. unfold onResize. keeps_tac. Qed.
#[local] Hint Resolve keeps_onResize : keeps.

Lemma keeps_dispatch (t : event_type) : keeps (dispatch t).
Proof.
  unfold dispatch, report, call_listener. keeps_tac.
  all: match goal with |- keeps (match ?m with _ => _ end) => destruct m end; keeps_tac.
Qed.

Lemma keeps_run_frame : keeps run_frame.
Proof. unfold run_frame, report. keeps_tac. Qed.

Lemma keeps_deliver (o : obj) : keeps (deliver o).
Proof. unfold deliver, report. keeps_tac. Qed.

(** Every event of the browser keeps the invariant. *)
Lemma keeps_step (e : event) : keeps (step e).
Proof.
  destruct e; simpl; [| |apply keeps_run_frame|apply keeps_deliver];
    (apply keeps_bind; [apply keeps_of_stable; stable_tac|intros; apply keeps_dispatch]).
Qed.

End Events.

(** Under the invariant, the callbacks pending for one controller all
    carry its [rafId] and are distinct: there is at most one. *)
Lemma frames_inv_pending_le1 (w : world) (c : obj) :
  frames_inv w -> (length (pending_of c (win w)) <= 1)%nat.
Proof.
  intros Hw. unfold pending_of. rewrite <- (length_map fst).
  destruct (heap w !! c) as [cc|] eqn:Hc; [destruct (rafId cc) as [h|] eqn:Hr|].
  - apply (NoDup_const_length _ h); [apply NoDup_map_filter, (fi_nodup _ Hw)|].
    intros x Hx. apply in_map_iff in Hx as ([h' d] & <- & Hx). apply filter_In in Hx as [Hx Hd].
    simpl in *. apply Nat.eqb_eq in Hd. subst d. apply list_elem_of_In in Hx.
    destruct (fi_owner _ Hw h' c Hx) as (cc' & Hc' & Hr'). congruence.
  - rewrite pending_filter_none; [simpl; lia|]. intros [h' d] Hx Hd. simpl in Hd. subst d.
    destruct (fi_owner _ Hw h' c Hx) as (cc' & Hc' & Hr'). congruence.
  - rewrite pending_filter_none; [simpl; lia|]. intros [h' d] Hx Hd. simpl in Hd. subst d.
    destruct (fi_owner _ Hw h' c Hx) as (cc' & Hc' & Hr'). congruence.
Qed.

(** The invariant holds of a window where nothing is pending. *)
Lemma frames_inv_empty (v : window) (hp : gmap obj ProductViewParallax) :
  raf_callbacks v = [] -> (forall d dd, hp !! d = Some dd -> rafId dd = None) ->
  frames_inv (mkWorld v hp).
Proof.
  intros Hr Hn. split; simpl; rewrite ?Hr.
  - intros h c Hin. apply list_elem_of_In in Hin. contradiction.
  - intros h c d dd Hin. apply list_elem_of_In in Hin. contradiction.
  - constructor.
  - intros h c Hin. apply list_elem_of_In in Hin. contradiction.
  - intros d dd h Hd Hdr. rewrite (Hn d dd Hd) in Hdr. discriminate.
Qed.

(** ** Bursts of scrolls *)

(** One iteration of [dispatch]. *)
Definition dispatch_one `{Document} (l : listener) : M unit :=
  present ← win_gets (fun v => bool_decide (l ∈ listeners v));
  if (present : bool) then report (call_listener (l_callback l)) else mret ().

(** Every scroll listener of the window calls [onScroll] of some
    controller, as [init] registers them. *)
Definition scroll_listeners_onScroll (v : window) : Prop :=
  forall l, l ∈ listeners v -> l_type l = ev_scroll_type ->
  exists id d, l_callback l = bound_fn id d m_onScroll.

(** [c] is a desktop controller with a layer. *)
Definition active_ctl (c : obj) (w : world) : Prop :=
  exists cc, heap w !! c = Some cc /\ isMobile cc = false /\ is_Some (image1 cc).

(** What a burst of scrolls keeps. *)
Definition burst_inv (c : obj) (L : list listener) (w : world) : Prop :=
  frames_inv w /\ listeners (win w) = L /\ active_ctl c w.

Lemma dispatch_unfold `{Document} (t : event_type) :
  dispatch t = (ls ← win_gets (fun v => List.filter (fun l => bool_decide (l_type l = t)) (listeners v));
                forEach dispatch_one ls).
Proof. reflexivity. Qed.

Lemma onScroll_cases (d : obj) (w : world) :
  onScroll d w = (Throw TypeError, w) \/ onScroll d w = (Ok (), w) \/
  exists dd, heap w !! d = Some dd /\ isMobile dd = false /\ is_Some (image1 dd) /\
    onScroll d w = (Ok (), mkWorld (onScroll_win d dd (win w))
                                   (<[d := set_rafId (Some (raf_next (win w))) dd]> (heap w))).
Proof.
  destruct (heap w !! d) as [dd|] eqn:Hd; [|left; unfold onScroll; js_unfold; rewrite Hd; reflexivity].
  destruct (isMobile dd) eqn:Hm; [right; left; apply (onScroll_noop d dd); auto|].
  destruct (image1 dd) as [img|] eqn:Hi; [|right; left; apply (onScroll_noop d dd); auto].
  right; right. exists dd. split; [reflexivity|split; [exact Hm|split; [eauto|]]].
  apply onScroll_run; [exact Hd|exact Hm|rewrite Hi; eauto].
Qed.

Lemma listeners_onScroll_win (d : obj) (dd : ProductViewParallax) (v : window) :
  listeners (onScroll_win d dd v) = listeners v.
Proof. unfold onScroll_win. destruct (rafId dd); reflexivity. Qed.

Lemma pending_onScroll_win_self (c : obj) (cc : ProductViewParallax) (v : window) :
  pending_of c (onScroll_win c cc v) <> [].
Proof.
  unfold pending_of.
  assert (Er : raf_callbacks (onScroll_win c cc v) =
               cancel_own (rafId cc) (raf_callbacks v) ++ [(raf_next v, c)])
    by (unfold onScroll_win; destruct (rafId cc); reflexivity).
  rewrite Er, List.filter_app. simpl. rewrite Nat.eqb_refl. destruct (List.filter _ _); discriminate.
Qed.

(** A scroll of any controller keeps the burst invariant of [c], and a
    pending frame of [c] stays pending; the scroll of [c] itself leaves
    one. *)
Lemma onScroll_burst (c d : obj) (L : list listener) (w : world) :
  burst_inv c L w ->
  burst_inv c L (exec (onScroll d) w) /\
  (pending_of c (win w) <> [] \/ d = c -> pending_of c (win (exec (onScroll d) w)) <> []).
Proof.
  intros (Hw & HL & cc & Hc & Hm & Hi). pose proof (keeps_onScroll d w Hw) as Hw'.
  destruct (onScroll_cases d w) as [E|[E|(dd & Hd & Hdm & Hdi & E)]];
    unfold exec in *; rewrite E in *; cbn [fst snd win heap] in *.
  - split; [split; [exact Hw|split; [exact HL|exists cc; auto]]|].
    intros [Hp| ->]; [exact Hp|]. rewrite (onScroll_run c cc w Hc Hm Hi) in E. discriminate.
  - split; [split; [exact Hw|split; [exact HL|exists cc; auto]]|].
    intros [Hp| ->]; [exact Hp|]. rewrite (onScroll_run c cc w Hc Hm Hi) in E.
    injection E as Ew. rewrite <- Ew. apply pending_onScroll_win_self.
  - split; [split; [exact Hw'|split; [cbn [win]; rewrite listeners_onScroll_win; exact HL|]]|].
    + destruct (decide (d = c)) as [->|Hne].
      * exists (set_rafId (Some (raf_next (win w))) dd). cbn [heap]. rewrite lookup_insert_eq. auto.
      * exists cc. cbn [heap]. rewrite lookup_insert_ne by congruence. auto.
    + intros Hp. unfold pending_of.
      assert (Er : raf_callbacks (onScroll_win d dd (win w)) =
                   cancel_own (rafId dd) (raf_callbacks (win w)) ++ [(raf_next (win w), d)])
        by (unfold onScroll_win; destruct (rafId dd); reflexivity).
      rewrite Er, List.filter_app. destruct (decide (d = c)) as [->|Hne].
      * rewrite <- List.filter_app, <- Er. apply pending_onScroll_win_self.
      * destruct Hp as [Hp|]; [|congruence].
        remember (pending_of c (win w)) as pl eqn:F.
        destruct pl as [|[h c'] rest]; [congruence|].
        assert (Hin : In (h, c') (pending_of c (win w))) by (rewrite <- F; left; reflexivity).
        unfold pending_of in Hin.
        apply filter_In in Hin as [Hin Hc']. simpl in Hc'. apply Nat.eqb_eq in Hc'. subst c'.
        assert (Hk : In (h, c) (cancel_own (rafId dd) (raf_callbacks (win w)))).
        { destruct (rafId dd) as [hd|] eqn:Hr; simpl; [|exact Hin].
          apply filter_In. split; [exact Hin|]. simpl.
          destruct (Pos.eqb_spec h hd) as [->|]; [|reflexivity]. exfalso. apply Hne.
          apply list_elem_of_In in Hin. exact (fi_unique _ Hw hd c d dd Hin Hd Hr). }
        unfold obj in *. intros Hnil. apply app_eq_nil in Hnil as [Hnil _].
        assert (Hin2 : In (h, c) (List.filter (fun p => Nat.eqb (snd p) c)
                                   (cancel_own (rafId dd) (raf_callbacks (win w)))))
          by (apply filter_In; split; [exact Hk|apply Nat.eqb_refl]).
        rewrite Hnil in Hin2. contradiction.
Qed.

Lemma console_error_burst (c : obj) (L : list listener) (m : string) (w : world) :
  burst_inv c L w ->
  burst_inv c L (mkWorld (console_error m (win w)) (heap w)) /\
  pending_of c (console_error m (win w)) = pending_of c (win w).
Proof.
  intros (Hw & HL & Ha). split; [|reflexivity]. split; [|split; [exact HL|exact Ha]].
  apply (frames_inv_same w); [exact Hw|split; [reflexivity|split; reflexivity]].
Qed.

Lemma report_onScroll_burst `{Document} (c d : obj) (L : list listener) (w : world) :
  burst_inv c L w ->
  burst_inv c L (exec (report (onScroll d)) w) /\
  (pending_of c (win w) <> [] \/ d = c -> pending_of c (win (exec (report (onScroll d)) w)) <> []).
Proof.
  intros Hb. destruct (onScroll_burst c d L w Hb) as [Hb' Hp'].
  unfold report, try_catch, exec in *.
  destruct (onScroll_cases d w) as [E|[E|(dd & _ & _ & _ & E)]]; rewrite E in *;
    cbn [fst snd] in *; [|split; assumption|split; assumption].
  unfold win_modify, modify. cbn [snd win heap].
  destruct (console_error_burst c L "Uncaught exception" w Hb) as [Hb2 Hp2].
  split; [exact Hb2|]. rewrite Hp2. exact Hp'.
Qed.

Lemma dispatch_one_burst `{Document} (c : obj) (L : list listener) (l : listener) (w : world) :
  burst_inv c L w -> scroll_listeners_onScroll (win w) -> l ∈ L -> l_type l = ev_scroll_type ->
  burst_inv c L (exec (dispatch_one l) w) /\
  (pending_of c (win w) <> [] \/ (exists id, l_callback l = bound_fn id c m_onScroll) ->
   pending_of c (win (exec (dispatch_one l) w)) <> []).
Proof.
  intros Hb Hs HlL Ht. pose proof Hb as (_ & HL & _).
  destruct (Hs l (ltac:(rewrite HL; exact HlL)) Ht) as (id & d & Hf).
  unfold dispatch_one. unfold exec. js_unfold. rewrite bool_decide_true by (rewrite HL; exact HlL).
  unfold call_listener. rewrite Hf.
  destruct (report_onScroll_burst c d L w Hb) as [Hb' Hp']. unfold exec in *.
  split; [exact Hb'|]. intros [Hp|[id' Hid]]; apply Hp'; [left; exact Hp|right].
  injection Hid as _ ->. reflexivity.
Qed.

Lemma listeners_exec_dispatch_one `{Document} (c : obj) (L : list listener) (l : listener) (w : world) :
  burst_inv c L w -> scroll_listeners_onScroll (win w) -> l ∈ L -> l_type l = ev_scroll_type ->
  scroll_listeners_onScroll (win (exec (dispatch_one l) w)).
Proof.
  intros Hb Hs HlL Ht. destruct (dispatch_one_burst c L l w Hb Hs HlL Ht) as [(_ & HL' & _) _].
  destruct Hb as (_ & HL & _). intros l' Hl'. rewrite HL' in Hl'. apply Hs. rewrite HL. exact Hl'.
Qed.

Lemma forEach_dispatch_burst `{Document} (c : obj) (L : list listener) (ls : list listener) (w : world) :
  burst_inv c L w -> scroll_listeners_onScroll (win w) ->
  (forall l, l ∈ ls -> l ∈ L /\ l_type l = ev_scroll_type) ->
  burst_inv c L (exec (forEach dispatch_one ls) w) /\
  scroll_listeners_onScroll (win (exec (forEach dispatch_one ls) w)) /\
  (pending_of c (win w) <> [] \/ (exists id, mk_listener ev_scroll_type (bound_fn id c m_onScroll) ∈ ls) ->
   pending_of c (win (exec (forEach dispatch_one ls) w)) <> []).
Proof.
  revert w. induction ls as [|l ls IH]; intros w Hb Hs Hls.
  - split; [exact Hb|split; [exact Hs|]]. intros [Hp|[id Hin]]; [exact Hp|].
    apply list_elem_of_In in Hin. contradiction.
  - destruct (Hls l (list_elem_of_here _ _)) as [HlL Ht].
    destruct (dispatch_one_burst c L l w Hb Hs HlL Ht) as [Hb1 Hp1].
    pose proof (listeners_exec_dispatch_one c L l w Hb Hs HlL Ht) as Hs1.
    assert (Hls' : forall l', l' ∈ ls -> l' ∈ L /\ l_type l' = ev_scroll_type)
      by (intros l' Hl'; apply Hls; by apply list_elem_of_further).
    destruct (IH _ Hb1 Hs1 Hls') as (Hb2 & Hs2 & Hp2).
    unfold exec in *. simpl forEach. js_unfold.
    destruct (dispatch_one l w) as [[[]|e] w1] eqn:E; cbn [fst snd] in *.
    + split; [exact Hb2|split; [exact Hs2|]]. intros Hpre. apply Hp2.
      destruct Hpre as [Hp|[id Hin]]; [left; apply Hp1; left; exact Hp|].
      apply elem_of_cons in Hin as [Heq|Hin]; [left; apply Hp1; right; exists id; rewrite <- Heq; reflexivity|].
      right. exists id. exact Hin.
    + exfalso. unfold dispatch_one in E. js_unfold. revert E.
      destruct (bool_decide _); [unfold report, try_catch; destruct (call_listener _ _) as [[[]|e'] w2]; simpl; discriminate|discriminate].
Qed.

Lemma scroll_step_burst `{Document} (c : obj) (L : list listener) (y : Q) (w : world) :
  burst_inv c L w -> scroll_listeners_onScroll (win w) ->
  (exists id, mk_listener ev_scroll_type (bound_fn id c m_onScroll) ∈ L) ->
  burst_inv c L (exec (step (Scroll y)) w) /\
  scroll_listeners_onScroll (win (exec (step (Scroll y)) w)) /\
  pending_of c (win (exec (step (Scroll y)) w)) <> [].
Proof.
  intros Hb Hs [id Hid]. set (w1 := mkWorld (set_scroll y (win w)) (heap w)).
  assert (Hb1 : burst_inv c L w1).
  { destruct Hb as (Hw & HL & Ha). split; [|split; [exact HL|exact Ha]].
    apply (frames_inv_same w); [exact Hw|split; [reflexivity|split; reflexivity]]. }
  assert (Hs1 : scroll_listeners_onScroll (win w1)) by exact Hs.
  pose proof Hb1 as (_ & HL1 & _).
  set (ls := List.filter (fun l => bool_decide (l_type l = ev_scroll_type)) (listeners (win w1))).
  assert (Hls : forall l, l ∈ ls -> l ∈ L /\ l_type l = ev_scroll_type).
  { intros l Hl. apply list_elem_of_In in Hl. unfold ls in Hl. rewrite HL1 in Hl.
    apply filter_In in Hl as [Hl Ht]. apply bool_decide_eq_true in Ht.
    split; [apply list_elem_of_In; exact Hl|exact Ht]. }
  destruct (forEach_dispatch_burst c L ls w1 Hb1 Hs1 Hls) as (Hb2 & Hs2 & Hp2).
  assert (E : exec (step (Scroll y)) w = exec (forEach dispatch_one ls) w1) by reflexivity.
  rewrite E. split; [exact Hb2|split; [exact Hs2|]]. apply Hp2. right. exists id.
  apply list_elem_of_In. unfold ls. rewrite HL1. apply filter_In.
  split; [apply list_elem_of_In; exact Hid|apply bool_decide_eq_true; reflexivity].
Qed.

Lemma scrolls_burst `{Document} (c : obj) (L : list listener) (ys : list Q) (w : world) :
  burst_inv c L w -> scroll_listeners_onScroll (win w) ->
  (exists id, mk_listener ev_scroll_type (bound_fn id c m_onScroll) ∈ L) ->
  (pending_of c (win w) <> [] \/ ys <> []) ->
  burst_inv c L (exec (run_events (map Scroll ys)) w) /\
  pending_of c (win (exec (run_events (map Scroll ys)) w)) <> [].
Proof.
  revert w. induction ys as [|y ys IH]; intros w Hb Hs Hid Hpre.
  - split; [exact Hb|]. destruct Hpre as [Hp|Hn]; [exact Hp|congruence].
  - destruct (scroll_step_burst c L y w Hb Hs Hid) as (Hb1 & Hs1 & Hp1).
    destruct (IH _ Hb1 Hs1 Hid (or_introl Hp1)) as [Hb2 Hp2].
    unfold run_events, exec in *.
    change (forEach step (map Scroll (y :: ys)) w)
      with (bind (step (Scroll y)) (fun _ => forEach step (map Scroll ys)) w).
    unfold bind. destruct (step (Scroll y) w) as [[[]|e] w1] eqn:E; cbn [fst snd] in *.
    + split; [exact Hb2|exact Hp2].
    + split; [exact Hb1|exact Hp1].
Qed.
(** ** Properties *)

(** C2: the frame-scheduling invariant is kept by every sequence of
    browser events (scrolls, resizes, rendered frames, observer
    notifications), whatever the controllers sharing the window: every
    pending callback belongs to the controller whose [rafId] it carries,
    no two controllers share a pending handle, handles are distinct and
    below the next handle. *)
Theorem run_events_frames_inv `{Document} (es : list event) (w : world) :
  frames_inv w -> frames_inv (exec (run_events es) w).
Proof. apply keeps_forEach. intros e. apply keeps_step. Qed.

(** C1: from a world satisfying the invariant (for instance one with no
    pending frame and no [rafId] set, as the constructor leaves it), after
    any sequence of events every controller has at most one pending
    animation frame: the cancel-before-request of [onScroll] bounds the
    work to one [update] per controller per rendered frame. *)
Theorem at_most_one_pending_frame `{Document} (es : list event) (w : world) (c : obj) :
  frames_inv w -> (length (pending_of c (win (exec (run_events es) w))) <= 1)%nat.
Proof.
  intros Hw. apply frames_inv_pending_le1.
  exact (keeps_forEach step es (fun e => keeps_step e) w Hw).
Qed.

(** C3: the specification's coalescing law (section 8): for a desktop
    controller with a layer and a registered scroll listener, any
    non-empty burst of scroll events, however long and whatever the other
    controllers of the window do, leaves exactly one animation frame
    pending for it, so the next rendered frame runs its [update] once. *)
Theorem scroll_burst_one_frame `{Document} (c : obj) (cc : ProductViewParallax) (id : obj)
    (ys : list Q) (w : world) :
  frames_inv w -> scroll_listeners_onScroll (win w) ->
  heap w !! c = Some cc -> isMobile cc = false -> is_Some (image1 cc) ->
  mk_listener ev_scroll_type (bound_fn id c m_onScroll) ∈ listeners (win w) -> ys <> [] ->
  length (pending_of c (win (exec (run_events (map Scroll ys)) w))) = 1%nat.
Proof.
  intros Hw Hs Hc Hm Hi Hl Hy.
  assert (Hb : burst_inv c (listeners (win w)) w)
    by (split; [exact Hw|split; [reflexivity|exists cc; auto]]).
  destruct (scrolls_burst c _ ys w Hb Hs (ex_intro _ id Hl) (or_intror Hy)) as [(Hw' & _) Hp].
  pose proof (frames_inv_pending_le1 _ c Hw') as Hle.
  destruct (pending_of c _) as [|x [|y r]]; simpl in *; [congruence|reflexivity|lia].
Qed.

(** A disconnected observer has no target. *)
Lemma disconnect_targets (o : obj) (v : window) (ob : Host.observer) :
  observers (disconnect o v) !! o = Some ob -> ob_targets ob = [].
Proof.
  unfold disconnect. destruct (observers v !! o) as [ob0|] eqn:Ho; [|congruence].
  cbn [observers set_observers]. rewrite lookup_insert_eq. intros [= <-]. reflexivity.
Qed.

(** C17: [cleanup] leaves no scheduled work behind (the specification's
    Deactivate, section 5): after it, no animation frame of the
    controller is pending, its [rafId] and [observer] are reset, the
    observer it held observes nothing, and its layer is unclipped; only
    the listeners stay (C15). *)
Theorem cleanup_leaves_no_scheduled_work (this : obj) (c : ProductViewParallax) (w : world) :
  frames_inv w -> heap w !! this = Some c ->
  pending_of this (win (exec (cleanup this) w)) = [] /\
  heap (exec (cleanup this) w) !! this = Some (set_observer None (set_rafId None c)) /\
  (forall o ob, observer c = Some o -> observers (win (exec (cleanup this) w)) !! o = Some ob ->
     ob_targets ob = []) /\
  (forall img, image1 c = Some img -> clipPath (win (exec (cleanup this) w)) !! img = Some clip_none).
Proof.
  intros Hw Hc. unfold exec. rewrite (cleanup_run this c w Hc). cbn [snd win heap].
  split; [|split; [apply lookup_insert_eq|split]].
  - unfold pending_of. rewrite (proj1 (cleanup_win_raf c (win w))).
    apply pending_filter_none. intros [h d] Hin. exact (cancel_own_not_this w this c h d Hw Hc Hin).
  - intros o ob Ho Hob. unfold cleanup_win in Hob. rewrite Ho in Hob.
    apply (disconnect_targets o (match rafId c with Some h => cancelAnimationFrame h (win w) | None => win w end)).
    destruct (image1 c); exact Hob.
  - intros img Hi. unfold cleanup_win. rewrite Hi. cbn [clipPath set_clipPath]. apply lookup_insert_eq.
Qed.

(** ** Witnesses *)

Lemma example_world_frames_inv : frames_inv example_world.
Proof.
  assert (E : heap example_world = {[0%nat := example_ctl]}) by (vm_compute; reflexivity).
  assert (R : raf_callbacks (win example_world) = []) by reflexivity.
  split; rewrite ?R.
  - intros h c Hin. apply list_elem_of_In in Hin. contradiction.
  - intros h c d dd Hin. apply list_elem_of_In in Hin. contradiction.
  - constructor.
  - intros h c Hin. apply list_elem_of_In in Hin. contradiction.
  - intros d dd h Hd. rewrite E in Hd. apply lookup_singleton_Some in Hd as [_ <-].
    discriminate.
Qed.

Lemma run_events_frames_inv_witness :
  frames_inv example_world /\
  frames_inv (exec (@run_events example_page [Scroll 300; Scroll 400; Resize 700 800;
                                               Resize 900 800; Scroll 500; Frame]) example_world).
Proof.
  split; [exact example_world_frames_inv|].
  apply run_events_frames_inv. exact example_world_frames_inv.
Defined.

Lemma at_most_one_pending_frame_witness :
  frames_inv example_world /\
  (length (pending_of 0%nat (win (exec (@run_events example_page
     [Scroll 300; Scroll 400; Scroll 500]) example_world))) <= 1)%nat.
Proof.
  split; [exact example_world_frames_inv|].
  apply at_most_one_pending_frame. exact example_world_frames_inv.
Defined.

Lemma example_scroll_listeners : scroll_listeners_onScroll (win example_world).
Proof.
  intros l Hin Ht. apply list_elem_of_In in Hin. vm_compute in Hin.
  destruct Hin as [<-|[<-|[]]]; [eexists _, _; reflexivity|discriminate].
Qed.

Lemma scroll_burst_one_frame_witness :
  frames_inv example_world /\ scroll_listeners_onScroll (win example_world) /\
  length (pending_of 0%nat (win (exec (@run_events example_page (map Scroll [300; 400; 500]))
                                     example_world))) = 1%nat.
Proof.
  split; [exact example_world_frames_inv|split; [exact example_scroll_listeners|]].
  apply (@scroll_burst_one_frame example_page 0%nat example_ctl 1%nat);
    [exact example_world_frames_inv|exact example_scroll_listeners|exact example_world_ctl
    |reflexivity|eexists; reflexivity| |discriminate].
  apply list_elem_of_In. vm_compute. left. reflexivity.
Defined.

Lemma cleanup_leaves_no_scheduled_work_witness :
  let w := exec (@run_events example_page [Scroll 300]) example_world in
  frames_inv w /\ heap w !! 0%nat = Some (set_rafId (Some 1%positive) example_ctl) /\
  pending_of 0%nat (win (exec (cleanup 0%nat) w)) = [].
Proof.
  cbv zeta. assert (Hf : frames_inv (exec (@run_events example_page [Scroll 300]) example_world))
    by exact (keeps_forEach step _ (fun e => keeps_step e) _ example_world_frames_inv).
  assert (Hk : heap (exec (@run_events example_page [Scroll 300]) example_world) !! 0%nat =
               Some (set_rafId (Some 1%positive) example_ctl)) by (vm_compute; reflexivity).
  split; [exact Hf|split; [exact Hk|]].
  exact (proj1 (cleanup_leaves_no_scheduled_work 0%nat _ _ Hf Hk)).
Defined.

End Invariant.
