(* ===== verification/Safety.v ===== *)
(** * Well-typed worlds and the absence of uncaught exceptions

    The methods of [ProductViewParallax] throw a [TypeError] in three
    places: reading [this] when the object does not exist, and reading
    [this.section] when it is [null] (line 79 in [update], line 40 in
    [init]).  The browser calls them only through the callbacks it holds:
    the window's listeners, the animation-frame callbacks and the
    observers' callbacks.  [world_wf] is the typing invariant of the
    world: every object a callback refers to is a controller whose section
    and layer were found (it is [mounted]), each listener is a bound
    method of the kind its event type expects ([handler]), and every
    controller's identity is below the allocator.  [safe this m] is a
    total-correctness triple for a method body: from a well-typed world in
    which [this] is mounted it returns normally, into a well-typed world,
    logging nothing, and touching no other controller. *)
From S2P Require Import Prelude Progress Host Controller Invariant.
From stdpp Require Import base list gmap strings.
From Stdlib Require Import QArith ZArith String List Bool Lia.
Import ListNotations.

Module Safety.
Import Progress Host Controller Invariant.

(** The method a listener of type [t] is expected to call. *)
Definition handler (t : event_type) : method :=
  match t with ev_scroll_type => m_onScroll | ev_resize_type => m_onResize end.

(** A controller whose section and layer were found: the only kind the
    code ever subscribes (line 13). *)
Definition mounted (w : world) (k : obj) : Prop :=
  exists c, heap w !! k = Some c /\ is_Some (section c) /\ is_Some (image1 c).

(** The window holds a callback whose [this] is [k]. *)
Definition refers (v : window) (k : obj) : Prop :=
  (exists t id m, mk_listener t (bound_fn id k m) ∈ listeners v) \/
  (exists h, (h, k) ∈ raf_callbacks v) \/
  (exists o ob, observers v !! o = Some ob /\ ob_callback ob = k).

(** Every listener is a bound method of its type's handler. *)
Definition listeners_typed (v : window) : Prop :=
  forall l, l ∈ listeners v -> exists id k, l_callback l = bound_fn id k (handler (l_type l)).

Record world_wf (w : world) : Prop := {
  wf_keys : keys_below w;
  wf_typed : listeners_typed (win w);
  wf_refs : forall k, refers (win w) k -> mounted w k
}.

(** [w'] changes no controller but [this], and refers to no other
    controller [w] did not refer to. *)
Definition only_this (this : obj) (w w' : world) : Prop :=
  forall k, k <> this -> heap w' !! k = heap w !! k /\ (refers (win w') k -> refers (win w) k).

(** What a method of [this] may do: keep the world well typed, keep the
    mounted controllers mounted, log nothing, and touch no other
    controller. *)
Definition safe_result (this : obj) (w w' : world) : Prop :=
  world_wf w' /\ (forall k, mounted w k -> mounted w' k) /\
  console_errors (win w') = console_errors (win w) /\ only_this this w w'.

(** A method body that, from a well-typed world where [this] is mounted,
    returns normally with a safe result. *)
Definition safe (this : obj) (m : M unit) : Prop :=
  forall w, world_wf w -> mounted w this -> exists w', m w = (Ok (), w') /\ safe_result this w w'.

(** ** What the window operations do to the references *)

Create HintDb refs.

Lemma refers_same (v v' : window) (k : obj) :
  listeners v' = listeners v -> raf_callbacks v' = raf_callbacks v ->
  observers v' = observers v -> refers v' k -> refers v k.
Proof. unfold refers. intros -> -> ->. exact id. Qed.

Ltac refers_same_tac := intros H; eapply refers_same; [..|exact H]; reflexivity.

Lemma refers_set_clipPath e x v k : refers (set_clipPath e x v) k -> refers v k.
Proof. refers_same_tac. Qed.
Lemma refers_set_scroll y v k : refers (set_scroll y v) k -> refers v k.
Proof. refers_same_tac. Qed.
Lemma refers_set_size a b v k : refers (set_size a b v) k -> refers v k.
Proof. refers_same_tac. Qed.
Lemma refers_bump_obj v k : refers (bump_obj v) k -> refers v k.
Proof. refers_same_tac. Qed.
Lemma refers_console_error m v k : refers (console_error m v) k -> refers v k.
Proof. refers_same_tac. Qed.

Lemma refers_removeEventListener t f v k :
  refers (removeEventListener t f v) k -> refers v k.
Proof.
  intros [(t' & id & m & Hin)|Hr]; [left|right; exact Hr].
  exists t', id, m. unfold removeEventListener in Hin. simpl in Hin.
  apply list_elem_of_In, filter_In in Hin as [Hin _]. apply list_elem_of_In, Hin.
Qed.

Lemma refers_cancelAnimationFrame h v k :
  refers (cancelAnimationFrame h v) k -> refers v k.
Proof.
  intros [Hl|[(h' & Hin)|Ho]]; [left; exact Hl| |right; right; exact Ho].
  right; left. exists h'. unfold cancelAnimationFrame in Hin. simpl in Hin.
  apply list_elem_of_In, filter_In in Hin as [Hin _]. apply list_elem_of_In, Hin.
Qed.

Lemma refers_observe o e v k : refers (observe o e v) k -> refers v k.
Proof.
  unfold observe. destruct (observers v !! o) as [ob|] eqn:Ho; [|exact id].
  destruct (decide (e ∈ ob_targets ob)); [exact id|].
  intros [Hl|[Hr|(o' & ob' & Hl & Hcb)]]; [left; exact Hl|right; left; exact Hr|].
  right; right. simpl in Hl. apply lookup_insert_Some in Hl as [[<- <-]|[_ Hl]].
  - exists o, ob. split; [exact Ho|exact Hcb].
  - exists o', ob'. split; assumption.
Qed.

Lemma refers_disconnect o v k : refers (disconnect o v) k -> refers v k.
Proof.
  unfold disconnect. destruct (observers v !! o) as [ob|] eqn:Ho; [|exact id].
  intros [Hl|[Hr|(o' & ob' & Hl & Hcb)]]; [left; exact Hl|right; left; exact Hr|].
  right; right. simpl in Hl. apply lookup_insert_Some in Hl as [[<- <-]|[_ Hl]].
  - exists o, ob. split; [exact Ho|exact Hcb].
  - exists o', ob'. split; assumption.
Qed.

#[export] Hint Resolve refers_set_clipPath refers_set_scroll refers_set_size refers_bump_obj
  refers_console_error refers_removeEventListener refers_cancelAnimationFrame
  refers_observe refers_disconnect : refs.

Lemma refers_addEventListener t id this m v k :
  refers (addEventListener t (bound_fn id this m) v) k -> refers v k \/ k = this.
Proof.
  unfold addEventListener. case_decide; [left; exact H0|].
  intros [(t' & id' & m' & Hin)|Hr]; [|left; right; exact Hr].
  simpl in Hin. apply elem_of_app in Hin as [Hin|Hin].
  - left; left. exists t', id', m'. exact Hin.
  - apply list_elem_of_singleton in Hin. injection Hin as _ _ -> _. right; reflexivity.
Qed.

Lemma refers_requestAnimationFrame this v k :
  refers (snd (requestAnimationFrame this v)) k -> refers v k \/ k = this.
Proof.
  intros [Hl|[(h & Hin)|Ho]]; [left; left; exact Hl| |left; right; right; exact Ho].
  simpl in Hin. apply elem_of_app in Hin as [Hin|Hin].
  - left; right; left. exists h. exact Hin.
  - apply list_elem_of_singleton in Hin. injection Hin as _ ->. right; reflexivity.
Qed.

Lemma refers_new_IntersectionObserver this v k :
  refers (snd (new_IntersectionObserver this v)) k -> refers v k \/ k = this.
Proof.
  intros [Hl|[Hr|(o' & ob' & Hl & Hcb)]]; [left; left; exact Hl|left; right; left; exact Hr|].
  simpl in Hl. apply lookup_insert_Some in Hl as [[_ <-]|[_ Hl]].
  - right. symmetry. exact Hcb.
  - left; right; right. exists o', ob'. split; assumption.
Qed.

(** ** What the window operations do to the types of the listeners *)

Lemma listeners_typed_same (v v' : window) :
  listeners v' = listeners v -> listeners_typed v -> listeners_typed v'.
Proof. unfold listeners_typed. intros ->. exact id. Qed.

Lemma listeners_typed_removeEventListener t f v :
  listeners_typed v -> listeners_typed (removeEventListener t f v).
Proof.
  intros Hv l Hin. apply Hv. unfold removeEventListener in Hin. simpl in Hin.
  apply list_elem_of_In, filter_In in Hin as [Hin _]. apply list_elem_of_In, Hin.
Qed.

Lemma listeners_typed_addEventListener t id this v :
  listeners_typed v -> listeners_typed (addEventListener t (bound_fn id this (handler t)) v).
Proof.
  intros Hv l Hin. unfold addEventListener in Hin. case_decide; [exact (Hv l Hin)|].
  simpl in Hin. apply elem_of_app in Hin as [Hin|Hin]; [exact (Hv l Hin)|].
  apply list_elem_of_singleton in Hin. subst l. exists id, this. reflexivity.
Qed.

(** ** Window changes that keep the callbacks typed *)

(** [v'] comes from [v] without releasing object identities, keeps the
    listeners typed, refers to nothing new but [this], and logs nothing. *)
Definition win_ok (this : obj) (v v' : window) : Prop :=
  (next_obj v <= next_obj v')%nat /\ (listeners_typed v -> listeners_typed v') /\
  (forall k, refers v' k -> refers v k \/ k = this) /\ console_errors v' = console_errors v.

Lemma win_ok_refl (this : obj) (v : window) : win_ok this v v.
Proof. split; [lia|split; [exact id|split; [intros k H; left; exact H|reflexivity]]]. Qed.

Lemma win_ok_step (this : obj) (v v' v'' : window) :
  win_ok this v v' -> (next_obj v' <= next_obj v'')%nat ->
  (listeners_typed v' -> listeners_typed v'') ->
  (forall k, refers v'' k -> refers v' k \/ k = this) ->
  console_errors v'' = console_errors v' -> win_ok this v v''.
Proof.
  intros (Hn & Ht & Hr & Hc) Hn' Ht' Hr' Hc'. split; [lia|split; [tauto|split; [|congruence]]].
  intros k Hk. destruct (Hr' k Hk) as [Hk' | ->]; [exact (Hr k Hk')|right; reflexivity].
Qed.

(** [win_op_tac] proves [win_ok this v (op v')] from [win_ok this v v']. *)
Ltac win_op_tac :=
  intros ?; eapply win_ok_step; [eassumption
  | autorewrite with host_rw; cbn [next_obj set_scroll set_size bump_obj requestAnimationFrame set_raf snd]; lia
  | first [apply listeners_typed_same; autorewrite with host_rw; reflexivity
          | apply listeners_typed_removeEventListener
          | apply listeners_typed_addEventListener]
  | intros k0 Hk0; first [solve [left; eauto with refs]
      | exact (refers_addEventListener _ _ _ _ _ _ Hk0)
      | exact (refers_requestAnimationFrame _ _ _ Hk0)]
  | autorewrite with host_rw; reflexivity].

Section Ops.
Variables (this : obj) (v : window).

Lemma win_ok_set_clipPath v' e x : win_ok this v v' -> win_ok this v (set_clipPath e x v').
Proof. win_op_tac. Qed.
Lemma win_ok_set_scroll v' y : win_ok this v v' -> win_ok this v (set_scroll y v').
Proof. win_op_tac. Qed.
Lemma win_ok_set_size v' a b : win_ok this v v' -> win_ok this v (set_size a b v').
Proof. win_op_tac. Qed.
Lemma win_ok_bump_obj v' : win_ok this v v' -> win_ok this v (bump_obj v').
Proof. win_op_tac. Qed.
Lemma win_ok_removeEventListener v' t f :
  win_ok this v v' -> win_ok this v (removeEventListener t f v').
Proof. win_op_tac. Qed.
Lemma win_ok_cancelAnimationFrame v' h :
  win_ok this v v' -> win_ok this v (cancelAnimationFrame h v').
Proof. win_op_tac. Qed.
Lemma win_ok_observe v' o e : win_ok this v v' -> win_ok this v (observe o e v').
Proof. win_op_tac. Qed.
Lemma win_ok_disconnect v' o : win_ok this v v' -> win_ok this v (disconnect o v').
Proof. win_op_tac. Qed.
Lemma win_ok_addEventListener v' t id :
  win_ok this v v' -> win_ok this v (addEventListener t (bound_fn id this (handler t)) v').
Proof. win_op_tac. Qed.
Lemma win_ok_requestAnimationFrame v' :
  win_ok this v v' -> win_ok this v (snd (requestAnimationFrame this v')).
Proof. win_op_tac. Qed.
Lemma win_ok_new_IntersectionObserver v' :
  win_ok this v v' -> win_ok this v (snd (new_IntersectionObserver this v')).
Proof.
  intros H. eapply win_ok_step; [exact H|simpl; lia
  | apply listeners_typed_same; reflexivity | apply refers_new_IntersectionObserver | reflexivity].
Qed.

End Ops.

Create HintDb win_ok.
#[export] Hint Resolve win_ok_refl win_ok_set_clipPath win_ok_set_scroll win_ok_set_size
  win_ok_bump_obj win_ok_removeEventListener win_ok_cancelAnimationFrame win_ok_observe
  win_ok_disconnect win_ok_requestAnimationFrame win_ok_new_IntersectionObserver : win_ok.
#[export] Hint Extern 1 (win_ok ?this _ (addEventListener ?t (bound_fn _ ?this ?m) _)) =>
  change m with (handler t); apply win_ok_addEventListener : win_ok.

(** The windows the method bodies compute. *)
Lemma win_ok_cleanup_win (this : obj) (c : ProductViewParallax) (v : window) :
  win_ok this v (cleanup_win c v).
Proof.
  unfold cleanup_win. destruct (image1 c), (observer c), (rafId c); eauto 10 with win_ok.
Qed.

Lemma win_ok_onScroll_win (this : obj) (c : ProductViewParallax) (v : window) :
  win_ok this v (onScroll_win this c v).
Proof. unfold onScroll_win. destruct (rafId c); eauto 10 with win_ok. Qed.

Lemma win_ok_init_win `{Document} (this : obj) (s img : elem) (v : window) :
  win_ok this v (init_win this s img v).
Proof.
  unfold init_win. destruct (has_IntersectionObserver v); eauto 10 with win_ok.
Qed.

(** ** Safe results *)

Lemma safe_result_refl (this : obj) (w : world) : world_wf w -> safe_result this w w.
Proof. intros Hw. split; [exact Hw|split; [exact (fun _ H => H)|split; [reflexivity|]]]. intros k _. tauto. Qed.

Lemma safe_result_trans (this : obj) (w1 w2 w3 : world) :
  safe_result this w1 w2 -> safe_result this w2 w3 -> safe_result this w1 w3.
Proof.
  intros (_ & Hm1 & Hc1 & Ho1) (Hw3 & Hm2 & Hc2 & Ho2).
  split; [exact Hw3|split; [auto|split; [congruence|]]].
  intros k Hk. destruct (Ho1 k Hk) as [E1 R1], (Ho2 k Hk) as [E2 R2]. split; [congruence|tauto].
Qed.

(** A method's effect: the window changed by [win_ok], the heap changed
    at [this] only, keeping its section and layer. *)
Lemma safe_result_intro (this : obj) (w : world) (v' : window) (hp' : gmap obj ProductViewParallax) :
  world_wf w -> mounted w this -> win_ok this (win w) v' ->
  (forall k, k <> this -> hp' !! k = heap w !! k) ->
  (forall c, heap w !! this = Some c -> exists c', hp' !! this = Some c' /\
     section c' = section c /\ image1 c' = image1 c) ->
  safe_result this w (mkWorld v' hp').
Proof.
  intros [Hk Ht Hr] Hthis (Hn & Ht' & Hr' & Hc) Hother Hsame.
  assert (Hmono : forall k, mounted w k -> mounted (mkWorld v' hp') k).
  { intros k (c & Hkc & Hs & Hi). destruct (decide (k = this)) as [->|Hne].
    - destruct (Hsame c Hkc) as (c' & Hc' & Es & Ei). exists c'. rewrite Es, Ei. auto.
    - exists c. cbn [heap]. rewrite (Hother k Hne). auto. }
  split; [split|split; [exact Hmono|split; [exact Hc|]]].
  - intros k Hsk. cbn [heap win] in *. destruct (decide (k = this)) as [->|Hne].
    + destruct Hthis as (c & Hc0 & _). assert (Hs0 : is_Some (heap w !! this)) by (rewrite Hc0; eauto). specialize (Hk this Hs0). lia.
    + unfold obj in *. rewrite (Hother k Hne) in Hsk. specialize (Hk k Hsk). lia.
  - exact (Ht' Ht).
  - intros k Hk'. apply Hmono. destruct (Hr' k Hk') as [Hk'' | ->]; [exact (Hr k Hk'')|exact Hthis].
  - intros k Hne. split; [exact (Hother k Hne)|]. intros Hk'.
    destruct (Hr' k Hk') as [Hk'' | ->]; [exact Hk''|congruence].
Qed.

Lemma safe_result_win (this : obj) (w : world) (v' : window) :
  world_wf w -> mounted w this -> win_ok this (win w) v' -> safe_result this w (mkWorld v' (heap w)).
Proof.
  intros Hw Hm Hv. apply safe_result_intro; [assumption..| |]; [reflexivity|].
  intros c Hc. exists c. auto.
Qed.

Lemma safe_result_set (this : obj) (w : world) (v' : window) (c c' : ProductViewParallax) :
  world_wf w -> mounted w this -> win_ok this (win w) v' -> heap w !! this = Some c ->
  section c' = section c -> image1 c' = image1 c ->
  safe_result this w (mkWorld v' (<[this := c']> (heap w))).
Proof.
  intros Hw Hm Hv Hc Es Ei. apply safe_result_intro; [assumption..| |].
  - intros k Hne. apply lookup_insert_ne. congruence.
  - intros c0 Hc0. rewrite Hc in Hc0. injection Hc0 as <-. exists c'.
    rewrite lookup_insert_eq. auto.
Qed.

(** A safe body run after a safe prefix. *)
Lemma safe_after (this : obj) (m : M unit) (w w1 : world) :
  mounted w this -> safe_result this w w1 -> safe this m ->
  exists w', m w1 = (Ok (), w') /\ safe_result this w w'.
Proof.
  intros Hm H1 Hs. destruct (Hs w1 (proj1 H1) (proj1 (proj2 H1) this Hm)) as (w' & Hrun & H2).
  exists w'. split; [exact Hrun|]. exact (safe_result_trans this w w1 w' H1 H2).
Qed.

(** ** The combinators *)

Lemma safe_ret (this : obj) : safe this (mret ()).
Proof. intros w Hw _. exists w. split; [reflexivity|apply safe_result_refl, Hw]. Qed.

Lemma safe_bind (this : obj) (m : M unit) (k : unit -> M unit) :
  safe this m -> (forall u, safe this (k u)) -> safe this (u ← m; k u).
Proof.
  intros Hm Hk w Hw Hthis. destruct (Hm w Hw Hthis) as (w1 & Hrun & H1).
  destruct (safe_after this (k ()) w w1 Hthis H1 (Hk ())) as (w2 & Hrun2 & H2).
  exists w2. unfold mbind, js_bind, bind. rewrite Hrun. split; [exact Hrun2|exact H2].
Qed.

Lemma safe_forEach {A} (this : obj) (f : A -> M unit) (l : list A) :
  (forall x, safe this (f x)) -> safe this (forEach f l).
Proof.
  intros Hf. induction l as [|x l IH]; simpl; [apply safe_ret|].
  apply safe_bind; [apply Hf|intros _; exact IH].
Qed.

(** ** The methods *)

Section Methods.
Context `{Document}.

Lemma safe_update (this : obj) : safe this (update this).
Proof.
  intros w Hw Hm. destruct Hm as (c & Hc & [s Hs] & [img Hi]).
  destruct (isMobile c) eqn:Hmob.
  - exists w. rewrite (update_noop this c w Hc (or_intror Hmob)).
    split; [reflexivity|apply safe_result_refl, Hw].
  - rewrite (update_run this c img s w Hc Hi Hs Hmob). eexists. split; [reflexivity|].
    apply safe_result_win; [exact Hw|exists c; eauto|eauto with win_ok].
Qed.

Lemma safe_onScroll (this : obj) : safe this (onScroll this).
Proof.
  intros w Hw Hm. pose proof Hm as (c & Hc & _ & Hi).
  destruct (isMobile c) eqn:Hmob.
  - exists w. rewrite (onScroll_noop this c w Hc (or_introl Hmob)).
    split; [reflexivity|apply safe_result_refl, Hw].
  - rewrite (onScroll_run this c w Hc Hmob Hi). eexists. split; [reflexivity|].
    apply (safe_result_set this w _ c); try reflexivity; [exact Hw|exact Hm|apply win_ok_onScroll_win|exact Hc].
Qed.

Lemma safe_cleanup (this : obj) : safe this (cleanup this).
Proof.
  intros w Hw Hm. pose proof Hm as (c & Hc & _).
  rewrite (cleanup_run this c w Hc). eexists. split; [reflexivity|].
  apply (safe_result_set this w _ c); try reflexivity; [exact Hw|exact Hm|apply win_ok_cleanup_win|exact Hc].
Qed.

(** [init] runs on a desktop controller, whose section and layer exist. *)
Lemma init_safe (this : obj) (c : ProductViewParallax) (s img : elem) (w : world) :
  world_wf w -> heap w !! this = Some c -> section c = Some s -> image1 c = Some img ->
  isMobile c = false -> exists w', init this w = (Ok (), w') /\ safe_result this w w'.
Proof.
  intros Hw Hc Hs Hi Hmob. assert (Hm : mounted w this) by (exists c; rewrite Hs, Hi; eauto).
  rewrite (init_run this c s img w Hc Hs Hi Hmob). eexists. split; [reflexivity|].
  destruct (has_IntersectionObserver (win w)).
  - apply (safe_result_set this w _ c); try reflexivity; [exact Hw|exact Hm|apply win_ok_init_win|exact Hc].
  - apply safe_result_win; [exact Hw|exact Hm|apply win_ok_init_win].
Qed.

Lemma safe_onResize (this : obj) : safe this (onResize this).
Proof.
  intros w Hw Hm. pose proof Hm as (c & Hc & [s Hs] & [img Hi]).
  set (w1 b := mkWorld (win w) (<[this := set_isMobile b c]> (heap w))).
  assert (H1 : forall b, safe_result this w (w1 b)).
  { intros b. apply (safe_result_set this w _ c); try reflexivity; [exact Hw|exact Hm|apply win_ok_refl|exact Hc]. }
  destruct (isMobile c) eqn:Hmob, (is_mobile_width (innerWidth (win w))) eqn:Hwd.
  - rewrite (onResize_same this c w Hc ltac:(congruence)), Hmob.
    exact (safe_after this _ w (w1 true) Hm (H1 true) (safe_update this)).
  - rewrite (onResize_to_desktop this c s img w Hc Hmob Hs Hi Hwd).
    destruct (init_safe this (set_isMobile false c) s img (w1 false) (proj1 (H1 false)))
      as (w' & Hrun & H2); try (simpl; rewrite ?lookup_insert_eq; assumption || reflexivity).
    exists w'. split; [exact Hrun|exact (safe_result_trans this w _ w' (H1 false) H2)].
  - rewrite (onResize_to_mobile this c w Hc Hmob Hwd).
    exact (safe_after this _ w (w1 true) Hm (H1 true) (safe_cleanup this)).
  - rewrite (onResize_same this c w Hc ltac:(congruence)), Hmob.
    exact (safe_after this _ w (w1 false) Hm (H1 false) (safe_update this)).
Qed.

Lemma safe_set_isActive (this : obj) (b : bool) : safe this (this_set this (set_isActive b)).
Proof.
  intros w Hw Hm. pose proof Hm as (c & Hc & _). eexists.
  split; [unfold this_set; rewrite Hc; reflexivity|].
  apply (safe_result_set this w _ c); try reflexivity; [exact Hw|exact Hm|apply win_ok_refl|exact Hc].
Qed.

Lemma safe_on_intersection (this : obj) (entries : list bool) :
  safe this (on_intersection this entries).
Proof.
  apply safe_forEach. intros b. apply safe_bind; [apply safe_set_isActive|intros _].
  destruct b; [apply safe_update|apply safe_ret].
Qed.

Lemma safe_call_listener (id this : obj) (t : event_type) :
  safe this (call_listener (bound_fn id this (handler t))).
Proof. destruct t; [apply safe_onScroll|apply safe_onResize]. Qed.

End Methods.

(** ** Events *)

(** The controllers of [w] that no callback refers to are unchanged, and
    still unreferenced, in [w']. *)
Definition unref_kept (w w' : world) : Prop :=
  forall k, is_Some (heap w !! k) -> ~ refers (win w) k ->
    heap w' !! k = heap w !! k /\ ~ refers (win w') k.

(** What the browser's handling of an event may do, from [w0]. *)
Definition calm (w0 w : world) : Prop :=
  world_wf w /\ console_errors (win w) = console_errors (win w0) /\ unref_kept w0 w /\
  (forall k, mounted w0 k -> mounted w k).

Lemma unref_kept_refl (w : world) : unref_kept w w.
Proof. intros k _ Hk. auto. Qed.

Lemma unref_kept_trans (w1 w2 w3 : world) : unref_kept w1 w2 -> unref_kept w2 w3 -> unref_kept w1 w3.
Proof.
  intros Hu1 Hu2 k Hk Hr. destruct (Hu1 k Hk Hr) as [E1 R1].
  destruct (Hu2 k ltac:(rewrite E1; exact Hk) R1) as [E2 R2]. split; [congruence|exact R2].
Qed.

Lemma calm_refl (w : world) : world_wf w -> calm w w.
Proof. intros Hw. split; [exact Hw|split; [reflexivity|split; [apply unref_kept_refl|auto]]]. Qed.

Lemma calm_trans (w1 w2 w3 : world) : calm w1 w2 -> calm w2 w3 -> calm w1 w3.
Proof.
  intros (_ & Hc1 & Hu1 & Hm1) (Hw3 & Hc2 & Hu2 & Hm2).
  split; [exact Hw3|split; [congruence|split; [exact (unref_kept_trans _ _ _ Hu1 Hu2)|auto]]].
Qed.

(** A change of the window alone that holds for every [this] keeps the
    world well typed and calm. *)
Lemma calm_win (w0 w : world) (v' : window) :
  calm w0 w -> (forall this, win_ok this (win w) v') -> calm w0 (mkWorld v' (heap w)).
Proof.
  intros ([Hk Ht Hr] & Hc & Hu & Hm) Hv.
  assert (Hr' : forall k, refers v' k -> refers (win w) k).
  { intros k Hk'. destruct (proj1 (proj2 (proj2 (Hv (S k)))) k Hk') as [H0|H0]; [exact H0|lia]. }
  destruct (Hv O) as (Hn & Ht' & _ & Hc').
  split; [split|split; [cbn [win]; congruence|split; [|exact Hm]]].
  - intros k Hsk. specialize (Hk k Hsk). cbn [win]. lia.
  - exact (Ht' Ht).
  - intros k Hk'. exact (Hr k (Hr' k Hk')).
  - intros k Hsk Hnr. destruct (Hu k Hsk Hnr) as [E R]. split; [exact E|]. cbn [win].
    intros Hk'. exact (R (Hr' k Hk')).
Qed.

(** The result of a method whose [this] was referred to by [w0]. *)
Lemma calm_method (w0 w w' : world) (this : obj) :
  calm w0 w -> refers (win w0) this -> safe_result this w w' -> calm w0 w'.
Proof.
  intros (_ & Hc & Hu & Hm) Hthis (Hw' & Hm' & Hc' & Ho).
  split; [exact Hw'|split; [congruence|split; [|auto]]].
  intros k Hsk Hnr. destruct (Hu k Hsk Hnr) as [E R].
  assert (Hne : k <> this) by (intros ->; exact (Hnr Hthis)).
  destruct (Ho k Hne) as [E' R']. split; [congruence|tauto].
Qed.

(** A safe method of a controller [w0] referred to, run as a callback:
    it returns normally, so [report] logs nothing. *)
Lemma calm_call (w0 w : world) (this : obj) (m : M unit) :
  world_wf w0 -> calm w0 w -> refers (win w0) this -> safe this m -> calm w0 (exec (report m) w).
Proof.
  intros Hw0 Hc Hthis Hs. pose proof Hc as (Hw & _ & _ & Hm).
  destruct (Hs w Hw (Hm this (wf_refs w0 Hw0 this Hthis))) as (w' & Hrun & Hr).
  unfold exec, report, try_catch. rewrite Hrun. exact (calm_method w0 w w' this Hc Hthis Hr).
Qed.

Lemma exec_gets_bind {A B} (g : window -> A) (k : A -> M B) (w : world) :
  exec (x ← win_gets g; k x) w = exec (k (g (win w))) w.
Proof. reflexivity. Qed.

Lemma exec_modify_bind {B} (f : window -> window) (k : unit -> M B) (w : world) :
  exec (u ← win_modify f; k u) w = exec (k ()) (mkWorld (f (win w)) (heap w)).
Proof. reflexivity. Qed.

Lemma preserves_forEach_in (P : world -> Prop) {A} (f : A -> M unit) (l : list A) :
  (forall x, x ∈ l -> preserves P (f x)) -> preserves P (forEach f l).
Proof.
  induction l as [|x l IH]; intros Hf; simpl; [intros w Hw; exact Hw|].
  apply preserves_bind; [apply Hf; left|intros _; apply IH; intros y Hy; apply Hf; right; exact Hy].
Qed.

Section Events.
Context `{Document}.

Lemma calm_dispatch (t : event_type) (w : world) : world_wf w -> calm w (exec (dispatch t) w).
Proof.
  intros Hw. unfold dispatch. rewrite exec_gets_bind.
  apply (preserves_forEach_in (calm w)); [|apply calm_refl, Hw].
  intros l Hl w1 Hc. rewrite exec_gets_bind.
  destruct (bool_decide (l ∈ listeners (win w1))); [|exact Hc].
  apply list_elem_of_In, filter_In in Hl as [Hl _]. apply list_elem_of_In in Hl.
  destruct (wf_typed w Hw l Hl) as (id & k & Hcb). rewrite Hcb.
  apply (calm_call w w1 k); [exact Hw|exact Hc| |apply safe_call_listener].
  left. exists (l_type l), id, (handler (l_type l)). rewrite <- Hcb. destruct l; exact Hl.
Qed.

Lemma calm_run_frame (w : world) : world_wf w -> calm w (exec run_frame w).
Proof.
  intros Hw. unfold run_frame. rewrite exec_gets_bind.
  apply (preserves_forEach_in (calm w)); [|apply calm_refl, Hw].
  intros [h k] Hp w1 Hc. rewrite exec_gets_bind.
  destruct (existsb _ _); [|exact Hc]. rewrite exec_modify_bind.
  apply (calm_call w _ k); [exact Hw| |right; left; exists h; exact Hp|apply safe_update].
  apply calm_win; [exact Hc|intros this; eauto with win_ok].
Qed.

Lemma calm_deliver (o : obj) (w : world) : world_wf w -> calm w (exec (deliver o) w).
Proof.
  intros Hw. unfold deliver. rewrite exec_gets_bind.
  destruct (observers (win w) !! o) as [ob|] eqn:Ho; [|apply calm_refl, Hw].
  destruct (bool_decide _); [apply calm_refl, Hw|]. rewrite exec_gets_bind.
  apply (calm_call w w (ob_callback ob)); [exact Hw|apply calm_refl, Hw| |apply safe_on_intersection].
  right; right. exists o, ob. split; [exact Ho|reflexivity].
Qed.

(** The window change that starts a scroll or a resize, then the
    dispatch. *)
Lemma calm_win_dispatch (f : window -> window) (t : event_type) (w : world) :
  world_wf w -> (forall this v, win_ok this v (f v)) ->
  calm w (exec (win_modify f ;; dispatch t) w).
Proof.
  intros Hw Hf. rewrite exec_modify_bind.
  assert (H1 : calm w (mkWorld (f (win w)) (heap w)))
    by (apply (calm_win w w); [apply calm_refl, Hw|intros this; apply Hf]).
  exact (calm_trans w _ _ H1 (calm_dispatch t _ (proj1 H1))).
Qed.

Lemma calm_step (e : event) (w0 : world) : preserves (calm w0) (step e).
Proof.
  intros w Hc. pose proof (proj1 Hc) as Hw. apply (calm_trans w0 w); [exact Hc|].
  destruct e as [y|wd ht| |o]; simpl;
    [apply calm_win_dispatch; [exact Hw|eauto with win_ok]..|apply calm_run_frame, Hw|apply calm_deliver, Hw].
Qed.

Lemma calm_run_events (es : list event) (w : world) : world_wf w -> calm w (exec (run_events es) w).
Proof. intros Hw. apply (preserves_forEach (calm w)); [intros e; apply calm_step|apply calm_refl, Hw]. Qed.

End Events.

(** ** Construction *)

Lemma world_wf_empty (v : window) :
  listeners v = [] -> raf_callbacks v = [] -> observers v = ∅ -> world_wf (mkWorld v ∅).
Proof.
  intros Hl Hr Ho. split.
  - intros k Hk. cbn [heap] in Hk. rewrite lookup_empty in Hk. destruct Hk; discriminate.
  - intros l Hin. cbn [win] in Hin. rewrite Hl in Hin. apply not_elem_of_nil in Hin as [].
  - intros k [(t & id & m & Hin)|[(h & Hin)|(o & ob & Hob & _)]]; cbn [win] in *.
    + rewrite Hl in Hin. apply not_elem_of_nil in Hin as [].
    + rewrite Hr in Hin. apply not_elem_of_nil in Hin as [].
    + rewrite Ho, lookup_empty in Hob. discriminate.
Qed.

Lemma mounted_insert_fresh (w : world) (v : window) (n : obj) (c : ProductViewParallax) (k : obj) :
  heap w !! n = None -> mounted w k -> mounted (mkWorld v (<[n := c]> (heap w))) k.
Proof.
  intros Hn (c' & Hk & Hs). exists c'. cbn [heap]. rewrite lookup_insert_ne; [auto|].
  intros ->. congruence.
Qed.

(** The world right after [this] is allocated and its record stored. *)
Lemma calm_alloc (w : world) (c : ProductViewParallax) :
  world_wf w -> calm w (mkWorld (bump_obj (win w)) (<[next_obj (win w) := c]> (heap w))).
Proof.
  intros Hw. pose proof Hw as [Hk Ht Hr]. set (n := next_obj (win w)).
  assert (Hn : heap w !! n = None) by (apply eq_None_not_Some; intros Hs; specialize (Hk n Hs); lia).
  assert (Hne : forall k, is_Some (heap w !! k) -> k <> n) by (intros k Hs ->; rewrite Hn in Hs; destruct Hs; discriminate).
  split; [split|split; [reflexivity|split]].
  - intros k Hs. cbn [heap win] in *. rewrite next_obj_bump_obj. unfold obj in *.
    apply lookup_insert_is_Some in Hs as [<-|[_ Hs]]; [lia|specialize (Hk k Hs); lia].
  - exact Ht.
  - intros k Hk'. apply (mounted_insert_fresh w _ n c k Hn), Hr, refers_bump_obj, Hk'.
  - intros k Hs Hnr. cbn [heap win]. rewrite lookup_insert_ne by (apply not_eq_sym, Hne, Hs).
    split; [reflexivity|intros Hk'; exact (Hnr (refers_bump_obj _ _ Hk'))].
  - intros k Hk'. apply (mounted_insert_fresh w _ n c k Hn Hk').
Qed.

(** [init] of the fresh controller [n]: the others are untouched. *)
Lemma calm_fresh (w w1 w2 : world) (n : obj) :
  calm w w1 -> heap w !! n = None -> safe_result n w1 w2 -> calm w w2.
Proof.
  intros (_ & Hc & Hu & Hm) Hn (Hw2 & Hm2 & Hc2 & Ho).
  split; [exact Hw2|split; [congruence|split; [|auto]]].
  intros k Hs Hnr. destruct (Hu k Hs Hnr) as [E R].
  assert (Hne : k <> n) by (intros ->; rewrite Hn in Hs; destruct Hs; discriminate).
  destruct (Ho k Hne) as [E' R']. split; [congruence|tauto].
Qed.

Section Construct.
Context `{Document}.

(** [new ProductViewParallax(sid)] keeps the world calm however it ends,
    and throws only the exception of the selector. *)
Lemma calm_construct (sid : string) (w : world) :
  world_wf w -> calm w (snd (construct sid w)) /\
  (forall e, fst (construct sid w) = Throw e -> querySelector_section sid = Throw e).
Proof.
  intros Hw. destruct (querySelector_section sid) as [sec|e] eqn:Hq.
  - rewrite (construct_ok sid sec w Hq). cbv zeta.
    set (c := fresh_ctl sid sec (innerWidth (win w))).
    pose proof (calm_alloc w c Hw) as H1.
    assert (Hn : heap w !! next_obj (win w) = None)
      by (apply eq_None_not_Some; intros Hs; specialize (wf_keys w Hw _ Hs); lia).
    destruct (ctl_activates c) eqn:Ha.
    + destruct (ctl_activates_true c Ha) as (s & img & Hs & Hi & Hm).
      destruct (init_safe (next_obj (win w)) c s img _ (proj1 H1)) as (w2 & Hrun & H2);
        [cbn [heap]; apply lookup_insert_eq|assumption..|].
      rewrite Hrun. split; [exact (calm_fresh w _ w2 _ H1 Hn H2)|discriminate].
    + split; [exact H1|discriminate].
  - rewrite (construct_throw sid e w Hq). split; [|simpl; congruence].
    apply (calm_win w w _ (calm_refl w Hw)). intros this. eauto with win_ok.
Qed.

End Construct.

(** ** Fixtures *)

Lemma empty_world_wf (width : Z) (height : Q) : world_wf (mkWorld (fresh_window width height) ∅).
Proof. apply world_wf_empty; reflexivity. Qed.

Lemma example_world_wf : world_wf example_world.
Proof. exact (proj1 (proj1 (@calm_construct example_page "main" _ (empty_world_wf 800 800)))). Qed.

(** A controller built in a mobile window, and no callback refers to it. *)
Lemma construct_mobile_unreferenced `{Document} (sid : string) (w w1 : world) (k : obj) :
  world_wf w -> is_mobile_width (innerWidth (win w)) = true -> construct sid w = (Ok k, w1) ->
  k = next_obj (win w) /\ world_wf w1 /\ ~ refers (win w1) k /\
  heap w1 !! k = Some (fresh_ctl sid (match querySelector_section sid with Ok s => s | Throw _ => None end)
                                 (innerWidth (win w))).
Proof.
  intros Hw Hmob Hc. destruct (querySelector_section sid) as [sec|e] eqn:Hq;
    [|rewrite (construct_throw sid e w Hq) in Hc; discriminate].
  rewrite (construct_ok sid sec w Hq) in Hc. cbv zeta in Hc.
  assert (Ha : ctl_activates (fresh_ctl sid sec (innerWidth (win w))) = false)
    by (unfold ctl_activates, fresh_ctl; cbn [isMobile]; rewrite Hmob, andb_false_r; reflexivity).
  rewrite Ha in Hc. injection Hc as <- <-.
  pose proof (calm_alloc w (fresh_ctl sid sec (innerWidth (win w))) Hw) as H1.
  split; [reflexivity|split; [exact (proj1 H1)|split]].
  - intros Hr. destruct (wf_refs w Hw _ (refers_bump_obj _ _ Hr)) as (c & Hk & _).
    assert (Hs : is_Some (heap w !! next_obj (win w))) by (rewrite Hk; eauto).
    specialize (wf_keys w Hw _ Hs). lia.
  - cbn [heap]. apply lookup_insert_eq.
Qed.

(** ** Properties *)

Section Properties.
Context `{Document}.

(** C9: the typing invariant holds in every world the browser reaches:
    after any sequence of scrolls, resizes, frames and observer
    notifications from a well-typed world, every listener is a bound
    [onScroll] for ['scroll'] or a bound [onResize] for ['resize'], and
    every listener, frame callback and observer calls a controller whose
    section and layer exist. *)
Theorem run_events_world_wf (es : list event) (w : world) :
  world_wf w -> world_wf (exec (run_events es) w).
Proof. intros Hw. exact (proj1 (calm_run_events es w Hw)). Qed.

(** C8: no callback ever throws: from a well-typed world, whatever the
    events, no "Uncaught exception" reaches the console, which is left
    exactly as it was. *)
Theorem run_events_no_uncaught_exception (es : list event) (w : world) :
  world_wf w -> console_errors (win (exec (run_events es) w)) = console_errors (win w).
Proof. intros Hw. exact (proj1 (proj2 (calm_run_events es w Hw))). Qed.

(** C12: a controller constructed while the viewport is at most 749px
    wide never activates: whatever the scrolls, resizes (to desktop
    widths included), frames and notifications that follow, its record
    stays the one the constructor built, mobile, inactive, with no frame
    and no observer, because line 13 skips [init] and nothing else
    subscribes it. *)
Theorem mobile_construction_never_activates (sid : string) (w w1 : world) (k : obj)
    (es : list event) :
  world_wf w -> is_mobile_width (innerWidth (win w)) = true -> construct sid w = (Ok k, w1) ->
  exists c, heap (exec (run_events es) w1) !! k = Some c /\
    isMobile c = true /\ isActive c = false /\ rafId c = None /\ observer c = None.
Proof.
  intros Hw Hmob Hc. destruct (construct_mobile_unreferenced sid w w1 k Hw Hmob Hc) as (_ & Hw1 & Hnr & Hk).
  eexists. split.
  - rewrite <- Hk. exact (proj1 (proj1 (proj2 (proj2 (calm_run_events es w1 Hw1))) k
                                     ltac:(rewrite Hk; eauto) Hnr)).
  - unfold fresh_ctl. cbn. rewrite Hmob. auto.
Qed.

(** C20: the constructor keeps the world well typed however it ends, and
    the only exception it raises is the one of the selector of line 7:
    [init] never throws on the controllers line 13 lets through. *)
Theorem construct_well_typed (sid : string) (w : world) :
  world_wf w -> world_wf (snd (construct sid w)) /\
  (forall e, fst (construct sid w) = Throw e -> querySelector_section sid = Throw e).
Proof.
  intros Hw. destruct (calm_construct sid w Hw) as [Hc He]. exact (conj (proj1 Hc) He).
Qed.

End Properties.

(** ** Witnesses *)

Lemma run_events_world_wf_witness :
  world_wf (exec (@run_events example_page [Scroll 100; Frame; Resize 700 800; Resize 900 800])
                 example_world).
Proof. apply run_events_world_wf. exact example_world_wf. Defined.

Lemma run_events_no_uncaught_exception_witness :
  console_errors (win (exec (@run_events example_page
     [Scroll 100; Frame; Resize 700 800; Scroll 300; Resize 900 800; Frame; Intersect 3%nat]) example_world))
  = [].
Proof.
  rewrite (run_events_no_uncaught_exception _ _ example_world_wf). reflexivity.
Defined.

Lemma mobile_construction_never_activates_witness :
  exists c, heap (exec (@run_events example_page [Resize 1000 800; Scroll 120; Frame; Intersect 3%nat])
                       example_world_mobile) !! 0%nat = Some c /\
    isMobile c = true /\ isActive c = false /\ rafId c = None /\ observer c = None.
Proof.
  apply (@mobile_construction_never_activates example_page "main" (mkWorld (fresh_window 700 800) ∅));
    [apply empty_world_wf|reflexivity|reflexivity].
Defined.

Lemma construct_well_typed_witness :
  world_wf (snd (@construct example_page "bad id" example_world)) /\
  querySelector_section (Document := example_page) "bad id" = Throw SyntaxError.
Proof.
  split; [apply (construct_well_typed "bad id" example_world example_world_wf)|reflexivity].
Defined.

End Safety.
