(* ===== verification/Render.v ===== *)
(** * Rendering: what a frame does

    [onScroll] (lines 44-57) does not update the layer: it cancels the
    pending animation frame and requests a new one whose callback calls
    [update] (line 55).  This file holds the reasoning on event traces
    the later files share (computations that never throw, [exec] of a
    [forEach] item by item) and proves the liveness of the frame: a
    rendered frame serves every pending request, so none is left
    pending after it, whatever the world.  The equivalence of deferred
    with synchronous rendering is in [Coalesce]. *)
From S2P Require Import Prelude Progress Host Controller Invariant Safety.
From stdpp Require Import base list gmap strings.
From Stdlib Require Import QArith ZArith String List Bool Lia.
Import ListNotations.

Module Render.
Import Progress Host Controller Invariant Safety.

(** ** Computations that never throw *)

(** [m] returns normally from every world. *)
Definition returns (m : M unit) : Prop := forall w, fst (m w) = Ok ().

Lemma returns_ret : returns (mret ()).
Proof. intros w. reflexivity. Qed.

Lemma returns_report (m : M unit) : returns (report m).
Proof. intros w. unfold report, try_catch. destruct (m w) as [[[]|e] w']; reflexivity. Qed.

Lemma exec_report_returns (m : M unit) (w : world) : returns m -> exec (report m) w = exec m w.
Proof. intros Hm. specialize (Hm w). unfold exec, report, try_catch. destruct (m w) as [[[]|e] w']; [reflexivity|discriminate]. Qed.

(** A [try]/[catch] whose handler logs returns normally. *)
Lemma returns_try_log (m : M unit) (f : window -> window) :
  returns (try_catch m (fun _ => win_modify f)).
Proof. intros w. unfold try_catch. destruct (m w) as [[[]|e] w']; reflexivity. Qed.

Lemma returns_gets_bind {A} (g : window -> A) (k : A -> M unit) :
  (forall a, returns (k a)) -> returns (x ← win_gets g; k x).
Proof. intros Hk w. exact (Hk _ w). Qed.

Lemma returns_modify_bind (f : window -> window) (k : unit -> M unit) :
  (forall u, returns (k u)) -> returns (u ← win_modify f; k u).
Proof. intros Hk w. exact (Hk () _). Qed.

Lemma returns_forEach {A} (f : A -> M unit) (l : list A) :
  (forall x, returns (f x)) -> returns (forEach f l).
Proof.
  intros Hf. induction l as [|x l IH]; [exact returns_ret|]. intros w. simpl.
  unfold mbind, js_bind, bind. specialize (Hf x w). destruct (f x w) as [[[]|e] w']; [apply IH|discriminate].
Qed.

Lemma exec_forEach_cons {A} (f : A -> M unit) (x : A) (l : list A) (w : world) :
  returns (f x) -> exec (forEach f (x :: l)) w = exec (forEach f l) (exec (f x) w).
Proof.
  intros Hf. specialize (Hf w). unfold exec. simpl. unfold mbind, js_bind, bind.
  destruct (f x w) as [[[]|e] w']; [reflexivity|discriminate].
Qed.

Lemma exec_forEach_app {A} (f : A -> M unit) (l1 l2 : list A) (w : world) :
  (forall x, returns (f x)) -> exec (forEach f (l1 ++ l2)) w = exec (forEach f l2) (exec (forEach f l1) w).
Proof.
  intros Hf. revert w. induction l1 as [|x l1 IH]; intros w; [reflexivity|].
  simpl app. rewrite !exec_forEach_cons by apply Hf. apply IH.
Qed.

Lemma exec_forEach_cons_run {A} (f : A -> M unit) (x : A) (l : list A) (w w' : world) :
  f x w = (Ok (), w') -> exec (forEach f (x :: l)) w = exec (forEach f l) w'.
Proof. intros E. unfold exec. simpl. unfold mbind, js_bind, bind. rewrite E. reflexivity. Qed.

Section Events.
Context `{Document}.

Lemma returns_dispatch_one (l : listener) : returns (dispatch_one l).
Proof. apply returns_gets_bind. intros []; [apply returns_report|apply returns_ret]. Qed.

Lemma returns_dispatch (t : event_type) : returns (dispatch t).
Proof.
  apply returns_gets_bind. intros ls. apply returns_forEach. intros l.
  apply returns_gets_bind. intros []; [apply returns_report|apply returns_ret].
Qed.

(** One callback of a frame: removed, then run, unless cancelled. *)
Definition frame_item (p : positive * obj) : M unit :=
  present ← win_gets (fun v => existsb (fun q => Pos.eqb (fst q) (fst p)) (raf_callbacks v));
  if (present : bool)
  then win_modify (cancelAnimationFrame (fst p)) ;; report (update (snd p))
  else mret ().

Lemma run_frame_items : run_frame = (cbs ← win_gets raf_callbacks; forEach frame_item cbs).
Proof. reflexivity. Qed.

Lemma returns_frame_item (p : positive * obj) : returns (frame_item p).
Proof.
  apply returns_gets_bind. intros [];
    [apply returns_modify_bind; intros _; apply returns_report|apply returns_ret].
Qed.

Lemma returns_step (e : event) : returns (step e).
Proof.
  destruct e as [y|wd ht| |o]; simpl.
  - apply returns_modify_bind. intros _. apply returns_dispatch.
  - apply returns_modify_bind. intros _. apply returns_dispatch.
  - rewrite run_frame_items. apply returns_gets_bind. intros cbs. apply returns_forEach, returns_frame_item.
  - unfold deliver. apply returns_gets_bind. intros [ob|]; [|apply returns_ret].
    destruct (bool_decide _); [apply returns_ret|]. apply returns_gets_bind. intros entries. apply returns_report.
Qed.

Lemma stable_report_update (this : obj) : stable (report (update this)).
Proof.
  apply stable_try_catch; [apply stable_update|intros _].
  apply stable_win_modify. intros v. split; reflexivity.
Qed.

(** The callbacks pending after one item of a frame are among the
    callbacks not yet visited. *)
Lemma frame_item_pending (p : positive * obj) (rest : list (positive * obj)) (w : world) :
  (forall q, q ∈ raf_callbacks (win w) -> q ∈ p :: rest) ->
  forall q, q ∈ raf_callbacks (win (exec (frame_item p) w)) -> q ∈ rest.
Proof.
  intros Hw q. unfold frame_item. rewrite exec_gets_bind.
  destruct (existsb _ (raf_callbacks (win w))) eqn:Hp.
  - rewrite exec_modify_bind. rewrite (proj1 (stable_report_update (snd p) _)). cbn [win].
    intros Hq. unfold cancelAnimationFrame in Hq. simpl in Hq.
    apply list_elem_of_In, filter_In in Hq as [Hq Hne]. apply list_elem_of_In in Hq.
    apply Hw in Hq. apply elem_of_cons in Hq as [->|Hq]; [|exact Hq].
    rewrite Pos.eqb_refl in Hne. discriminate.
  - intros Hq. pose proof (Hw q Hq) as Hq'. apply elem_of_cons in Hq' as [->|Hq']; [|exact Hq'].
    apply list_elem_of_In in Hq. exfalso.
    assert (Hx : existsb (fun q => Pos.eqb (fst q) (fst p)) (raf_callbacks (win w)) = true)
      by (apply existsb_exists; exists p; split; [exact Hq|apply Pos.eqb_refl]).
    congruence.
Qed.

Lemma frame_items_drain (cbs : list (positive * obj)) (w : world) :
  (forall q, q ∈ raf_callbacks (win w) -> q ∈ cbs) ->
  raf_callbacks (win (exec (forEach frame_item cbs) w)) = [].
Proof.
  revert w. induction cbs as [|p rest IH]; intros w Hw.
  - change (raf_callbacks (win w) = []). destruct (raf_callbacks (win w)) as [|q l] eqn:E; [reflexivity|].
    exfalso. apply (not_elem_of_nil q), Hw. left.
  - rewrite exec_forEach_cons by apply returns_frame_item.
    apply IH. apply frame_item_pending. exact Hw.
Qed.

End Events.


(** ** Properties *)

(** C11: liveness of rendering: a rendered frame serves every pending
    request and returns.  Whatever the world (any number of controllers,
    stale handles, callbacks cancelled meanwhile), the frame never lets
    an exception escape to the event loop, and after it no
    animation-frame callback is left pending: each callback pending when
    the frame starts has been removed and run, or was cancelled, and the
    callbacks run ([update], line 55) request none. *)
Theorem frame_serves_all_requests `{Document} :
  returns run_frame /\ forall w, raf_callbacks (win (exec run_frame w)) = [].
Proof.
  rewrite run_frame_items. split; [apply returns_gets_bind; intros; apply returns_forEach, returns_frame_item|].
  intros w. rewrite exec_gets_bind. apply frame_items_drain. auto.
Qed.


(** ** Witnesses *)

Lemma frame_serves_all_requests_witness :
  raf_callbacks (win (exec (@run_frame example_page)
     (exec (@run_events example_page [Scroll 100; Scroll 200]) example_world))) = [].
Proof. apply frame_serves_all_requests. Defined.

End Render.
