(* ===== verification/Leak.v ===== *)
(** * The listener leak over a whole trace

    [cleanup] (lines 114-131) removes the prototype methods while [init]
    (lines 18-42) registered fresh bound functions, so no listener is ever
    removed (C15) and each switch back to desktop adds two (C19).  This
    file follows the browser's event loop through [n] round trips of the
    viewport through the 749px breakpoint on a page with one controller:
    every listener of the window keeps running (the resize dispatch calls
    them all, the first switching the mode and the others finding it
    unchanged), and the window ends with exactly [2 * n] more listeners
    than it started with. *)
From S2P Require Import Prelude Progress Host Controller Invariant Safety Render.
From stdpp Require Import base list gmap strings.
From Stdlib Require Import QArith ZArith String List Bool Lia.
Import ListNotations.

Module Leak.
Import Progress Host Controller Invariant Safety Render.

(** [n] round trips of the viewport width to [wm] and back to [wd], at
    height [h]. *)
Fixpoint round_trips (n : nat) (wm wd : Z) (h : Q) : list event :=
  match n with
  | O => []
  | S k => Resize wm h :: Resize wd h :: round_trips k wm wd h
  end.

Lemma set_isMobile_same (c : ProductViewParallax) : set_isMobile (isMobile c) c = c.
Proof. destruct c; reflexivity. Qed.

Lemma cleanup_win_fields (c : ProductViewParallax) (v : window) :
  next_obj (cleanup_win c v) = next_obj v /\ innerWidth (cleanup_win c v) = innerWidth v /\
  scrollY (cleanup_win c v) = scrollY v.
Proof.
  unfold cleanup_win. destruct (image1 c), (observer c), (rafId c); autorewrite with host_rw; auto.
Qed.

Lemma init_win_next_obj2 `{Document} (this : obj) (s img : elem) (v : window) :
  (S (S (next_obj v)) <= next_obj (init_win this s img v))%nat /\
  innerWidth (init_win this s img v) = innerWidth v.
Proof.
  unfold init_win. destruct (has_IntersectionObserver v);
    unfold new_IntersectionObserver; simpl; autorewrite with host_rw; simpl;
    autorewrite with host_rw; split; first [lia|reflexivity].
Qed.

(** [cleanup] unclips the layer; [init] writes the clip [update]
    computes, in the same viewport. *)
Lemma cleanup_win_clip (c : ProductViewParallax) (img : elem) (v : window) :
  image1 c = Some img -> clipPath (cleanup_win c v) = <[img := clip_none]> (clipPath v).
Proof.
  intros Hi. unfold cleanup_win. rewrite Hi.
  destruct (rafId c), (observer c); autorewrite with host_rw; reflexivity.
Qed.

Lemma init_win_view `{Document} (this : obj) (s img : elem) (v : window) :
  innerWidth (init_win this s img v) = innerWidth v /\ innerHeight (init_win this s img v) = innerHeight v /\
  scrollY (init_win this s img v) = scrollY v /\
  clipPath (init_win this s img v) = <[img := progress_clip v s]> (clipPath v).
Proof.
  unfold init_win. destruct (has_IntersectionObserver v); unfold new_IntersectionObserver; cbn [snd];
    autorewrite with host_rw; (split; [reflexivity|split; [reflexivity|split; [reflexivity|]]]);
    f_equal; apply progress_clip_ext; autorewrite with host_rw; reflexivity.
Qed.

Section Leak.
Context `{Document}.
Variables (this : obj) (s img : elem).

(** The only controller is [this], whose section and layer are [s] and
    [img], in mode [b]. *)
Definition sole (b : bool) (w : world) : Prop :=
  exists c, heap w = {[this := c]} /\ section c = Some s /\ image1 c = Some img /\ isMobile c = b.

(** With one controller, every listener is a bound method of [this]. *)
Lemma sole_listener (b : bool) (w : world) (l : listener) :
  world_wf w -> sole b w -> l ∈ listeners (win w) ->
  exists id, l_callback l = bound_fn id this (handler (l_type l)).
Proof.
  intros Hw (c & Hh & _) Hl. destruct (wf_typed _ Hw l Hl) as (id & k & Hcb). exists id.
  destruct (wf_refs _ Hw k) as (cc & Hk & _).
  - left. exists (l_type l), id, (handler (l_type l)). rewrite <- Hcb. destruct l; exact Hl.
  - rewrite Hh in Hk. apply lookup_singleton_Some in Hk as [-> _]. exact Hcb.
Qed.

(** The resize listeners of a mobile controller that stays mobile. *)
Lemma items_mobile (ls : list listener) (w : world) :
  (forall l, l ∈ ls -> exists id, l_callback l = bound_fn id this m_onResize) ->
  sole true w -> is_mobile_width (innerWidth (win w)) = true ->
  exec (forEach dispatch_one ls) w = w.
Proof.
  intros Hls Hsole Hwd. induction ls as [|l ls IH]; [reflexivity|].
  rewrite exec_forEach_cons by apply returns_dispatch_one.
  assert (E : exec (dispatch_one l) w = w).
  { destruct Hsole as (c & Hh & _ & _ & Hm). destruct (Hls l (list_elem_of_here _ _)) as (id & Hcb).
    unfold dispatch_one. rewrite exec_gets_bind. destruct (bool_decide _); [|reflexivity].
    rewrite Hcb. unfold exec, report, try_catch. simpl call_listener.
    rewrite (onResize_same_mobile this c w) by (rewrite ?Hh; first [apply lookup_singleton_eq|assumption]).
    reflexivity. }
  rewrite E. apply IH. intros l' Hl'. apply Hls. right. exact Hl'.
Qed.

(** A resize listener of a desktop controller that stays desktop runs
    [update], if it is still registered. *)
Lemma dispatch_one_desktop (l : listener) (id : obj) (w : world) :
  l_callback l = bound_fn id this m_onResize -> sole false w ->
  is_mobile_width (innerWidth (win w)) = false ->
  exec (dispatch_one l) w = w \/
  exec (dispatch_one l) w = mkWorld (set_clipPath img (progress_clip (win w) s) (win w)) (heap w).
Proof.
  intros Hcb (c & Hh & Hs' & Hi' & Hm) Hwd.
  unfold dispatch_one. rewrite exec_gets_bind. destruct (bool_decide _); [right|left; reflexivity].
  rewrite Hcb. unfold exec, report, try_catch. simpl call_listener.
  assert (Hk : heap w !! this = Some c) by (rewrite Hh; apply lookup_singleton_eq).
  rewrite (onResize_same this c w Hk ltac:(congruence)), Hm.
  rewrite (update_run this (set_isMobile false c) img s) by
    (cbn [heap]; first [apply lookup_insert_eq|destruct c; cbn in *; congruence]).
  cbn [fst snd win heap]. rewrite <- Hm, set_isMobile_same, insert_id by exact Hk. reflexivity.
Qed.

(** The resize listeners of a desktop controller that stays desktop,
    when its layer already has the clip [update] computes: nothing
    changes. *)
Lemma items_desktop_current (ls : list listener) (w : world) :
  (forall l, l ∈ ls -> exists id, l_callback l = bound_fn id this m_onResize) ->
  sole false w -> is_mobile_width (innerWidth (win w)) = false ->
  clipPath (win w) !! img = Some (progress_clip (win w) s) ->
  exec (forEach dispatch_one ls) w = w.
Proof.
  intros Hls Hsole Hwd Hc. induction ls as [|l ls IH]; [reflexivity|].
  rewrite exec_forEach_cons by apply returns_dispatch_one.
  destruct (Hls l (list_elem_of_here _ _)) as (id & Hcb).
  assert (E : exec (dispatch_one l) w = w).
  { destruct (dispatch_one_desktop l id w Hcb Hsole Hwd) as [E|E]; rewrite E; [reflexivity|].
    rewrite set_clipPath_current by exact Hc. destruct w; reflexivity. }
  rewrite E. apply IH. intros l' Hl'. apply Hls. right. exact Hl'.
Qed.

(** What a round trip keeps. *)
Definition leaky (w : world) : Prop :=
  world_wf w /\ sole false w /\ listener_ids_fresh (win w) /\
  exists l, l ∈ listeners (win w) /\ l_type l = ev_resize_type.

(** The resize listeners, all bound [onResize] of [this], and not empty. *)
Lemma resize_listeners (b : bool) (w : world) :
  world_wf w -> sole b w -> (exists l, l ∈ listeners (win w) /\ l_type l = ev_resize_type) ->
  exists l ls, List.filter (fun l => bool_decide (l_type l = ev_resize_type)) (listeners (win w)) = l :: ls /\
    l ∈ listeners (win w) /\
    forall l', l' ∈ l :: ls -> exists id, l_callback l' = bound_fn id this m_onResize.
Proof.
  intros Hw Hsole (l0 & Hl0 & Ht0).
  assert (Hall : forall l', l' ∈ List.filter (fun l => bool_decide (l_type l = ev_resize_type)) (listeners (win w)) ->
            l' ∈ listeners (win w) /\ exists id, l_callback l' = bound_fn id this m_onResize).
  { intros l' Hl'. apply list_elem_of_In, filter_In in Hl' as [Hl' Ht]. apply bool_decide_eq_true in Ht.
    apply list_elem_of_In in Hl'. split; [exact Hl'|].
    destruct (sole_listener b w l' Hw Hsole Hl') as (id & Hcb). rewrite Ht in Hcb. exists id. exact Hcb. }
  destruct (List.filter _ (listeners (win w))) as [|l ls] eqn:E.
  - exfalso. assert (Hin : In l0 (List.filter (fun l => bool_decide (l_type l = ev_resize_type)) (listeners (win w))))
      by (apply filter_In; split; [apply list_elem_of_In, Hl0|apply bool_decide_eq_true, Ht0]).
    rewrite E in Hin. exact Hin.
  - exists l, ls. split; [reflexivity|]. split; [exact (proj1 (Hall l (list_elem_of_here _ _)))|].
    intros l' Hl'. exact (proj2 (Hall l' Hl')).
Qed.

(** The first [Resize] of a round trip: the first resize listener runs
    [cleanup], which removes nothing, and the others find the mode
    unchanged. *)
Lemma to_mobile_step (wm : Z) (h : Q) (w : world) :
  world_wf w -> sole false w -> (exists l, l ∈ listeners (win w) /\ l_type l = ev_resize_type) ->
  is_mobile_width wm = true ->
  sole true (exec (step (Resize wm h)) w) /\
  listeners (win (exec (step (Resize wm h)) w)) = listeners (win w) /\
  next_obj (win (exec (step (Resize wm h)) w)) = next_obj (win w) /\
  scrollY (win (exec (step (Resize wm h)) w)) = scrollY (win w) /\
  clipPath (win (exec (step (Resize wm h)) w)) = <[img := clip_none]> (clipPath (win w)).
Proof.
  intros Hw Hsole Hr Hwm. simpl step. rewrite exec_modify_bind.
  set (w1 := mkWorld (set_size wm h (win w)) (heap w)).
  assert (Hw1 : world_wf w1)
    by exact (proj1 (calm_win w w _ (calm_refl w Hw) (fun t => win_ok_set_size t _ _ _ _ (win_ok_refl t _)))).
  destruct (resize_listeners false w1 Hw1 Hsole Hr) as (l & ls & E & Hl & Hall).
  rewrite dispatch_unfold, exec_gets_bind, E, exec_forEach_cons by apply returns_dispatch_one.
  destruct Hsole as (c & Hh & Hs' & Hi' & Hm).
  destruct (Hall l (list_elem_of_here _ _)) as (id & Hcb).
  assert (Hk : heap w1 !! this = Some c) by (change (heap w !! this = Some c); rewrite Hh; apply lookup_singleton_eq).
  assert (Hnp : forall l' m, l' ∈ listeners (win w1) -> l_callback l' <> proto_fn m).
  { intros l' m Hl'. destruct (wf_typed _ Hw1 l' Hl') as (id' & k' & ->). discriminate. }
  set (c1 := set_observer None (set_rafId None (set_isMobile true c))).
  assert (E1 : exec (dispatch_one l) w1 = mkWorld (cleanup_win (set_isMobile true c) (win w1)) {[this := c1]}).
  { unfold dispatch_one. rewrite exec_gets_bind, bool_decide_true by exact Hl.
    rewrite Hcb. unfold exec, report, try_catch. simpl call_listener.
    rewrite (onResize_to_mobile this c w1 Hk Hm Hwm).
    rewrite (cleanup_run this (set_isMobile true c)) by apply lookup_insert_eq.
    cbn [fst snd]. unfold w1. cbn [win heap]. rewrite Hh, insert_insert_eq, insert_singleton_eq. reflexivity. }
  rewrite E1.
  assert (Hsole1 : sole true (mkWorld (cleanup_win (set_isMobile true c) (win w1)) {[this := c1]}))
    by (exists c1; split; [reflexivity|]; destruct c; cbn in *; auto).
  destruct (cleanup_win_fields (set_isMobile true c) (win w1)) as (En & Ew & Ey).
  rewrite (items_mobile ls _ (fun l' Hl' => Hall l' (list_elem_of_further _ _ _ Hl')) Hsole1)
    by (cbn [win]; rewrite Ew; exact Hwm).
  split; [exact Hsole1|]. cbn [win].
  rewrite (cleanup_win_listeners _ _ Hnp), En, Ey, (cleanup_win_clip _ img) by (destruct c; cbn in *; exact Hi').
  auto.
Qed.

(** The second [Resize]: the first resize listener runs [init], which
    appends two fresh listeners; the others, including those [init]
    appended, run [update] or are not in the snapshot. *)
Lemma to_desktop_step (wd : Z) (h : Q) (w : world) :
  world_wf w -> sole true w -> (exists l, l ∈ listeners (win w) /\ l_type l = ev_resize_type) ->
  listener_ids_fresh (win w) -> is_mobile_width wd = false ->
  sole false (exec (step (Resize wd h)) w) /\
  listeners (win (exec (step (Resize wd h)) w)) = listeners (win w) ++
    [mk_listener ev_scroll_type (bound_fn (next_obj (win w)) this m_onScroll);
     mk_listener ev_resize_type (bound_fn (S (next_obj (win w))) this m_onResize)] /\
  (S (S (next_obj (win w))) <= next_obj (win (exec (step (Resize wd h)) w)))%nat /\
  clipPath (win (exec (step (Resize wd h)) w)) =
    <[img := progress_clip (set_size wd h (win w)) s]> (clipPath (win w)).
Proof.
  intros Hw Hsole Hr Hf Hwd. simpl step. rewrite exec_modify_bind.
  set (w1 := mkWorld (set_size wd h (win w)) (heap w)).
  assert (Hw1 : world_wf w1)
    by exact (proj1 (calm_win w w _ (calm_refl w Hw) (fun t => win_ok_set_size t _ _ _ _ (win_ok_refl t _)))).
  destruct (resize_listeners true w1 Hw1 Hsole Hr) as (l & ls & E & Hl & Hall).
  rewrite dispatch_unfold, exec_gets_bind, E, exec_forEach_cons by apply returns_dispatch_one.
  destruct Hsole as (c & Hh & Hs' & Hi' & Hm).
  destruct (Hall l (list_elem_of_here _ _)) as (id & Hcb).
  assert (Hk : heap w1 !! this = Some c) by (change (heap w !! this = Some c); rewrite Hh; apply lookup_singleton_eq).
  set (c1 := set_isMobile false c).
  set (c2 := if has_IntersectionObserver (win w1) then set_observer (Some (S (S (next_obj (win w1))))) c1 else c1).
  assert (E1 : exec (dispatch_one l) w1 = mkWorld (init_win this s img (win w1)) {[this := c2]}).
  { unfold dispatch_one. rewrite exec_gets_bind, bool_decide_true by exact Hl.
    rewrite Hcb. unfold exec, report, try_catch. simpl call_listener.
    rewrite (onResize_to_desktop this c s img w1 Hk Hm Hs' Hi' Hwd).
    rewrite (init_run this c1 s img) by
      (first [apply lookup_insert_eq|destruct c; cbn in *; congruence]).
    cbn [fst snd]. unfold c2, w1. cbn [win heap]. rewrite Hh, insert_singleton_eq.
    destruct (has_IntersectionObserver _); [rewrite insert_singleton_eq|]; reflexivity. }
  rewrite E1.
  assert (Hsole1 : sole false (mkWorld (init_win this s img (win w1)) {[this := c2]}))
    by (exists c2; split; [reflexivity|]; unfold c2, c1; destruct (has_IntersectionObserver _);
        destruct c; cbn in *; auto).
  destruct (init_win_next_obj2 this s img (win w1)) as [En Ew].
  destruct (init_win_view this s img (win w1)) as (Vw & Vh & Vy & Vc).
  rewrite (items_desktop_current ls _ (fun l' Hl' => Hall l' (list_elem_of_further _ _ _ Hl')) Hsole1);
    cbn [win]; [|rewrite Ew; exact Hwd|].
  - split; [exact Hsole1|]. split; [exact (init_win_listeners this s img (win w1) Hf)|].
    split; [exact En|]. rewrite Vc. reflexivity.
  - rewrite Vc, lookup_insert_eq, (progress_clip_ext (win w1) (init_win this s img (win w1))) by assumption.
    reflexivity.
Qed.

(** One round trip through the breakpoint: two more listeners. *)
Lemma round_trip (wm wd : Z) (h : Q) (w : world) :
  leaky w -> is_mobile_width wm = true -> is_mobile_width wd = false ->
  leaky (exec (run_events [Resize wm h; Resize wd h]) w) /\
  length (listeners (win (exec (run_events [Resize wm h; Resize wd h]) w))) =
    (length (listeners (win w)) + 2)%nat /\
  clipPath (win (exec (run_events [Resize wm h; Resize wd h]) w)) =
    <[img := progress_clip (set_size wd h (win w)) s]> (clipPath (win w)).
Proof.
  intros (Hw & Hsole & Hf & Hr) Hwm Hwd.
  pose proof (proj1 (calm_run_events [Resize wm h; Resize wd h] w Hw)) as Hw'.
  unfold run_events in *. rewrite !exec_forEach_cons in * by apply returns_step.
  change (exec (forEach step []) ?x) with x in *.
  destruct (to_mobile_step wm h w Hw Hsole Hr Hwm) as (Hs1 & Hl1 & Hn1 & Hy1 & Hc1).
  pose proof (proj1 (calm_step (Resize wm h) w w (calm_refl w Hw))) as Hw1.
  set (w1 := exec (step (Resize wm h)) w) in *.
  assert (Hr1 : exists l, l ∈ listeners (win w1) /\ l_type l = ev_resize_type) by (rewrite Hl1; exact Hr).
  assert (Hf1 : listener_ids_fresh (win w1))
    by (intros l id k m Hl; rewrite Hl1 in Hl; rewrite Hn1; exact (Hf l id k m Hl)).
  destruct (to_desktop_step wd h w1 Hw1 Hs1 Hr1 Hf1 Hwd) as (Hs2 & Hl2 & Hn2 & Hc2).
  split; [split; [exact Hw'|split; [exact Hs2|split]]|split].
  - intros l id k m Hl Hcb. rewrite Hl2 in Hl. apply elem_of_app in Hl as [Hl|Hl].
    + specialize (Hf1 l id k m Hl Hcb). lia.
    + apply elem_of_cons in Hl as [->|Hl]; [injection Hcb as <- _ _; lia|].
      apply list_elem_of_singleton in Hl as ->. injection Hcb as <- _ _. lia.
  - destruct Hr1 as (l & Hl & Ht). exists l. rewrite Hl2. split; [apply elem_of_app; left; exact Hl|exact Ht].
  - rewrite Hl2, length_app, Hl1. reflexivity.
  - rewrite Hc2, Hc1, insert_insert_eq. f_equal. apply progress_clip_ext; [reflexivity|reflexivity|exact Hy1].
Qed.

(** C16: the listener leak is unbounded: on a page with one desktop
    controller, every round trip of the viewport through the breakpoint
    ([Resize] to a mobile width, then back to a desktop width) leaves two
    more window listeners, so after [n] round trips the window holds
    [2 * n] listeners more than before, all of them still dispatched to
    the controller. *)
Theorem round_trips_leak_listeners (n : nat) (wm wd : Z) (h : Q) (w : world) :
  world_wf w -> sole false w -> listener_ids_fresh (win w) ->
  (exists l, l ∈ listeners (win w) /\ l_type l = ev_resize_type) ->
  is_mobile_width wm = true -> is_mobile_width wd = false ->
  length (listeners (win (exec (run_events (round_trips n wm wd h)) w))) =
    (length (listeners (win w)) + 2 * n)%nat.
Proof.
  intros Hw Hsole Hf Hr Hwm Hwd. assert (Hl : leaky w) by (split; auto).
  clear Hw Hsole Hf Hr. revert w Hl. induction n as [|n IH]; intros w Hl; [rewrite Nat.mul_0_r, Nat.add_0_r; reflexivity|].
  change (round_trips (S n) wm wd h) with ([Resize wm h; Resize wd h] ++ round_trips n wm wd h).
  unfold run_events in *. rewrite exec_forEach_app by apply returns_step.
  destruct (round_trip wm wd h w Hl Hwm Hwd) as (Hl' & Hlen & _). unfold run_events in *.
  rewrite (IH _ Hl'), Hlen. lia.
Qed.

(** C21: leaving desktop mode and coming back restores the rendering.  On
    a page with one desktop controller, a resize to a mobile width unclips
    the layer ([cleanup], line 129), and the resize back to a desktop
    width writes the clip [update] computes in the new viewport ([init],
    line 24), the other listeners leaving it as it is.  So a round trip
    back to the same viewport gives back the clips the page had, when the
    layer's clip was up to date. *)
Theorem mode_round_trip_restores_clip (wm wd : Z) (h : Q) (w : world) :
  world_wf w -> sole false w -> listener_ids_fresh (win w) ->
  (exists l, l ∈ listeners (win w) /\ l_type l = ev_resize_type) ->
  is_mobile_width wm = true -> is_mobile_width wd = false ->
  clipPath (win (exec (step (Resize wm h)) w)) = <[img := clip_none]> (clipPath (win w)) /\
  clipPath (win (exec (run_events [Resize wm h; Resize wd h]) w)) =
    <[img := progress_clip (set_size wd h (win w)) s]> (clipPath (win w)) /\
  (innerWidth (win w) = wd -> innerHeight (win w) = h ->
   clipPath (win w) !! img = Some (progress_clip (win w) s) ->
   clipPath (win (exec (run_events [Resize wm h; Resize wd h]) w)) = clipPath (win w)).
Proof.
  intros Hw Hsole Hf Hr Hwm Hwd.
  destruct (to_mobile_step wm h w Hw Hsole Hr Hwm) as (_ & _ & _ & _ & Hc1).
  destruct (round_trip wm wd h w (conj Hw (conj Hsole (conj Hf Hr))) Hwm Hwd) as (_ & _ & Hc).
  split; [exact Hc1|]. split; [exact Hc|]. intros Ew Eh Ec. rewrite Hc.
  rewrite (progress_clip_ext (win w) (set_size wd h (win w)))
    by (cbn [innerWidth innerHeight scrollY set_size]; congruence).
  apply insert_id. exact Ec.
Qed.

End Leak.

(** ** Witness *)

Lemma example_world_ids_fresh : listener_ids_fresh (win example_world).
Proof.
  intros l id k m Hl Hcb. apply list_elem_of_In in Hl. vm_compute in Hl.
  destruct Hl as [<-|[<-|[]]]; injection Hcb as <- _ _; vm_compute; lia.
Qed.

Lemma round_trips_leak_listeners_witness :
  length (listeners (win (exec (@run_events example_page (round_trips 3 700 900 800)) example_world))) = 8%nat.
Proof.
  rewrite (round_trips_leak_listeners 0%nat 1%positive 2%positive 3 700 900 800 example_world
             example_world_wf).
  - vm_compute. reflexivity.
  - exists example_ctl. split; [vm_compute; reflexivity|auto].
  - exact example_world_ids_fresh.
  - exists (mk_listener ev_resize_type (bound_fn 2%nat 0%nat m_onResize)). split; [|reflexivity].
    apply list_elem_of_In. vm_compute. auto.
  - reflexivity.
  - reflexivity.
Defined.

Lemma mode_round_trip_restores_clip_witness :
  clipPath (win (exec (@run_events example_page [Resize 700 800; Resize 800 800]) example_world)) =
  clipPath (win example_world).
Proof.
  refine (proj2 (proj2 (mode_round_trip_restores_clip 0%nat 1%positive 2%positive 700 800 800 example_world
            example_world_wf _ example_world_ids_fresh _ eq_refl eq_refl)) eq_refl eq_refl _).
  - exists example_ctl. split; [vm_compute; reflexivity|auto].
  - exists (mk_listener ev_resize_type (bound_fn 2%nat 0%nat m_onResize)). split; [|reflexivity].
    apply list_elem_of_In. vm_compute. auto.
  - vm_compute. reflexivity.
Defined.

End Leak.
