(* ===== verification/Coalesce.v ===== *)
(** * Frame coalescing against synchronous rendering, on any page

    [onScroll] (lines 44-57) defers [update] to the next animation frame
    and cancels the frame requested before.  The reference it is compared
    with is the naive handler, [sync_onScroll]: the same guard, then
    [update] at once (lines 50-56 replaced by [this.update()]), dispatched
    by the same event loop ([sync_scroll]).  On any page, with any number
    of controllers, duplicates sharing one layer included (the 500ms
    rescan builds them, C27), a burst of scrolls followed by a rendered
    frame leaves every layer's clip as the naive handler does.

    The proof computes both sides as a sequence of writes to the clip
    map ([paints]: the clip [update] of each controller writes, in
    order), and relates them by three laws of such sequences: a later
    sequence with the same layers overwrites an earlier one
    ([paints_overwrite]); dropping the earlier writes of a controller that
    writes last changes nothing ([paints_req]); and the order of the
    frame callbacks is the order in which the last scroll requested
    them. *)
From S2P Require Import Prelude Progress Host Controller Invariant Safety Render.
From stdpp Require Import base list gmap strings.
From Stdlib Require Import QArith ZArith String List Bool Lia.
Import ListNotations.

Module Coalesce.
Import Progress Host Controller Invariant Safety Render.

(** ** The reference: a scroll handler that updates at once *)

Section Reference.
Context `{Document}.

(** [onScroll] with the frame deferral of lines 50-56 replaced by a
    direct call of [update]. *)
Definition sync_onScroll (this : obj) : M unit :=
  c ← this_get this;
  if isMobile c || negb (bool_decide (is_Some (image1 c))) then mret () else update this.

Definition sync_listener (f : js_fn) : M unit :=
  match f with
  | bound_fn _ this m_onScroll => sync_onScroll this
  | _ => call_listener f
  end.

Definition sync_dispatch_one (l : listener) : M unit :=
  present ← win_gets (fun v => bool_decide (l ∈ listeners v));
  if (present : bool) then report (sync_listener (l_callback l)) else mret ().

(** A scroll to [y] handled by the naive listeners, dispatched as
    [dispatch] does. *)
Definition sync_scroll (y : Q) : M unit :=
  win_modify (set_scroll y) ;;
  ls ← win_gets (fun v => List.filter (fun l => bool_decide (l_type l = ev_scroll_type)) (listeners v));
  forEach sync_dispatch_one ls.

End Reference.

(** ** Sequences of clip writes *)

Implicit Types (hp : gmap obj ProductViewParallax) (m : gmap elem clip) (k : obj) (ks : list obj).

(** The layer and the section [update] of a controller reads, when it
    writes a clip: a desktop controller with both. *)
Definition ctl_target (oc : option ProductViewParallax) : option (elem * elem) :=
  match oc with
  | Some c =>
      match image1 c with
      | Some img => if isMobile c then None else
                    match section c with Some s => Some (img, s) | None => None end
      | None => None
      end
  | None => None
  end.

Definition target hp k : option (elem * elem) := ctl_target (hp !! k).

(** The write of [update] of [k] in window [v]. *)
Definition paint `{Document} (v : window) hp m k : gmap elem clip :=
  match target hp k with
  | Some (img, s) => <[img := progress_clip v s]> m
  | None => m
  end.

Definition paints `{Document} (v : window) hp ks m : gmap elem clip := foldl (paint v hp) m ks.

(** The layer [k] writes. *)
Definition layer hp k : option elem := fst <$> target hp k.

(** The last write to layer [e] of a sequence. *)
Fixpoint last_paint `{Document} (v : window) hp ks (e : elem) : option clip :=
  match ks with
  | [] => None
  | k :: ks' =>
      match last_paint v hp ks' e with
      | Some x => Some x
      | None => match target hp k with
                | Some (img, s) => if decide (img = e) then Some (progress_clip v s) else None
                | None => None
                end
      end
  end.

(** The fields [update] reads do not change when [rafId] does. *)
Definition shape hp : gmap obj ProductViewParallax := set_rafId None <$> hp.

Section Paints.
Context `{Document}.

Lemma paints_app (v : window) hp ks ks' m :
  paints v hp (ks ++ ks') m = paints v hp ks' (paints v hp ks m).
Proof. unfold paints. apply foldl_app. Qed.

Lemma paints_lookup (v : window) hp ks m e :
  paints v hp ks m !! e = match last_paint v hp ks e with Some x => Some x | None => m !! e end.
Proof.
  revert m. induction ks as [|k ks IH]; intros m; [reflexivity|].
  cbn [paints foldl last_paint]. fold (paints v hp ks (paint v hp m k)). rewrite IH.
  destruct (last_paint v hp ks e); [reflexivity|]. unfold paint.
  destruct (target hp k) as [[img s]|]; [|reflexivity].
  case_decide as E; [subst; apply lookup_insert_eq|apply lookup_insert_ne; exact E].
Qed.

Lemma last_paint_None (v : window) hp ks e :
  last_paint v hp ks e = None <-> forall k, k ∈ ks -> layer hp k <> Some e.
Proof.
  induction ks as [|k ks IH]; cbn [last_paint].
  - split; [intros _ k Hk; apply not_elem_of_nil in Hk as []|reflexivity].
  - destruct (last_paint v hp ks e) as [x|] eqn:El.
    + split; [discriminate|]. intros Hall. exfalso.
      assert (Hn : Some x = None) by (apply IH; intros k' Hk'; apply Hall; right; exact Hk').
      discriminate.
    + split.
      * intros Hk k' Hk'. apply elem_of_cons in Hk' as [->|Hk']; [|apply IH; auto].
        unfold layer. destruct (target hp k) as [[img s]|]; [|discriminate].
        case_decide; [discriminate|]. simpl. congruence.
      * intros Hall. specialize (Hall k (list_elem_of_here _ _)). unfold layer in Hall.
        destruct (target hp k) as [[img s]|]; [|reflexivity].
        case_decide; [subst; contradiction|reflexivity].
Qed.

(** A later sequence writing the same layers overwrites an earlier one,
    whatever the windows the two sequences read. *)
Lemma paints_overwrite (v v' : window) hp ks m :
  paints v' hp ks (paints v hp ks m) = paints v' hp ks m.
Proof.
  apply map_eq. intros e. rewrite !paints_lookup.
  destruct (last_paint v' hp ks e) eqn:E'; [reflexivity|].
  rewrite (proj2 (last_paint_None v hp ks e) (proj1 (last_paint_None v' hp ks e) E')). reflexivity.
Qed.

(** Dropping writes of [k] changes no layer but the one [k] writes. *)
Lemma last_paint_filter (v : window) hp k ks e :
  layer hp k <> Some e ->
  last_paint v hp (List.filter (fun d => negb (Nat.eqb d k)) ks) e = last_paint v hp ks e.
Proof.
  intros Hk. induction ks as [|d ks IH]; [reflexivity|]. cbn [List.filter last_paint].
  destruct (Nat.eqb_spec d k) as [->|Hne]; cbn [negb last_paint]; rewrite IH; [|reflexivity].
  destruct (last_paint v hp ks e); [reflexivity|]. unfold layer in Hk.
  destruct (target hp k) as [[img s]|]; [|reflexivity].
  case_decide; [subst; simpl in Hk; congruence|reflexivity].
Qed.

(** What [onScroll] of [k] does to the owners of the pending frames:
    when [k] is a desktop controller with a layer, its callbacks are
    dropped and one is appended. *)
Definition act hp k : bool :=
  match hp !! k with
  | Some c => negb (isMobile c) && bool_decide (is_Some (image1 c))
  | None => false
  end.

Definition req hp (O : list obj) k : list obj :=
  if act hp k then List.filter (fun d => negb (Nat.eqb d k)) O ++ [k] else O.

Lemma act_false_target hp k : act hp k = false -> target hp k = None.
Proof.
  unfold act, target, ctl_target. destruct (hp !! k) as [c|]; [|reflexivity].
  destruct (isMobile c), (image1 c); simpl; reflexivity || discriminate.
Qed.

Lemma paint_noop (v : window) hp m k : target hp k = None -> paint v hp m k = m.
Proof. unfold paint. intros ->. reflexivity. Qed.

Lemma paints_req (v : window) hp O k m :
  paints v hp (req hp O k) m = paints v hp (O ++ [k]) m.
Proof.
  unfold req. destruct (act hp k) eqn:Ha;
    [|rewrite paints_app; cbn [paints foldl]; rewrite paint_noop by (apply act_false_target, Ha); reflexivity].
  rewrite !paints_app. cbn [paints foldl]. apply map_eq. intros e. unfold paint.
  destruct (target hp k) as [[img s]|] eqn:Ht.
  - destruct (decide (img = e)) as [<-|Hne]; [rewrite !lookup_insert_eq; reflexivity|].
    rewrite !lookup_insert_ne by exact Hne. rewrite !paints_lookup, last_paint_filter; [reflexivity|].
    unfold layer. rewrite Ht. simpl. congruence.
  - rewrite !paints_lookup, last_paint_filter; [reflexivity|]. unfold layer. rewrite Ht. discriminate.
Qed.

Definition reqs hp (O : list obj) ks : list obj := foldl (req hp) O ks.

Lemma paints_reqs (v : window) hp O ks m :
  paints v hp (reqs hp O ks) m = paints v hp ks (paints v hp O m).
Proof.
  revert O. induction ks as [|k ks IH]; intros O; [reflexivity|].
  cbn [reqs foldl]. fold (reqs hp (req hp O k) ks). rewrite IH, paints_req, paints_app. reflexivity.
Qed.

(** [paints] reads the window through the geometry only. *)
Lemma paints_ext (v v' : window) hp ks m :
  innerWidth v' = innerWidth v -> innerHeight v' = innerHeight v -> scrollY v' = scrollY v ->
  paints v' hp ks m = paints v hp ks m.
Proof.
  intros Ew Eh Ey. revert m. induction ks as [|k ks IH]; intros m; [reflexivity|].
  cbn [paints foldl]. fold (paints v' hp ks (paint v' hp m k)). fold (paints v hp ks (paint v hp m k)).
  rewrite IH. f_equal. unfold paint. destruct (target hp k) as [[img s]|]; [|reflexivity].
  unfold progress_clip, getBoundingClientRect. rewrite Ew, Eh, Ey. reflexivity.
Qed.

Lemma lookup_shape hp hq k :
  shape hp = shape hq -> set_rafId None <$> hp !! k = set_rafId None <$> hq !! k.
Proof. intros E. rewrite <- !lookup_fmap. unfold shape in E. rewrite E. reflexivity. Qed.

Lemma target_shape hp hq k : shape hp = shape hq -> target hp k = target hq k.
Proof.
  intros E. pose proof (lookup_shape hp hq k E) as Ek. unfold target.
  destruct (hp !! k) as [c|], (hq !! k) as [c'|]; simpl in Ek; try discriminate; [|reflexivity].
  destruct c, c'; unfold set_rafId in Ek; cbn in Ek |- *. injection Ek; intros; subst; reflexivity.
Qed.

Lemma act_shape hp hq k : shape hp = shape hq -> act hp k = act hq k.
Proof.
  intros E. pose proof (lookup_shape hp hq k E) as Ek. unfold act.
  destruct (hp !! k) as [c|], (hq !! k) as [c'|]; simpl in Ek; try discriminate; [|reflexivity].
  destruct c, c'; unfold set_rafId in Ek; cbn in Ek |- *. injection Ek; intros; subst; reflexivity.
Qed.

Lemma paints_shape (v : window) hp hq ks m :
  shape hp = shape hq -> paints v hp ks m = paints v hq ks m.
Proof.
  intros E. revert m. induction ks as [|k ks IH]; intros m; [reflexivity|].
  cbn [paints foldl]. fold (paints v hp ks (paint v hp m k)). fold (paints v hq ks (paint v hq m k)).
  rewrite IH. unfold paint. rewrite (target_shape hp hq k E). reflexivity.
Qed.

Lemma reqs_shape hp hq O ks : shape hp = shape hq -> reqs hp O ks = reqs hq O ks.
Proof.
  intros E. revert O. induction ks as [|k ks IH]; intros O; [reflexivity|].
  cbn [reqs foldl]. unfold req at 2 4. rewrite (act_shape hp hq k E). apply IH.
Qed.

Lemma shape_insert_rafId hp k c r :
  hp !! k = Some c -> shape (<[k := set_rafId r c]> hp) = shape hp.
Proof.
  intros Hk. unfold shape. rewrite fmap_insert.
  replace (set_rafId None (set_rafId r c)) with (set_rafId None c) by (destruct c; reflexivity).
  apply insert_id. rewrite lookup_fmap, Hk. reflexivity.
Qed.

End Paints.


(** ** One [update], on both sides *)

Section Painted.
Context `{HD : Document}.

(** [w'] is [w] with the clip [update] of [k] written. *)
Definition painted k (w w' : world) : Prop :=
  heap w' = heap w /\ listeners (win w') = listeners (win w) /\
  raf_callbacks (win w') = raf_callbacks (win w) /\ raf_next (win w') = raf_next (win w) /\
  innerWidth (win w') = innerWidth (win w) /\ innerHeight (win w') = innerHeight (win w) /\
  scrollY (win w') = scrollY (win w) /\
  clipPath (win w') = paint (win w) (heap w) (clipPath (win w)) k.

Lemma exec_report_ok (m0 : M unit) (w w' : world) : m0 w = (Ok (), w') -> exec (report m0) w = w'.
Proof. intros E. unfold exec, report, try_catch. rewrite E. reflexivity. Qed.

Lemma exec_report_throw (m0 : M unit) (e : exn) (w : world) :
  m0 w = (Throw e, w) -> exec (report m0) w = mkWorld (console_error "Uncaught exception" (win w)) (heap w).
Proof. intros E. unfold exec, report, try_catch. rewrite E. reflexivity. Qed.

Lemma painted_noop k (w : world) : target (heap w) k = None -> painted k w w.
Proof. intros Ht. unfold painted. rewrite paint_noop by exact Ht. auto 10. Qed.

Lemma painted_console k (w : world) : target (heap w) k = None ->
  painted k w (mkWorld (console_error "Uncaught exception" (win w)) (heap w)).
Proof. intros Ht. unfold painted. rewrite paint_noop by exact Ht. cbn. auto 10. Qed.

Lemma report_update_painted k (w : world) : painted k w (exec (report (update k)) w).
Proof.
  destruct (heap w !! k) as [c|] eqn:Hc.
  2: { rewrite (exec_report_throw _ TypeError) by (unfold update; js_unfold; rewrite Hc; reflexivity).
       apply painted_console. unfold target. rewrite Hc. reflexivity. }
  assert (Ht : target (heap w) k = ctl_target (Some c)) by (unfold target; rewrite Hc; reflexivity).
  destruct (image1 c) as [img|] eqn:Hi;
    [|rewrite (exec_report_ok _ w w) by (apply (update_noop k c); auto);
      apply painted_noop; rewrite Ht; simpl; rewrite Hi; reflexivity].
  destruct (isMobile c) eqn:Hm;
    [rewrite (exec_report_ok _ w w) by (apply (update_noop k c); auto);
     apply painted_noop; rewrite Ht; simpl; rewrite Hi, Hm; reflexivity|].
  destruct (section c) as [sc|] eqn:Hs.
  - rewrite (exec_report_ok _ w _ (update_run k c img sc w Hc Hi Hs Hm)).
    unfold painted, paint. rewrite Ht. simpl. rewrite Hi, Hm, Hs. cbn. auto 10.
  - rewrite (exec_report_throw _ TypeError) by (unfold update; js_unfold; rewrite Hc, Hi, Hm, Hs; reflexivity).
    apply painted_console. rewrite Ht. simpl. rewrite Hi, Hm, Hs. reflexivity.
Qed.

Lemma report_sync_onScroll_painted k (w : world) : painted k w (exec (report (sync_onScroll k)) w).
Proof.
  destruct (heap w !! k) as [c|] eqn:Hc.
  2: { rewrite (exec_report_throw _ TypeError) by (unfold sync_onScroll; js_unfold; rewrite Hc; reflexivity).
       apply painted_console. unfold target. rewrite Hc. reflexivity. }
  destruct (isMobile c || negb (bool_decide (is_Some (image1 c)))) eqn:Hg.
  - rewrite (exec_report_ok _ w w) by (unfold sync_onScroll; js_unfold; rewrite Hc, Hg; reflexivity).
    apply painted_noop. unfold target, ctl_target. rewrite Hc.
    destruct (isMobile c), (image1 c); cbn in Hg |- *; reflexivity || discriminate.
  - replace (exec (report (sync_onScroll k)) w) with (exec (report (update k)) w)
      by (unfold exec, report, try_catch, sync_onScroll; js_unfold; rewrite Hc, Hg; reflexivity).
    apply report_update_painted.
Qed.

Lemma paint_ext (v v' : window) hp m k :
  innerWidth v' = innerWidth v -> innerHeight v' = innerHeight v -> scrollY v' = scrollY v ->
  paint v' hp m k = paint v hp m k.
Proof. intros Ew Eh Ey. exact (paints_ext v v' hp [k] m Ew Eh Ey). Qed.

End Painted.


(** ** The rendered frame *)

Section Frame.
Context `{HD : Document}.

(** A frame runs the pending callbacks in order, each one once: its clip
    writes are those of the owners of the callbacks, in order. *)
Lemma frame_items_paints (R : list (positive * obj)) (w : world) :
  raf_callbacks (win w) = R -> NoDup (map fst R) ->
  heap (exec (forEach frame_item R) w) = heap w /\
  clipPath (win (exec (forEach frame_item R) w)) = paints (win w) (heap w) (map snd R) (clipPath (win w)).
Proof.
  revert w. induction R as [|p R IH]; intros w Er Hnd; [split; reflexivity|].
  rewrite exec_forEach_cons by apply returns_frame_item.
  inversion Hnd as [|? ? Hn Hnd']; subst.
  set (w1 := mkWorld (cancelAnimationFrame (fst p) (win w)) (heap w)).
  assert (Ep : exec (frame_item p) w = exec (report (update (snd p))) w1).
  { unfold frame_item. rewrite exec_gets_bind, Er. cbn [existsb]. rewrite Pos.eqb_refl. reflexivity. }
  rewrite Ep.
  assert (E1 : raf_callbacks (win w1) = R).
  { cbn [w1 win cancelAnimationFrame set_raf raf_callbacks]. rewrite Er. cbn [List.filter].
    rewrite Pos.eqb_refl. cbn [negb]. apply filter_all_true. intros q Hq.
    apply negb_true_iff, Pos.eqb_neq. intros Eq. apply Hn. rewrite <- Eq. apply in_map, Hq. }
  destruct (report_update_painted (snd p) w1) as (Eh & _ & Er2 & _ & Ew & Ehh & Ey & Ec).
  destruct (IH _ (eq_trans Er2 E1) Hnd') as [IHh IHc].
  rewrite IHh, IHc, Eh, Ec. split; [reflexivity|]. cbn [map paints foldl].
  fold (paints (win w) (heap w) (map snd R) (paint (win w) (heap w) (clipPath (win w)) (snd p))).
  rewrite (paints_ext (win w)) by (rewrite ?Ew, ?Ehh, ?Ey; reflexivity).
  rewrite (paint_ext (win w)) by reflexivity. reflexivity.
Qed.

Lemma frame_paints (w : world) :
  frames_inv w ->
  clipPath (win (exec (step Frame) w)) =
  paints (win w) (heap w) (map snd (raf_callbacks (win w))) (clipPath (win w)).
Proof.
  intros Hf. simpl step. rewrite run_frame_items, exec_gets_bind.
  exact (proj2 (frame_items_paints _ w eq_refl (fi_nodup _ Hf))).
Qed.

End Frame.

(** ** A burst of scrolls, deferred *)

(** The owner of a scroll listener [init] registered. *)
Definition scroll_owner (l : listener) : option obj :=
  match l_callback l with bound_fn _ d m_onScroll => Some d | _ => None end.

Definition scroll_listeners (ls : list listener) : list listener :=
  List.filter (fun l => bool_decide (l_type l = ev_scroll_type)) ls.

Lemma onScroll_win_fields (this : obj) (c : ProductViewParallax) (v : window) :
  listeners (onScroll_win this c v) = listeners v /\ clipPath (onScroll_win this c v) = clipPath v /\
  innerWidth (onScroll_win this c v) = innerWidth v /\ innerHeight (onScroll_win this c v) = innerHeight v /\
  scrollY (onScroll_win this c v) = scrollY v /\
  raf_callbacks (onScroll_win this c v) = cancel_own (rafId c) (raf_callbacks v) ++ [(raf_next v, this)].
Proof. unfold onScroll_win. destruct (rafId c); repeat split. Qed.

(** Under the frame invariant, cancelling the [rafId] of [k] drops
    exactly the callbacks of [k]. *)
Lemma cancel_own_owners (w : world) k (c : ProductViewParallax) :
  frames_inv w -> heap w !! k = Some c ->
  map snd (cancel_own (rafId c) (raf_callbacks (win w))) =
  List.filter (fun d => negb (Nat.eqb d k)) (map snd (raf_callbacks (win w))).
Proof.
  intros Hf Hc. destruct (rafId c) as [h|] eqn:Hr; simpl cancel_own.
  - apply map_snd_filter. intros [h' d] Hin. apply list_elem_of_In in Hin. cbn [fst snd].
    destruct (Pos.eqb_spec h' h) as [->|Hne].
    + rewrite (fi_unique _ Hf h d k c Hin Hc Hr), Nat.eqb_refl. reflexivity.
    + destruct (Nat.eqb_spec d k) as [->|]; [|reflexivity]. exfalso.
      destruct (fi_owner _ Hf h' k Hin) as (cc & Hcc & Hr'). rewrite Hc in Hcc. injection Hcc as <-.
      congruence.
  - symmetry. apply filter_all_true. intros d Hd. apply in_map_iff in Hd as ([h' d'] & <- & Hin).
    apply list_elem_of_In in Hin. cbn [snd]. destruct (Nat.eqb_spec d' k) as [->|]; [|reflexivity].
    destruct (fi_owner _ Hf h' k Hin) as (cc & Hcc & Hr'). congruence.
Qed.

Section Deferred.
Context `{HD : Document}.
Variables (H0 : gmap obj ProductViewParallax) (L0 : list listener) (C0 : gmap elem clip)
          (wd : Z) (ht : Q).
Hypothesis HL0 : forall l, l ∈ L0 -> l_type l = ev_scroll_type ->
  exists id d, l_callback l = bound_fn id d m_onScroll.

(** What a burst keeps: the listeners, the clips, the viewport and the
    controllers up to their [rafId]; [O] are the owners of the pending
    callbacks, in order. *)
Record drel (y : Q) (O : list obj) (w : world) : Prop := {
  dr_frames : frames_inv w;
  dr_shape : shape (heap w) = shape H0;
  dr_listeners : listeners (win w) = L0;
  dr_clip : clipPath (win w) = C0;
  dr_width : innerWidth (win w) = wd;
  dr_height : innerHeight (win w) = ht;
  dr_scroll : scrollY (win w) = y;
  dr_owners : map snd (raf_callbacks (win w)) = O }.

Lemma drel_console (y : Q) (O : list obj) (w : world) :
  drel y O w -> drel y O (mkWorld (console_error "Uncaught exception" (win w)) (heap w)).
Proof.
  intros [Hf Hs Hl Hc Hw Hh Hy Ho]. split; cbn; try assumption.
  apply (frames_inv_same w); [exact Hf|split; [reflexivity|split; reflexivity]].
Qed.

Lemma dispatch_one_drel (y : Q) (O : list obj) (w : world) (l : listener) (d : obj) :
  drel y O w -> l ∈ L0 -> scroll_owner l = Some d ->
  drel y (req H0 O d) (exec (dispatch_one l) w).
Proof.
  intros Hd Hl Ho. unfold dispatch_one. rewrite exec_gets_bind.
  rewrite bool_decide_true by (rewrite (dr_listeners _ _ _ Hd); exact Hl).
  unfold scroll_owner in Ho. destruct (l_callback l) as [id d' [|]|]; try discriminate.
  injection Ho as ->. cbn [call_listener]. unfold req.
  rewrite <- (act_shape (heap w) H0 d (dr_shape _ _ _ Hd)).
  destruct (heap w !! d) as [c|] eqn:Hc.
  2: { unfold act. rewrite Hc. rewrite (exec_report_throw _ TypeError) by (unfold onScroll; js_unfold; rewrite Hc; reflexivity).
       apply drel_console, Hd. }
  unfold act. rewrite Hc.
  destruct (isMobile c) eqn:Hm;
    [rewrite (exec_report_ok _ w w) by (apply (onScroll_noop d c); auto); exact Hd|].
  destruct (image1 c) as [img|] eqn:Hi;
    [|rewrite (exec_report_ok _ w w) by (apply (onScroll_noop d c); auto); exact Hd].
  rewrite (exec_report_ok _ w _ (onScroll_run d c w Hc Hm ltac:(rewrite Hi; eauto))).
  pose proof (frames_inv_onScroll d c w (dr_frames _ _ _ Hd) Hc) as Hf'.
  destruct (onScroll_win_fields d c (win w)) as (El & Ec & Ew & Eh & Ey & Er).
  destruct Hd as [Hf Hs Hl' Hc' Hw Hh Hy Ho]. cbn [negb andb bool_decide].
  split; cbn [win heap]; rewrite ?El, ?Ec, ?Ew, ?Eh, ?Ey; try assumption.
  - rewrite shape_insert_rafId by exact Hc. exact Hs.
  - rewrite Er, map_app, (cancel_own_owners w d c Hf Hc), Ho. reflexivity.
Qed.

Lemma dispatch_drel (y : Q) (ls : list listener) (O : list obj) (w : world) :
  drel y O w -> (forall l, l ∈ ls -> l ∈ L0 /\ l_type l = ev_scroll_type) ->
  drel y (reqs H0 O (omap scroll_owner ls)) (exec (forEach dispatch_one ls) w).
Proof.
  revert O w. induction ls as [|l ls IH]; intros O w Hd Hls; [exact Hd|].
  rewrite exec_forEach_cons by apply returns_dispatch_one.
  destruct (Hls l (list_elem_of_here _ _)) as [Hl Ht].
  destruct (HL0 l Hl Ht) as (id & d & Hcb).
  assert (Ho : scroll_owner l = Some d) by (unfold scroll_owner; rewrite Hcb; reflexivity).
  cbn [omap list_omap]. rewrite Ho. cbn [reqs foldl]. fold (reqs H0 (req H0 O d) (omap scroll_owner ls)).
  apply IH; [exact (dispatch_one_drel y O w l d Hd Hl Ho)|].
  intros l' Hl'. apply Hls. right. exact Hl'.
Qed.

Lemma scroll_drel (y y' : Q) (O : list obj) (w : world) :
  drel y O w ->
  drel y' (reqs H0 O (omap scroll_owner (scroll_listeners L0))) (exec (step (Scroll y')) w).
Proof.
  intros Hd. simpl step. rewrite exec_modify_bind. rewrite dispatch_unfold, exec_gets_bind.
  cbn [win]. change (listeners (set_scroll y' (win w))) with (listeners (win w)).
  rewrite (dr_listeners _ _ _ Hd). fold (scroll_listeners L0).
  apply dispatch_drel.
  - destruct Hd as [Hf Hs Hl Hc Hw Hh Hy Ho]. split; cbn; try assumption; try reflexivity.
    apply (frames_inv_same w); [exact Hf|split; [reflexivity|split; reflexivity]].
  - intros l Hl. apply list_elem_of_In, filter_In in Hl as [Hl Ht].
    split; [apply list_elem_of_In, Hl|exact (bool_decide_eq_true_1 _ Ht)].
Qed.

(** The owners [O'] after a burst write, at any window, what the owners
    before it and one dispatch of the scroll listeners write. *)
Lemma scrolls_drel (y0 : Q) (O : list obj) (ys : list Q) (y : Q) (w : world) :
  drel y0 O w ->
  exists O', drel y O' (exec (run_events (map Scroll (ys ++ [y]))) w) /\
    forall (v : window) m, paints v H0 O' m =
      paints v H0 (omap scroll_owner (scroll_listeners L0)) (paints v H0 O m).
Proof.
  revert y0 O w. unfold run_events. induction ys as [|z ys IH]; intros y0 O w Hd; simpl map;
    rewrite exec_forEach_cons by apply returns_step.
  - eexists. split; [exact (scroll_drel y0 y O w Hd)|]. intros v m. apply paints_reqs.
  - destruct (IH z _ _ (scroll_drel y0 z O w Hd)) as (O' & Hd' & Hp).
    exists O'. split; [exact Hd'|]. intros v m. rewrite Hp, paints_reqs. apply paints_overwrite.
Qed.

End Deferred.

(** ** A burst of scrolls, synchronous *)

Section Sync.
Context `{HD : Document}.

Lemma sync_dispatch_one_painted (l : listener) (d : obj) (w : world) :
  l ∈ listeners (win w) -> scroll_owner l = Some d -> painted d w (exec (sync_dispatch_one l) w).
Proof.
  intros Hl Ho. unfold sync_dispatch_one. rewrite exec_gets_bind, bool_decide_true by exact Hl.
  unfold scroll_owner in Ho. destruct (l_callback l) as [id d' [|]|]; try discriminate.
  injection Ho as ->. apply report_sync_onScroll_painted.
Qed.

Lemma returns_sync_dispatch_one (l : listener) : returns (sync_dispatch_one l).
Proof. apply returns_gets_bind. intros []; [apply returns_report|apply returns_ret]. Qed.

Lemma sync_dispatch_paints (ls : list listener) (w : world) :
  (forall l, l ∈ ls -> l ∈ listeners (win w) /\ is_Some (scroll_owner l)) ->
  let w' := exec (forEach sync_dispatch_one ls) w in
  heap w' = heap w /\ listeners (win w') = listeners (win w) /\
  innerWidth (win w') = innerWidth (win w) /\ innerHeight (win w') = innerHeight (win w) /\
  scrollY (win w') = scrollY (win w) /\
  clipPath (win w') = paints (win w) (heap w) (omap scroll_owner ls) (clipPath (win w)).
Proof.
  revert w. induction ls as [|l ls IH]; intros w Hls; [cbn; auto 10|]. cbv zeta.
  rewrite exec_forEach_cons by apply returns_sync_dispatch_one.
  destruct (Hls l (list_elem_of_here _ _)) as [Hl [d Ho]].
  destruct (sync_dispatch_one_painted l d w Hl Ho) as (Eh & El & _ & _ & Ew & Ehh & Ey & Ec).
  destruct (IH (exec (sync_dispatch_one l) w)) as (Eh' & El' & Ew' & Ehh' & Ey' & Ec').
  { intros l' Hl'. rewrite El. apply Hls. right. exact Hl'. }
  rewrite Eh', El', Ew', Ehh', Ey', Ec', Eh, El, Ew, Ehh, Ey, Ec. repeat split.
  cbn [omap list_omap]. rewrite Ho. cbn [paints foldl].
  fold (paints (win w) (heap w) (omap scroll_owner ls) (paint (win w) (heap w) (clipPath (win w)) d)).
  apply paints_ext; assumption.
Qed.

Lemma sync_scroll_paints (y : Q) (w : world) :
  scroll_listeners_onScroll (win w) ->
  let w' := exec (sync_scroll y) w in
  heap w' = heap w /\ listeners (win w') = listeners (win w) /\
  innerWidth (win w') = innerWidth (win w) /\ innerHeight (win w') = innerHeight (win w) /\
  scrollY (win w') = y /\
  clipPath (win w') = paints (set_scroll y (win w)) (heap w)
                        (omap scroll_owner (scroll_listeners (listeners (win w)))) (clipPath (win w)).
Proof.
  intros Hs. cbv zeta. unfold sync_scroll. rewrite exec_modify_bind, exec_gets_bind.
  apply (sync_dispatch_paints _ (mkWorld (set_scroll y (win w)) (heap w))).
  intros l Hl. apply list_elem_of_In, filter_In in Hl as [Hl Ht].
  apply list_elem_of_In in Hl. apply bool_decide_eq_true_1 in Ht.
  destruct (Hs l Hl Ht) as (id & d & Hcb). split; [exact Hl|].
  unfold scroll_owner. rewrite Hcb. eauto.
Qed.

Lemma sync_scrolls_paints (ys : list Q) (y : Q) (w : world) :
  scroll_listeners_onScroll (win w) ->
  clipPath (win (exec (forEach sync_scroll (ys ++ [y])) w)) =
  paints (set_scroll y (win w)) (heap w)
    (omap scroll_owner (scroll_listeners (listeners (win w)))) (clipPath (win w)).
Proof.
  revert w. induction ys as [|z ys IH]; intros w Hs; simpl app;
    rewrite exec_forEach_cons by (intros w'; unfold sync_scroll; apply returns_modify_bind; intros _;
                                  apply returns_gets_bind; intros ls; apply returns_forEach, returns_sync_dispatch_one).
  - exact (proj2 (proj2 (proj2 (proj2 (proj2 (sync_scroll_paints y w Hs)))))).
  - destruct (sync_scroll_paints z w Hs) as (Eh & El & Ew & Ehh & Ey & Ec).
    rewrite IH by (intros l Hl; rewrite El in Hl; exact (Hs l Hl)).
    rewrite Eh, El, Ec. rewrite (paints_ext (set_scroll y (win w)) (set_scroll y _))
      by (cbn [innerWidth innerHeight scrollY set_scroll]; first [exact Ew|exact Ehh|reflexivity]).
    apply paints_overwrite.
Qed.

End Sync.

(** ** Deferred rendering is synchronous rendering *)

(** C10: frame-deferred rendering is equivalent to synchronous
    rendering, on any page.  From a world where no frame is pending,
    whose scroll listeners are the bound [onScroll] of controllers (as
    [init] registers them) and which satisfies the frame invariant, any
    non-empty burst of scrolls followed by a rendered frame leaves every
    layer's clip exactly as the naive handler that runs [update] on every
    scroll ([sync_scroll]).  This holds with any number of controllers,
    also when several drive one layer (the duplicates of the 500ms
    rescan): the last scroll requests the frames in the order of its
    listeners, so the frame writes the clips in the order the naive
    handler writes them last. *)
Theorem deferred_render_equiv `{Document} (ys : list Q) (y : Q) (w : world) :
  scroll_listeners_onScroll (win w) -> frames_inv w -> raf_callbacks (win w) = [] ->
  clipPath (win (exec (run_events (map Scroll (ys ++ [y]) ++ [Frame])) w)) =
  clipPath (win (exec (forEach sync_scroll (ys ++ [y])) w)).
Proof.
  intros Hs Hf Hr.
  assert (Hd : drel (heap w) (listeners (win w)) (clipPath (win w)) (innerWidth (win w))
                 (innerHeight (win w)) (scrollY (win w)) [] w)
    by (split; rewrite ?Hr; reflexivity || assumption).
  destruct (scrolls_drel _ _ _ _ _ Hs _ _ ys y w Hd) as (O' & Hd' & Hp).
  unfold run_events. rewrite exec_forEach_app by apply returns_step.
  rewrite exec_forEach_cons by apply returns_step. fold (run_events (map Scroll (ys ++ [y]))).
  change (exec (forEach step []) ?x) with x.
  rewrite frame_paints by exact (dr_frames _ _ _ _ _ _ _ _ Hd').
  rewrite (dr_owners _ _ _ _ _ _ _ _ Hd'), (dr_clip _ _ _ _ _ _ _ _ Hd').
  rewrite (paints_shape _ _ (heap w)) by exact (dr_shape _ _ _ _ _ _ _ _ Hd').
  rewrite Hp, sync_scrolls_paints by exact Hs. cbn [paints foldl].
  apply paints_ext; cbn [innerWidth innerHeight scrollY set_scroll];
    first [exact (dr_width _ _ _ _ _ _ _ _ Hd')|exact (dr_height _ _ _ _ _ _ _ _ Hd')
          |exact (dr_scroll _ _ _ _ _ _ _ _ Hd')].
Qed.

(** ** Witness *)

(** Two controllers of the section ["main"], both driving its layer
    (element 2), as the ready-time discovery and the 500ms rescan leave
    them. *)
Definition shared_world : world :=
  snd (@construct example_page "main" (snd (@construct example_page "main"
         (mkWorld (fresh_window 800 800) ∅)))).

Lemma shared_world_wf : world_wf shared_world.
Proof.
  pose proof (proj1 (@calm_construct example_page "main" _ (empty_world_wf 800 800))) as [Hw _].
  exact (proj1 (proj1 (@calm_construct example_page "main" _ Hw))).
Qed.

Lemma shared_world_scroll_listeners : scroll_listeners_onScroll (win shared_world).
Proof.
  intros l Hl Ht. destruct (wf_typed _ shared_world_wf l Hl) as (id & d & Hcb).
  exists id, d. rewrite Hcb, Ht. reflexivity.
Qed.

(** The two controllers, with their observers 3 and 7. *)
Lemma shared_world_heap :
  heap shared_world = <[4%nat := set_observer (Some 7%nat) example_ctl]> {[0%nat := example_ctl]}.
Proof. vm_compute. reflexivity. Qed.

Lemma world_eta (w : world) : w = mkWorld (win w) (heap w).
Proof. destruct w. reflexivity. Qed.

Lemma shared_world_frames_inv : frames_inv shared_world.
Proof.
  rewrite (world_eta shared_world) at 1. apply frames_inv_empty; [vm_compute; reflexivity|]. intros d dd Hd.
  rewrite shared_world_heap in Hd.
  apply lookup_insert_Some in Hd as [[_ <-]|[_ Hd]]; [reflexivity|].
  apply lookup_singleton_Some in Hd as [_ <-]. reflexivity.
Qed.

Lemma deferred_render_equiv_witness :
  raf_callbacks (win shared_world) = [] /\
  clipPath (win (exec (@run_events example_page (map Scroll ([100; 300] ++ [500]) ++ [Frame])) shared_world)) =
  clipPath (win (exec (forEach (@sync_scroll example_page) ([100; 300] ++ [500])) shared_world)).
Proof.
  split; [vm_compute; reflexivity|].
  apply deferred_render_equiv;
    [exact shared_world_scroll_listeners|exact shared_world_frames_inv|vm_compute; reflexivity].
Defined.

End Coalesce.
