(* ===== verification/Bootstrap.v ===== *)
(** * Discovery and the page script

    [initProductViewSections] (src/assets/product-view.js, lines 135-148)
    builds one controller per marked section with a non-empty
    [data-section-id], each construction in its own [try]/[catch] that
    logs and goes on.  The top-level script (lines 150-173) runs it when
    the document is ready, once more from a 500ms timer, and, in the
    theme editor, builds a controller 100ms after each [shopify:section:load].
    The page is a [page] record: the world of [Controller], a clock, the
    pending timers, the two document listeners and the window global of
    line 176; [page_step] is what the browser does on each page event, an
    exception escaping a task being reported as uncaught ([on_world]). *)
From S2P Require Import Prelude Progress Host Controller.
From stdpp Require Import base list gmap strings.
From Stdlib Require Import QArith ZArith NArith String List Bool.
Import ListNotations.

Module Bootstrap.
Import Progress Host Controller.

(** The tasks a timer can hold: the rescan of line 159 and the editor
    construction of lines 165-171. *)
Inductive task :=
  | task_initAll
  | task_editor_construct (sid : string).

(** The page: the world, the clock, the pending timers, whether the
    [DOMContentLoaded] (line 152) and [shopify:section:load] (line 163)
    listeners are registered, and whether [window.ProductViewParallax]
    holds the class (line 176). *)
Record page := mkPage {
  pworld : world;
  clock : N;
  timers : list (N * task);
  dcl_listener : bool;
  editor_listener : bool;
  debug_exposed : bool }.

Definition set_pworld (w : world) (p : page) : page :=
  mkPage w (clock p) (timers p) (dcl_listener p) (editor_listener p) (debug_exposed p).
Definition set_timers (ts : list (N * task)) (p : page) : page :=
  mkPage (pworld p) (clock p) ts (dcl_listener p) (editor_listener p) (debug_exposed p).
Definition set_clock (t : N) (p : page) : page :=
  mkPage (pworld p) t (timers p) (dcl_listener p) (editor_listener p) (debug_exposed p).
Definition set_dcl_listener (p : page) : page :=
  mkPage (pworld p) (clock p) (timers p) true (editor_listener p) (debug_exposed p).
Definition set_editor_listener (p : page) : page :=
  mkPage (pworld p) (clock p) (timers p) (dcl_listener p) true (debug_exposed p).

(** [window.ProductViewParallax = ProductViewParallax], line 176: the class
    is published on the window; nothing of the script reads it back. *)
Definition expose_class (p : page) : page :=
  mkPage (pworld p) (clock p) (timers p) (dcl_listener p) (editor_listener p) true.

(** [setTimeout(f, delay)]: a timer due at [clock + delay]. *)
Definition setTimeout (delay : N) (t : task) (p : page) : page :=
  set_timers (timers p ++ [((clock p + delay)%N, t)]) p.

(** The first timer with the smallest deadline, and the others. *)
Fixpoint take_earliest (l : list (N * task)) : option ((N * task) * list (N * task)) :=
  match l with
  | [] => None
  | x :: xs =>
      match take_earliest xs with
      | Some (y, ys) => if (fst y <? fst x)%N then Some (y, x :: ys) else Some (x, xs)
      | None => Some (x, [])
      end
  end.

Section Script.
Context `{Document}.

(** The body of the [forEach] of lines 138-147. *)
Definition init_section (section : elem) : M unit :=
  match getAttribute_section_id section with
  | Some sid =>
      if String.eqb sid "" then mret ()
      else try_catch (construct sid ;; mret ())
             (fun _ => win_modify (console_error "Error initializing ProductViewParallax:"))
  | None => mret ()
  end.

(** [initProductViewSections()], lines 135-148. *)
Definition initProductViewSections : M unit :=
  forEach init_section querySelectorAll_sections.

Definition run_task (t : task) : M unit :=
  match t with
  | task_initAll => initProductViewSections
  | task_editor_construct sid =>
      try_catch (construct sid ;; mret ())
        (fun _ => win_modify (console_error "Error initializing ProductViewParallax in editor:"))
  end.

(** A task of the page (the script itself, a document listener, a timer
    callback, a browser event) run on its world: an exception escaping it
    is reported on the console as uncaught, as the browser does, and the
    page goes on. *)
Definition on_world (m : M unit) (p : page) : page := set_pworld (exec (report m) (pworld p)) p.

(** The script of lines 150-176, given [document.readyState === 'loading']
    and [Shopify.designMode]. *)
Definition script (loading designMode : bool) (p : page) : page :=
  let p1 := if loading then set_dcl_listener p else on_world initProductViewSections p in
  let p2 := setTimeout 500 task_initAll p1 in
  let p3 := if designMode then set_editor_listener p2 else p2 in
  expose_class p3.

(** The timers due at [t], earliest first, at most [fuel] of them. *)
Fixpoint fire_due (fuel : nat) (t : N) (p : page) : page :=
  match fuel with
  | O => p
  | S f =>
      match take_earliest (timers p) with
      | Some ((d, tk), rest) =>
          if (d <=? t)%N then fire_due f t (on_world (run_task tk) (set_timers rest p)) else p
      | None => p
      end
  end.

Inductive page_event :=
  | DOMContentLoaded
  | SectionLoad (sid : string)
  | Tick (t : N)
  | Browser (e : event).

Definition page_step (e : page_event) (p : page) : page :=
  match e with
  | DOMContentLoaded => if dcl_listener p then on_world initProductViewSections p else p
  | SectionLoad sid =>
      if editor_listener p then setTimeout 100 (task_editor_construct sid) p else p
  | Tick t => set_clock (N.max (clock p) t) (fire_due (length (timers p)) t p)
  | Browser ev => on_world (step ev) p
  end.

End Script.

(** ** Discovery *)

(** The identifiers the loop of lines 138-147 constructs, in order: the
    non-empty [data-section-id] of each discovered element. *)
Fixpoint section_ids `{Document} (secs : list elem) : list string :=
  match secs with
  | [] => []
  | e :: es =>
      match getAttribute_section_id e with
      | Some sid => if String.eqb sid "" then section_ids es else sid :: section_ids es
      | None => section_ids es
      end
  end.

(** Whether the selector of line 7 throws for an identifier. *)
Definition query_throws `{Document} (sid : string) : bool :=
  match querySelector_section sid with Throw _ => true | Ok _ => false end.

Definition init_error : string := "Error initializing ProductViewParallax:".

Section Discovery.
Context `{Document}.

Lemma init_section_effect (e : elem) (w : world) :
  keys_below w ->
  exists w', init_section e w = (Ok (), w') /\ keys_below w' /\
    size (heap w') = (size (heap w) +
      length (List.filter (fun sid => negb (query_throws sid)) (section_ids [e])))%nat /\
    console_errors (win w') = console_errors (win w) ++
      repeat init_error (length (List.filter query_throws (section_ids [e]))).
Proof.
  intros Hk. unfold init_section, section_ids.
  destruct (getAttribute_section_id e) as [sid|];
    [|exists w; simpl; rewrite app_nil_r; auto with lia].
  destruct (String.eqb sid "");
    [exists w; simpl; rewrite app_nil_r; auto with lia|].
  unfold query_throws. cbn [List.filter negb length repeat app].
  destruct (querySelector_section sid) as [sec|ex] eqn:Hq; cbn [negb List.filter length repeat].
  - destruct (construct_ok_effect sid sec w Hq Hk) as (w' & Hr & Hk' & Hs & Hc & _).
    exists w'. unfold try_catch. js_unfold. rewrite Hr. cbn [fst snd].
    rewrite Hs, Hc, app_nil_r. auto with lia.
  - eexists. unfold try_catch. js_unfold. rewrite (construct_throw sid ex w Hq).
    cbn [win heap fst snd].
    split; [reflexivity|]. split; [|split; [cbn [heap]; lia|reflexivity]].
    intros k Hk'. specialize (Hk k Hk'). cbn [win heap]. autorewrite with host_rw. lia.
Qed.

Lemma section_ids_cons (e : elem) (es : list elem) :
  section_ids (e :: es) = section_ids [e] ++ section_ids es.
Proof.
  simpl. destruct (getAttribute_section_id e); [destruct (String.eqb _ _)|]; reflexivity.
Qed.

Lemma forEach_init_section_effect (secs : list elem) (w : world) :
  keys_below w ->
  exists w', forEach init_section secs w = (Ok (), w') /\ keys_below w' /\
    size (heap w') = (size (heap w) +
      length (List.filter (fun sid => negb (query_throws sid)) (section_ids secs)))%nat /\
    console_errors (win w') = console_errors (win w) ++
      repeat init_error (length (List.filter query_throws (section_ids secs))).
Proof.
  revert w. induction secs as [|e es IH]; intros w Hk.
  - exists w. simpl. rewrite app_nil_r. auto with lia.
  - destruct (init_section_effect e w Hk) as (w1 & Hr1 & Hk1 & Hs1 & Hc1).
    destruct (IH w1 Hk1) as (w2 & Hr2 & Hk2 & Hs2 & Hc2).
    exists w2. simpl forEach. js_unfold. rewrite Hr1. split; [exact Hr2|].
    rewrite section_ids_cons, !List.filter_app, !length_app, repeat_app, app_assoc,
      <- Hc1, Hc2, Hs2, Hs1. auto with lia.
Qed.

End Discovery.

(** ** Timers *)

Lemma take_earliest_None (l : list (N * task)) : take_earliest l = None -> l = [].
Proof.
  destruct l as [|x xs]; [reflexivity|]. simpl.
  destruct (take_earliest xs) as [[y ys]|]; [destruct (fst y <? fst x)%N|]; discriminate.
Qed.

Lemma take_earliest_spec (l : list (N * task)) (x : N * task) (r : list (N * task)) :
  take_earliest l = Some (x, r) ->
  Permutation l (x :: r) /\ (forall y, In y l -> (fst x <= fst y)%N).
Proof.
  revert x r. induction l as [|z zs IH]; intros x r Ht; [discriminate|]. simpl in Ht.
  destruct (take_earliest zs) as [[y ys]|] eqn:E.
  - destruct (IH y ys eq_refl) as [Hp Hm].
    destruct (N.ltb_spec (fst y) (fst z)) as [Hlt|Hge]; injection Ht as <- <-.
    + split; [rewrite Hp; apply perm_swap|].
      intros u [<-|Hu]; [lia|apply Hm, Hu].
    + split; [reflexivity|]. intros u [<-|Hu]; [lia|specialize (Hm u Hu); lia].
  - apply take_earliest_None in E. subst zs. injection Ht as <- <-.
    split; [reflexivity|]. intros u [<-|[]]. lia.
Qed.

Section Timers.
Context `{Document}.

(** With one unit of fuel per pending timer, [fire_due] runs exactly the
    timers due at [t]: the timers left are those not yet due. *)
Lemma fire_due_timers (fuel : nat) (t : N) (p : page) :
  (length (timers p) <= fuel)%nat ->
  Permutation (timers (fire_due fuel t p))
              (List.filter (fun x => (t <? fst x)%N) (timers p)).
Proof.
  revert p. induction fuel as [|f IH]; intros p Hl; simpl.
  - destruct (timers p); [reflexivity|simpl in Hl; lia].
  - destruct (take_earliest (timers p)) as [[[d tk] rest]|] eqn:E.
    + destruct (take_earliest_spec _ _ _ E) as [Hp Hm]. simpl in Hm.
      destruct (N.leb_spec d t) as [Hle|Hgt].
      * rewrite IH by (simpl; apply Permutation_length in Hp; simpl in Hp; lia).
        simpl. rewrite (filter_Permutation_compat _ _ _ Hp). simpl.
        rewrite (proj2 (N.ltb_ge t d) Hle). reflexivity.
      * rewrite filter_all_true; [reflexivity|].
        intros y Hy. apply N.ltb_lt. specialize (Hm y Hy). lia.
    + apply take_earliest_None in E. rewrite E. reflexivity.
Qed.

End Timers.

(** ** Example pages *)

(** Three marked sections, elements 1, 3 and 5, with identifiers ["a"],
    ["bad id"] and ["c"]; the selector for ["bad id"] throws, the two
    others find their section and its layer (elements 2 and 6). *)
Definition three_query (id : string) : outcome (option elem) :=
  if String.eqb id "a" then Ok (Some 1%positive)
  else if String.eqb id "c" then Ok (Some 5%positive)
  else if String.eqb id "bad id" then Throw SyntaxError
  else Ok None.

Definition three_section_page : Document := {|
  querySelector_section := three_query;
  querySelector_image1 := fun e =>
    if Pos.eqb e 1 then Some 2%positive else if Pos.eqb e 5 then Some 6%positive else None;
  querySelectorAll_sections := [1%positive; 3%positive; 5%positive];
  getAttribute_section_id := fun e =>
    if Pos.eqb e 1 then Some "a" else if Pos.eqb e 3 then Some "bad id"
    else if Pos.eqb e 5 then Some "c" else None;
  layout := fun _ _ => (1000, 400);
  layout_height_nonneg := fun _ _ => proj1 (Qle_bool_iff 0 400) eq_refl
|}.

(** A page whose window is 1200px by 800px, before the script runs. *)
Definition blank_page : page := mkPage (mkWorld (fresh_window 1200 800) ∅) 0 [] false false false.

(** ** Properties *)

(** C27: discovery is resilient: whatever the page, one controller is
    added per non-empty identifier whose construction does not throw,
    exactly one error is logged per identifier whose construction throws,
    and the loop itself never throws. *)
Theorem initProductViewSections_resilient `{Document} (w : world) :
  keys_below w ->
  let ids := section_ids querySelectorAll_sections in
  let w' := exec initProductViewSections w in
  fst (initProductViewSections w) = Ok () /\
  size (heap w') =
    (size (heap w) + length (List.filter (fun sid => negb (query_throws sid)) ids))%nat /\
  console_errors (win w') =
    console_errors (win w) ++ repeat init_error (length (List.filter query_throws ids)).
Proof.
  intros Hk ids w'. subst ids w'. unfold exec, initProductViewSections.
  destruct (forEach_init_section_effect querySelectorAll_sections w Hk)
    as (w1 & Hr & _ & Hs & Hc). rewrite Hr. auto.
Qed.

(** ** Witnesses *)

Lemma blank_keys_below : keys_below (pworld blank_page).
Proof. intros k [x Hx]. cbn [pworld blank_page heap] in Hx. rewrite lookup_empty in Hx. discriminate. Qed.

Lemma initProductViewSections_resilient_witness :
  keys_below (pworld blank_page) /\
  fst (@initProductViewSections three_section_page (pworld blank_page)) = Ok ().
Proof.
  split; [exact blank_keys_below|].
  apply (@initProductViewSections_resilient three_section_page (pworld blank_page)
           blank_keys_below).
Defined.

End Bootstrap.
