(* ===== verification/Page.v ===== *)
(** * The whole page: constructions and browser events together

    [Safety] and [Invariant] prove what the browser's events keep;
    [Bootstrap] models the page script, whose discovery, 500ms rescan and
    editor hook construct controllers between those events.  This file
    shows that the whole lifetime of the page, any interleaving of
    [DOMContentLoaded], section loads, timer ticks and browser events,
    keeps the typing invariant [world_wf] and the frame invariant
    [frames_inv], and logs nothing but the two initialization messages of
    the [catch] blocks (lines 144 and 169): no exception escapes a task of
    the page.  [run_page] is the lifetime of the page, its events handled
    in order by [page_step]. *)
From S2P Require Import Prelude Progress Host Controller Invariant Safety Render Bootstrap.
From stdpp Require Import base list gmap strings.
From Stdlib Require Import QArith ZArith NArith String List Bool Lia.
Import ListNotations.

Module Page.
Import Progress Host Controller Invariant Safety Render Bootstrap.

(** The lifetime of the page: the page events in order, each handled
    by [page_step]. *)
Definition run_page `{Document} (es : list page_event) (p : page) : page :=
  fold_left (fun p e => page_step e p) es p.

(** The messages of the [catch] blocks of lines 144 and 169. *)
Definition editor_error : string := "Error initializing ProductViewParallax in editor:".

Definition init_message (m : string) : Prop := m = init_error \/ m = editor_error.

(** What the page may do from [w0]: keep both invariants, log only
    initialization errors, and leave the unreferenced controllers alone. *)
Definition settled (w0 w : world) : Prop :=
  world_wf w /\ frames_inv w /\
  (exists l, console_errors (win w) = console_errors (win w0) ++ l /\ Forall init_message l) /\
  unref_kept w0 w.

Lemma settled_refl (w : world) : world_wf w -> frames_inv w -> settled w w.
Proof.
  intros Hw Hf. split; [exact Hw|split; [exact Hf|split; [|apply unref_kept_refl]]].
  exists []. rewrite app_nil_r. auto.
Qed.

Lemma settled_trans (w1 w2 w3 : world) : settled w1 w2 -> settled w2 w3 -> settled w1 w3.
Proof.
  intros (_ & _ & (l1 & E1 & F1) & U1) (Hw & Hf & (l2 & E2 & F2) & U2).
  split; [exact Hw|split; [exact Hf|split; [|exact (unref_kept_trans _ _ _ U1 U2)]]].
  exists (l1 ++ l2). rewrite E2, E1, app_assoc. split; [reflexivity|apply Forall_app; auto].
Qed.

Lemma settled_of_calm (w0 w : world) : calm w0 w -> frames_inv w -> settled w0 w.
Proof.
  intros (Hw & Hc & Hu & _) Hf. split; [exact Hw|split; [exact Hf|split; [|exact Hu]]].
  exists []. rewrite app_nil_r. auto.
Qed.

(** Logging an initialization error. *)
Lemma settled_console_error (w : world) (m : string) :
  world_wf w -> frames_inv w -> init_message m ->
  settled w (mkWorld (console_error m (win w)) (heap w)).
Proof.
  intros [Hk Ht Hr] Hf Hm. split; [split|split; [|split]].
  - exact Hk.
  - exact Ht.
  - intros k Hk'. apply Hr, (refers_console_error m), Hk'.
  - apply (frames_inv_same w); [exact Hf|split; [reflexivity|split; reflexivity]].
  - exists [m]. split; [reflexivity|auto].
  - intros k _ Hnr. split; [reflexivity|intros Hk'; exact (Hnr (refers_console_error _ _ _ Hk'))].
Qed.

(** The constructor keeps the frame invariant: the new controller has no
    frame, and [init] schedules none. *)
Lemma frames_inv_alloc (w : world) (c : ProductViewParallax) :
  keys_below w -> frames_inv w -> rafId c = None ->
  frames_inv (mkWorld (bump_obj (win w)) (<[next_obj (win w) := c]> (heap w))).
Proof.
  intros Hk [Ho Hu Hd Hp Hb] Hc. set (n := next_obj (win w)).
  assert (Hn : forall d dd, heap w !! d = Some dd -> d <> n).
  { intros d dd Hdd ->. assert (Hs : is_Some (heap w !! n)) by (rewrite Hdd; eauto). specialize (Hk n Hs). lia. }
  split; cbn [win heap]; autorewrite with host_rw.
  - intros h o Hin. destruct (Ho h o Hin) as (cc & Hcc & Hr). exists cc.
    rewrite lookup_insert_ne by (apply not_eq_sym, (Hn o cc Hcc)). auto.
  - intros h o d dd Hin Hdd Hr. apply lookup_insert_Some in Hdd as [[<- <-]|[_ Hdd]]; [congruence|].
    exact (Hu h o d dd Hin Hdd Hr).
  - exact Hd.
  - exact Hp.
  - intros d dd h Hdd Hr. apply lookup_insert_Some in Hdd as [[<- <-]|[_ Hdd]]; [congruence|].
    exact (Hb d dd h Hdd Hr).
Qed.

Section Script.
Context `{Document}.

Lemma frames_inv_construct (sid : string) (w : world) :
  keys_below w -> frames_inv w -> frames_inv (snd (construct sid w)).
Proof.
  intros Hk Hf. destruct (querySelector_section sid) as [sec|e] eqn:Hq.
  - rewrite (construct_ok sid sec w Hq). cbv zeta.
    pose proof (frames_inv_alloc w (fresh_ctl sid sec (innerWidth (win w))) Hk Hf eq_refl) as H1.
    destruct (ctl_activates _); [|exact H1].
    pose proof (frames_inv_same _ _ H1 (stable_init (next_obj (win w)) _)) as H2. unfold exec in H2.
    destruct (init _ _) as [[]]; exact H2.
  - rewrite (construct_throw sid e w Hq).
    apply (frames_inv_same w); [exact Hf|split; [reflexivity|split; reflexivity]].
Qed.

(** [try { new ProductViewParallax(sid) } catch { console.error(m) }]. *)
Lemma settled_try_construct (sid : string) (m : string) (w : world) :
  world_wf w -> frames_inv w -> init_message m ->
  settled w (exec (try_catch (construct sid ;; mret ()) (fun _ => win_modify (console_error m))) w).
Proof.
  intros Hw Hf Hm. destruct (calm_construct sid w Hw) as [Hc _].
  pose proof (frames_inv_construct sid w (wf_keys w Hw) Hf) as Hf'.
  pose proof (settled_of_calm _ _ Hc Hf') as Hs.
  unfold exec, try_catch, mbind, js_bind, bind in *.
  destruct (construct sid w) as [[k|e] w']; cbn [fst snd] in *; [exact Hs|].
  exact (settled_trans _ _ _ Hs (settled_console_error w' m (proj1 Hs) Hf' Hm)).
Qed.

Lemma settled_initProductViewSections (w : world) :
  world_wf w -> frames_inv w -> settled w (exec initProductViewSections w).
Proof.
  intros Hw Hf. apply (preserves_forEach (settled w)); [|apply settled_refl; assumption].
  intros e w1 Hs. apply (settled_trans _ w1); [exact Hs|]. unfold init_section.
  destruct (getAttribute_section_id e) as [sid|]; [destruct (String.eqb sid "")|];
    try (apply settled_refl; apply Hs).
  apply settled_try_construct; [apply Hs..|left; reflexivity].
Qed.

Lemma settled_run_task (t : task) (w : world) :
  world_wf w -> frames_inv w -> settled w (exec (run_task t) w).
Proof.
  intros Hw Hf. destruct t as [|sid]; simpl;
    [apply settled_initProductViewSections|apply settled_try_construct; [| |right]]; auto.
Qed.

(** The page's tasks never throw: the catch blocks of lines 143-145 and
    168-170 log and return, and the browser's events report what escapes a
    listener.  So [on_world] never reports an uncaught exception. *)
Lemma returns_init_section (e : elem) : returns (init_section e).
Proof.
  unfold init_section. destruct (getAttribute_section_id e) as [sid|]; [|apply returns_ret].
  destruct (String.eqb sid ""); [apply returns_ret|apply returns_try_log].
Qed.

Lemma returns_initProductViewSections : returns initProductViewSections.
Proof. apply returns_forEach, returns_init_section. Qed.

Lemma returns_run_task (t : task) : returns (run_task t).
Proof. destruct t; [apply returns_initProductViewSections|apply returns_try_log]. Qed.

Lemma pworld_on_world (m : M unit) (p : page) : returns m -> pworld (on_world m p) = exec m (pworld p).
Proof. intros Hm. apply exec_report_returns, Hm. Qed.

(** The invariant of a page: both invariants of its world. *)
Definition page_settled (p0 p : page) : Prop := settled (pworld p0) (pworld p).

Lemma settled_fire_due (fuel : nat) (t : N) (p : page) :
  world_wf (pworld p) -> frames_inv (pworld p) -> page_settled p (fire_due fuel t p).
Proof.
  revert p. induction fuel as [|f IH]; intros p Hw Hf; simpl; [apply settled_refl; assumption|].
  destruct (take_earliest (timers p)) as [[[d tk] rest]|]; [|apply settled_refl; assumption].
  destruct (d <=? t)%N; [|apply settled_refl; assumption].
  pose proof (settled_run_task tk (pworld p) Hw Hf) as H1.
  assert (E : pworld (on_world (run_task tk) (set_timers rest p)) = exec (run_task tk) (pworld p))
    by exact (pworld_on_world (run_task tk) (set_timers rest p) (returns_run_task tk)).
  rewrite <- E in H1.
  exact (settled_trans _ _ _ H1 (IH _ (proj1 H1) (proj1 (proj2 H1)))).
Qed.

Lemma settled_page_step (e : page_event) (p : page) :
  world_wf (pworld p) -> frames_inv (pworld p) -> page_settled p (page_step e p).
Proof.
  intros Hw Hf. unfold page_settled. destruct e as [| sid | t | ev]; cbn [page_step].
  - destruct (dcl_listener p); [|apply settled_refl; assumption].
    rewrite pworld_on_world by apply returns_initProductViewSections.
    apply settled_initProductViewSections; assumption.
  - destruct (editor_listener p); apply settled_refl; assumption.
  - apply settled_fire_due; assumption.
  - rewrite pworld_on_world by apply returns_step.
    apply settled_of_calm; [apply (calm_step ev (pworld p)), calm_refl, Hw|apply keeps_step, Hf].
Qed.

Lemma settled_run_page (es : list page_event) (p : page) :
  world_wf (pworld p) -> frames_inv (pworld p) -> page_settled p (run_page es p).
Proof.
  unfold run_page. revert p. induction es as [|e es IH]; intros p Hw Hf; simpl;
    [apply settled_refl; assumption|].
  pose proof (settled_page_step e p Hw Hf) as H1.
  exact (settled_trans _ _ _ H1 (IH _ (proj1 H1) (proj1 (proj2 H1)))).
Qed.

End Script.

Lemma blank_page_settled : world_wf (pworld blank_page) /\ frames_inv (pworld blank_page).
Proof.
  split; [apply empty_world_wf|apply frames_inv_empty; [reflexivity|]].
  intros d dd Hd. rewrite lookup_empty in Hd. discriminate.
Qed.

(** ** Properties *)

Section Properties.
Context `{Document}.

(** C13: the page as a whole keeps both invariants: from a world that
    satisfies them, any interleaving of [DOMContentLoaded], editor section
    loads, timer ticks (the discovery and the 500ms rescan construct
    controllers) and browser events leaves a world that is well typed
    ([world_wf]) and whose animation frames are each owned by the one
    controller whose [rafId] holds them ([frames_inv]). *)
Theorem run_page_keeps_invariants (es : list page_event) (p : page) :
  world_wf (pworld p) -> frames_inv (pworld p) ->
  world_wf (pworld (run_page es p)) /\ frames_inv (pworld (run_page es p)).
Proof.
  intros Hw Hf. destruct (settled_run_page es p Hw Hf) as (Hw' & Hf' & _). auto.
Qed.

(** C14: over the whole lifetime of the page, the console receives only
    the two initialization messages of the [catch] blocks of lines 144
    and 169: no exception ever escapes a callback. *)
Theorem run_page_logs_only_init_errors (es : list page_event) (p : page) :
  world_wf (pworld p) -> frames_inv (pworld p) ->
  exists l, console_errors (win (pworld (run_page es p))) = console_errors (win (pworld p)) ++ l /\
    Forall init_message l.
Proof. intros Hw Hf. exact (proj1 (proj2 (proj2 (settled_run_page es p Hw Hf)))). Qed.

(** C23: at most one animation frame is pending for each controller at
    every point of the page's lifetime, constructions included. *)
Theorem run_page_one_frame_per_controller (es : list page_event) (p : page) (c : obj) :
  world_wf (pworld p) -> frames_inv (pworld p) ->
  (length (pending_of c (win (pworld (run_page es p)))) <= 1)%nat.
Proof.
  intros Hw Hf. apply frames_inv_pending_le1. exact (proj1 (proj2 (settled_run_page es p Hw Hf))).
Qed.

End Properties.

(** ** The page script, run *)

(** ** Witnesses *)

Definition page_run : list page_event :=
  [DOMContentLoaded; Tick 500; Browser (Scroll 100); Browser Frame; Browser (Resize 700 800);
   Browser (Resize 1200 800)].

Lemma run_page_keeps_invariants_witness :
  world_wf (pworld (@run_page three_section_page page_run (set_dcl_listener blank_page))) /\
  frames_inv (pworld (@run_page three_section_page page_run (set_dcl_listener blank_page))).
Proof. apply run_page_keeps_invariants; apply blank_page_settled. Defined.

Lemma run_page_logs_only_init_errors_witness :
  exists l, console_errors (win (pworld (@run_page three_section_page page_run (set_dcl_listener blank_page))))
    = [] ++ l /\ Forall init_message l.
Proof. apply (run_page_logs_only_init_errors page_run (set_dcl_listener blank_page)); apply blank_page_settled. Defined.

Lemma run_page_one_frame_per_controller_witness :
  (length (pending_of 0 (win (pworld (@run_page three_section_page
     [DOMContentLoaded; Browser (Scroll 10); Browser (Scroll 20); Tick 500; Browser (Scroll 30)]
     (set_dcl_listener blank_page))))) <= 1)%nat.
Proof. apply run_page_one_frame_per_controller; apply blank_page_settled. Defined.

End Page.
